(** * SecureBank account router: funding, ledger and allocation

    A shallow embedding of the account router ([server/routers/account.ts]),
    of the store it runs on ([lib/db/index.ts]) and of the second,
    non-transactional copy of the funding handler that the repository also
    carries, followed by the properties of the funding path.  The request
    context ([server/trpc.ts]), the auth router ([server/routers/auth.ts])
    and the maintenance scripts follow in the second half of Part I, their
    properties in Part IV.

    Conventions of the embedding.
    - JavaScript strings are sequences of UTF-16 code units ([list N]);
      SQLite TEXT values are byte strings ([string]) compared bytewise.
    - JavaScript numbers and SQLite REAL values are modelled as exact
      rationals ([Q]): binary64 rounding and overflow are outside the
      model.  The only special value kept is [NaN], which the handlers
      test for explicitly.
    - The store is passed explicitly.  Every statement sent to SQLite may
      throw; which ones do is decided by an oracle [nat -> bool] indexed by
      the number of statements the call has issued so far.
    - The clock ([new Date().toISOString()], SQLite's CURRENT_TIMESTAMP)
      and the random source ([crypto.randomBytes]) are inputs. *)

From Stdlib Require Import String Ascii List Bool Arith ZArith NArith QArith Qround Qabs Lia Lqa.
From Stdlib Require Import Permutation Sorted.
Import ListNotations.

Set Implicit Arguments.
Open Scope string_scope.
Open Scope list_scope.

(* ================================================================== *)
(** * Part I: the program *)
(* ================================================================== *)

(** ** JavaScript values *)

Module JS.

(** A string is a sequence of UTF-16 code units. *)
Definition jsstring := list N.

(** Literals: the code units of an ASCII string. *)
Definition js (s : string) : jsstring :=
  map N_of_ascii (list_ascii_of_string s).

(** Numbers: exact rationals, plus NaN. *)
Inductive number :=
| Finite (q : Q)
| NaN.

(** What a JSON field may hold before validation. *)
Inductive jsval :=
| VString (s : jsstring)
| VNumber (x : number)
| VOther.

(** [String(x)] for a number [x] is the runtime's Number::toString; it
    is kept abstract, except that NaN is rendered as the three letters
    NaN. *)
Class Runtime := {
  Number_toString : number -> jsstring;
  Number_toString_NaN : Number_toString NaN = js "NaN"
}.

(** WhiteSpace and LineTerminator code units, the ones [trim] removes. *)
Definition isWhiteSpace (c : N) : bool :=
  ((9 <=? c) && (c <=? 13) || (c =? 32) || (c =? 160) || (c =? 5760)
   || (8192 <=? c) && (c <=? 8202) || (c =? 8232) || (c =? 8233)
   || (c =? 8239) || (c =? 8287) || (c =? 12288) || (c =? 65279))%N.

Fixpoint dropWhile (p : N -> bool) (s : jsstring) : jsstring :=
  match s with
  | [] => []
  | c :: rest => if p c then dropWhile p rest else s
  end.

Fixpoint takeWhile (p : N -> bool) (s : jsstring) : jsstring :=
  match s with
  | [] => []
  | c :: rest => if p c then c :: takeWhile p rest else []
  end.

Definition trimStart (s : jsstring) : jsstring := dropWhile isWhiteSpace s.
Definition trimEnd (s : jsstring) : jsstring :=
  rev (dropWhile isWhiteSpace (rev s)).

(** [s.trim()] *)
Definition trim (s : jsstring) : jsstring := trimEnd (trimStart s).

(** [\d] *)
Definition isDigit (c : N) : bool := ((48 <=? c) && (c <=? 57))%N.
(** [[1-9]] *)
Definition isNonZeroDigit (c : N) : bool := ((49 <=? c) && (c <=? 57))%N.

Definition digitValue (c : N) : Z := Z.of_N c - 48.

(** Value of a run of decimal digits, most significant first. *)
Definition digitsValue (ds : jsstring) : Z :=
  fold_left (fun acc c => 10 * acc + digitValue c)%Z ds 0%Z.

(** [Number(s)] on unsigned decimal literals without exponent
    ([digits], [digits.digits], [digits.], [.digits]).  Every string the
    amount pattern lets through is in this fragment, and [Number] is applied
    to such strings only; on the other strings (signs, exponents, white
    space, the empty string) the definition answers NaN, which need not be
    what the runtime answers. *)
Definition Number (s : jsstring) : number :=
  let ip := takeWhile isDigit s in
  match dropWhile isDigit s with
  | [] => match ip with
          | [] => NaN
          | _ => Finite (inject_Z (digitsValue ip))
          end
  | c :: fp =>
      if ((c =? 46)%N && forallb isDigit fp
          && negb ((length ip =? 0)%nat && (length fp =? 0)%nat))%bool
      then Finite (inject_Z (digitsValue ip)
                   + inject_Z (digitsValue fp) / inject_Z (10 ^ Z.of_nat (length fp)))%Q
      else NaN
  end.

(** The integer [n] for which [n / 100] is closest to [x]; on a tie the
    one of larger magnitude (the rule of [toFixed] and of SQLite's
    [round]). *)
Definition nearestHundredth (x : Q) : Z :=
  if Qle_bool 0 x then Qfloor (x * 100 + (1 # 2))%Q
  else (- Qfloor ((- x) * 100 + (1 # 2))%Q)%Z.

(** The number denoted by [x.toFixed(2)]. *)
Definition toFixed2 (x : Q) : Q := nearestHundredth x # 100.

(** [Number(x.toFixed(2))] *)
Definition Number_toFixed2 (x : number) : number :=
  match x with
  | Finite q => Finite (toFixed2 q)
  | NaN => NaN
  end.

End JS.

(** ** Regular expressions of the input schema *)

Module Regex.
Import JS.

Inductive regex :=
| Eps
| Chr (c : N)
| Range (lo hi : N)
| Seq (r1 r2 : regex)
| Alt (r1 r2 : regex)
| Opt (r : regex)
| Star (r : regex).

(** The strings a pattern matches as a whole (anchored by [^] and [$]). *)
Inductive matches : regex -> jsstring -> Prop :=
| MEps : matches Eps []
| MChr c : matches (Chr c) [c]
| MRange lo hi c : (lo <= c)%N -> (c <= hi)%N -> matches (Range lo hi) [c]
| MSeq r1 r2 s1 s2 : matches r1 s1 -> matches r2 s2 -> matches (Seq r1 r2) (s1 ++ s2)
| MAltL r1 r2 s : matches r1 s -> matches (Alt r1 r2) s
| MAltR r1 r2 s : matches r2 s -> matches (Alt r1 r2) s
| MOptNone r : matches (Opt r) []
| MOptSome r s : matches r s -> matches (Opt r) s
| MStarNil r : matches (Star r) []
| MStarCons r s1 s2 : matches r s1 -> matches (Star r) s2 -> matches (Star r) (s1 ++ s2).

Definition digit : regex := Range 48 57.

(** The amount pattern of the input schema: anchored at both ends, an
    integer part that is either the digit 0 or a digit 1-9 followed by
    any number of digits, then optionally a dot and one or two digits. *)
Definition amountPattern : regex :=
  Seq (Alt (Chr 48) (Seq (Range 49 57) (Star digit)))
      (Opt (Seq (Chr 46) (Seq digit (Opt digit)))).

(** The routing-number pattern: exactly nine digits, anchored. *)
Definition routingPattern : regex :=
  Seq digit (Seq digit (Seq digit (Seq digit (Seq digit
    (Seq digit (Seq digit (Seq digit digit))))))).

(** Recogniser for [amountPattern]: the integer part, then the optional
    fraction up to the end of the input. *)
Definition fractionTest (s : jsstring) : bool :=
  match s with
  | [] => true
  | dot :: d1 :: [] => (dot =? 46)%N && isDigit d1
  | dot :: d1 :: d2 :: [] => (dot =? 46)%N && isDigit d1 && isDigit d2
  | _ => false
  end.

Definition amountTest (s : jsstring) : bool :=
  match s with
  | [] => false
  | c :: rest =>
      if (c =? 48)%N then fractionTest rest
      else if isNonZeroDigit c then fractionTest (dropWhile isDigit rest)
      else false
  end.

(** Recogniser for [routingPattern]. *)
Definition routingTest (s : jsstring) : bool :=
  (length s =? 9)%nat && forallb isDigit s.

End Regex.

(** ** The store ([lib/db/index.ts]) *)

(** One module per table, named as the schema exports them; a row holds
    the columns of the CREATE TABLE statement that the router reads or
    writes. *)

Module users.
Record row := { id : Z; email : string }.
End users.

Module sessions.
Record row := { id : Z; userId : Z; token : string; expiresAt : string }.
End sessions.

Module accounts.
Record row := {
  id : Z;
  userId : Z;
  accountNumber : string;
  accountType : string;
  balance : Q;
  status : option string;
  createdAt : option string
}.

Definition withBalance (b : Q) (a : row) : row :=
  {| id := id a; userId := userId a; accountNumber := accountNumber a;
     accountType := accountType a; balance := b; status := status a;
     createdAt := createdAt a |}.
End accounts.

Module transactions.
Record row := {
  id : Z;
  accountId : Z;
  type : string;
  amount : Q;
  description : option string;
  status : string;
  createdAt : option string;
  processedAt : option string
}.
End transactions.

Module Sql.

(** Tables are kept in rowid order. *)
Record database := {
  users_rows : list users.row;
  accounts_rows : list accounts.row;
  transactions_rows : list transactions.row;
  sessions_rows : list sessions.row
}.

Definition withAccounts (rows : list accounts.row) (d : database) : database :=
  {| users_rows := users_rows d; accounts_rows := rows;
     transactions_rows := transactions_rows d; sessions_rows := sessions_rows d |}.

Definition withTransactions (rows : list transactions.row) (d : database) : database :=
  {| users_rows := users_rows d; accounts_rows := accounts_rows d;
     transactions_rows := rows; sessions_rows := sessions_rows d |}.

(** INTEGER PRIMARY KEY AUTOINCREMENT: the new rowid lies past the
    largest one in the table (the bookkeeping table that also remembers
    deleted rowids is not modelled; the router never deletes). *)
Definition nextRowid (ids : list Z) : Z := fold_right Z.max 0%Z ids + 1.

(** SQLite's [round(x, 2)]. *)
Definition round2 (x : Q) : Q := JS.toFixed2 x.

(** Order of a nullable TEXT column under ORDER BY: NULL first, then
    bytewise. *)
Definition textLt (a b : option string) : bool :=
  match a, b with
  | None, None => false
  | None, Some _ => true
  | Some _, None => false
  | Some x, Some y => String.ltb x y
  end.

(** [... WHERE accounts.id = ? AND accounts.userId = ?], first row. *)
Definition selectAccountOfUser (accountId userId : Z) (d : database)
  : option accounts.row :=
  find (fun a => (accounts.id a =? accountId)%Z && (accounts.userId a =? userId)%Z)
       (accounts_rows d).

(** [... WHERE accounts.id = ?], first row. *)
Definition selectAccountById (accountId : Z) (d : database) : option accounts.row :=
  find (fun a => (accounts.id a =? accountId)%Z) (accounts_rows d).

(** [... WHERE accounts.accountNumber = ?], first row. *)
Definition selectAccountByNumber (number : string) (d : database)
  : option accounts.row :=
  find (fun a => String.eqb (accounts.accountNumber a) number) (accounts_rows d).

(** [... WHERE accounts.userId = ? AND accounts.accountType = ?], first row. *)
Definition selectAccountOfType (userId : Z) (accountType : string) (d : database)
  : option accounts.row :=
  find (fun a => (accounts.userId a =? userId)%Z
                 && String.eqb (accounts.accountType a) accountType)
       (accounts_rows d).

(** [... FROM accounts WHERE accounts.userId = ?] *)
Definition selectAccountsOfUser (userId : Z) (d : database) : list accounts.row :=
  filter (fun a => (accounts.userId a =? userId)%Z) (accounts_rows d).

(** [INSERT INTO accounts ...] with the created_at default. *)
Definition insertAccount (userId : Z) (number accountType : string) (balance : Q)
    (status : string) (currentTimestamp : string) (d : database) : database :=
  withAccounts
    (accounts_rows d ++
     [ {| accounts.id := nextRowid (map accounts.id (accounts_rows d));
          accounts.userId := userId;
          accounts.accountNumber := number;
          accounts.accountType := accountType;
          accounts.balance := balance;
          accounts.status := Some status;
          accounts.createdAt := Some currentTimestamp |} ])
    d.

(** [INSERT INTO transactions ...] *)
Definition insertTransaction (accountId : Z) (type : string) (amount : Q)
    (description status : string) (processedAt createdAt : string) (d : database)
  : database :=
  withTransactions
    (transactions_rows d ++
     [ {| transactions.id := nextRowid (map transactions.id (transactions_rows d));
          transactions.accountId := accountId;
          transactions.type := type;
          transactions.amount := amount;
          transactions.description := Some description;
          transactions.status := status;
          transactions.createdAt := Some createdAt;
          transactions.processedAt := Some processedAt |} ])
    d.

(** [UPDATE accounts SET balance = round(balance + ?, 2) WHERE id = ?] *)
Definition addToBalance (amount : Q) (accountId : Z) (d : database) : database :=
  withAccounts
    (map (fun a => if (accounts.id a =? accountId)%Z
                   then accounts.withBalance (round2 (accounts.balance a + amount)) a
                   else a)
         (accounts_rows d))
    d.

(** [UPDATE accounts SET balance = ? WHERE id = ?] *)
Definition setBalance (newBalance : Q) (accountId : Z) (d : database) : database :=
  withAccounts
    (map (fun a => if (accounts.id a =? accountId)%Z
                   then accounts.withBalance newBalance a
                   else a)
         (accounts_rows d))
    d.

(** [... FROM transactions WHERE account_id = ?] *)
Definition selectTransactionsOf (accountId : Z) (d : database)
  : list transactions.row :=
  filter (fun t => (transactions.accountId t =? accountId)%Z) (transactions_rows d).

(** The row an [ORDER BY created_at DESC LIMIT 1] scan keeps: a later row
    replaces the kept one only when its key is strictly greater, so among
    equal keys the lowest rowid stays. *)
Definition keepLatest (best : option transactions.row) (t : transactions.row)
  : option transactions.row :=
  match best with
  | None => Some t
  | Some b => if textLt (transactions.createdAt b) (transactions.createdAt t)
              then Some t else Some b
  end.

(** [... FROM transactions WHERE account_id = ? ORDER BY created_at DESC LIMIT 1] *)
Definition selectLatestTransactionOf (accountId : Z) (d : database)
  : option transactions.row :=
  fold_left keepLatest (selectTransactionsOf accountId d) None.

(** [SELECT balance FROM accounts WHERE id = ?], first row. *)
Definition selectBalance (accountId : Z) (d : database) : option Q :=
  option_map accounts.balance (selectAccountById accountId d).

End Sql.

(** ** Failures, statements and awaits *)

Module Trpc.
Import Sql.

Inductive code := BAD_REQUEST | UNAUTHORIZED | NOT_FOUND | CONFLICT | INTERNAL_SERVER_ERROR.

(** One issue of a schema failure: where, and the message. *)
Record issue := { path : list string; issueMessage : string }.

(** What a caller gets back on failure: an error thrown by the handler,
    or the issues of the input schema (reported as a bad request). *)
Inductive failure :=
| TRPCError (c : code) (message : string)
| ZodError (issues : list issue).

(** What a handler may throw: a failure of its own, or any other error
    (a statement that SQLite refused, a TypeError). *)
Inductive exn :=
| Fail (f : failure)
| JsError (message : string).

(** The connection: the database and the number of statements issued so
    far on behalf of the call. *)
Record state := { db : database; issued : nat }.

Definition oracle := nat -> bool.
Definition noFaults : oracle := fun _ => false.

(** Synchronous code: runs without yielding. *)
Definition M (A : Type) : Type := oracle -> state -> (exn + A) * state.

Definition ret {A} (a : A) : M A := fun _ st => (inr a, st).
Definition throw {A} (e : exn) : M A := fun _ st => (inl e, st).
Definition bind {A B} (m : M A) (k : A -> M B) : M B :=
  fun fl st =>
    match m fl st with
    | (inl e, st') => (inl e, st')
    | (inr a, st') => k a fl st'
    end.

(** One statement: refused when the oracle says so, leaving the
    database as it is. *)
Definition stmt {A} (op : database -> A * database) : M A :=
  fun fl st =>
    if fl (issued st)
    then (inl (JsError "SqliteError"), {| db := db st; issued := S (issued st) |})
    else let (a, d) := op (db st) in
         (inr a, {| db := d; issued := S (issued st) |}).

Definition query {A} (q : database -> A) : M A := stmt (fun d => (q d, d)).
Definition exec (u : database -> database) : M unit := stmt (fun d => (tt, u d)).

(** [sqlite.transaction(body)()]: BEGIN, the body, COMMIT; when any of
    them throws, ROLLBACK restores the database and the error is
    rethrown. *)
Definition sqlite_transaction {A} (body : M A) : M A :=
  fun fl st =>
    match exec (fun d => d) fl st with
    | (inl e, st1) => (inl e, st1)
    | (inr _, st1) =>
        match body fl st1 with
        | (inl e, st2) => (inl e, {| db := db st; issued := issued st2 |})
        | (inr a, st2) =>
            match exec (fun d => d) fl st2 with
            | (inl e, st3) => (inl e, {| db := db st; issued := issued st3 |})
            | (inr _, st3) => (inr a, st3)
            end
        end
    end.

(** An async handler: synchronous stretches separated by awaits.
    [Await m k] runs [m] now, yields, and goes on with [k] when
    resumed. *)
Inductive task (A : Type) : Type :=
| Return (a : A)
| Throw (e : exn)
| Await (B : Type) (m : M B) (k : B -> task A).

Arguments Return {A} a.
Arguments Throw {A} e.
Arguments Await {A B} m k.

(** A handler run alone, from start to end. *)
Fixpoint run {A} (t : task A) : M A :=
  match t with
  | Return a => ret a
  | Throw e => throw e
  | Await m k => bind m (fun b => run (k b))
  end.

(** What the procedure reports: errors that are not failures of the
    handler's own become INTERNAL_SERVER_ERROR. *)
Definition report {A} (r : exn + A) : failure + A :=
  match r with
  | inl (Fail f) => inl f
  | inl (JsError msg) => inl (TRPCError INTERNAL_SERVER_ERROR msg)
  | inr a => inr a
  end.

(** One call of a procedure against a database. *)
Definition call {A} (t : task A) (fl : oracle) (d : database)
  : (failure + A) * database :=
  let (r, st) := run t fl {| db := d; issued := 0 |} in
  (report r, db st).

(** The failure kinds of the interface. *)
Inductive kind :=
| InvalidAmount | AmountTooSmall | AccountNotFound | AccountNotActive
| InvalidFundingSource | InternalError | DuplicateAccountType | Unauthorized.

Definition kindOfIssue (i : issue) : list kind :=
  match path i with
  | p :: _ => if String.eqb p "amount" then [InvalidAmount]
              else if String.eqb p "fundingSource" then [InvalidFundingSource]
              else []
  | [] => []
  end.

(** The kinds a failure carries, read off its code and message (a schema
    failure carries one kind per issue). *)
Definition kindsOf (f : failure) : list kind :=
  match f with
  | ZodError issues => flat_map kindOfIssue issues
  | TRPCError NOT_FOUND _ => [AccountNotFound]
  | TRPCError CONFLICT _ => [DuplicateAccountType]
  | TRPCError INTERNAL_SERVER_ERROR _ => [InternalError]
  | TRPCError UNAUTHORIZED _ => [Unauthorized]
  | TRPCError BAD_REQUEST msg =>
      if String.eqb msg "Amount must be at least $0.01" then [AmountTooSmall]
      else if String.eqb msg "Account is not active" then [AccountNotActive]
      else if String.eqb msg "Invalid amount" then [InvalidAmount]
      else []
  end.

End Trpc.

(** ** Inputs of the procedures *)

Module Schema.
Import JS Regex Trpc.

Inductive accountTypeEnum := checking | savings.
Inductive fundingTypeEnum := card | bank.

Definition accountTypeName (t : accountTypeEnum) : string :=
  match t with checking => "checking" | savings => "savings" end.
Definition fundingTypeName (t : fundingTypeEnum) : string :=
  match t with card => "card" | bank => "bank" end.

Record fundingSourceT := {
  type : fundingTypeEnum;
  accountNumber : jsstring;
  routingNumber : option jsstring
}.

(** The request as it arrives; [amount] is not yet validated. *)
Record rawFundInput := {
  rawAccountId : Z;
  rawAmount : jsval;
  rawFundingSource : fundingSourceT
}.

(** The request as the handler sees it. *)
Record fundInput := {
  accountId : Z;
  amount : number;
  fundingSource : fundingSourceT
}.

(** Outcome of validating one field: a value, issues that let validation
    of the enclosing object go on, or issues that stop it. *)
Inductive parsed (A : Type) :=
| Valid (a : A)
| Dirty (issues : list issue)
| Aborted (issues : list issue).
Arguments Valid {A} a.
Arguments Dirty {A} issues.
Arguments Aborted {A} issues.

(** The refinement on the whole object: with bank funding the routing
    number must be a string of nine digits. *)
Definition routingRefinement (src : fundingSourceT) : bool :=
  match type src with
  | bank => match routingNumber src with
            | Some r => routingTest r
            | None => false
            end
  | card => true
  end.

Definition routingIssue : issue :=
  {| path := ["fundingSource"; "routingNumber"];
     issueMessage := "Routing number must be 9 digits for bank funding" |}.

Definition routingIssues (src : fundingSourceT) : list issue :=
  if routingRefinement src then [] else [routingIssue].

(** The object schema: the amount field, then the refinement. *)
Definition objectSchema (amountSchema : jsval -> parsed number) (raw : rawFundInput)
  : list issue + fundInput :=
  match amountSchema (rawAmount raw) with
  | Aborted issues => inl issues
  | Dirty issues => inl (issues ++ routingIssues (rawFundingSource raw))
  | Valid a =>
      match routingIssues (rawFundingSource raw) with
      | [] => inr {| accountId := rawAccountId raw; amount := a;
                     fundingSource := rawFundingSource raw |}
      | issues => inl issues
      end
  end.

(** A procedure with an input schema: the handler runs on validated input
    only. *)
Definition withInput {I O} (schema : list issue + I) (handler : I -> task O) : task O :=
  match schema with
  | inl issues => Throw (Fail (ZodError issues))
  | inr input => handler input
  end.

(** What [fundAccount] returns. *)
Record fundResult := {
  transaction : option transactions.row;
  newBalance : Q
}.

(** A ledger entry with the account type attached. *)
Record enriched := {
  entry : transactions.row;
  accountType : option string
}.

Definition amountTooSmall : failure :=
  TRPCError BAD_REQUEST "Amount must be at least $0.01".
Definition accountNotFound : failure :=
  TRPCError NOT_FOUND "Account not found".
Definition accountNotActive : failure :=
  TRPCError BAD_REQUEST "Account is not active".

Definition isActive (s : option string) : bool :=
  match s with
  | Some s => String.eqb s "active"
  | None => false
  end.

End Schema.

(** ** The account router ([server/routers/account.ts]) *)

Module Router.
Import JS Regex Sql Trpc Schema.

(** Decimal digits of a natural number, least significant produced
    first. *)
Fixpoint digitsOf (fuel : nat) (n : N) (acc : string) : string :=
  match fuel with
  | O => acc
  | S fuel' =>
      let acc' := String (ascii_of_N (48 + n mod 10)) acc in
      if (n / 10 =? 0)%N then acc' else digitsOf fuel' (n / 10) acc'
  end.

(** [n.toString()] for a non-negative integer. *)
Definition toString (n : N) : string :=
  digitsOf (S (N.to_nat (N.log2 n))) n "".

(** [buf.readUIntBE(offset, byteLength)] *)
Definition readUIntBE (buf : list Byte.byte) (offset byteLength : nat) : N :=
  fold_left (fun acc b => acc * 256 + Byte.to_N b)%N
            (firstn byteLength (skipn offset buf)) 0%N.

(** [generateAccountNumber], given the bytes [crypto.randomBytes(5)]
    returned. *)
Definition generateAccountNumber (buffer : list Byte.byte) : string :=
  let randomNum := readUIntBE buffer 0 5 in
  let accountNumber := (randomNum mod 9000000000 + 1000000000)%N in
  toString accountNumber.

(** The loop [while (!isUnique)]: one draw and one lookup per round.
    The draws still to come are given as a list; when they run out the
    loop has not ended, which is [Return None]. *)
Fixpoint uniqueAccountNumber {A} (draws : list (list Byte.byte))
    (k : string -> task (option A)) : task (option A) :=
  match draws with
  | [] => Return None
  | buffer :: rest =>
      let accountNumber := generateAccountNumber buffer in
      Await (query (selectAccountByNumber accountNumber)) (fun existing =>
        match existing with
        | Some _ => uniqueAccountNumber rest k
        | None => k accountNumber
        end)
  end.

(** What follows the loop: insert the account, fetch it back by its
    number. *)
Definition insertAndFetch (userId : Z) (accountType : accountTypeEnum)
    (currentTimestamp : string) (accountNumber : string) : task (option accounts.row) :=
  Await (exec (insertAccount userId accountNumber (accountTypeName accountType)
                             0 "active" currentTimestamp)) (fun _ =>
  Await (query (selectAccountByNumber accountNumber)) (fun account =>
  match account with
  | None => Throw (Fail (TRPCError INTERNAL_SERVER_ERROR "Failed to create account"))
  | Some account => Return (Some account)
  end)).

Definition createAccount (userId : Z) (accountType : accountTypeEnum)
    (draws : list (list Byte.byte)) (currentTimestamp : string)
  : task (option accounts.row) :=
  Await (query (selectAccountOfType userId (accountTypeName accountType)))
    (fun existingAccount =>
  match existingAccount with
  | Some _ =>
      Throw (Fail (TRPCError CONFLICT
        ("You already have a " ++ accountTypeName accountType ++ " account")%string))
  | None =>
      uniqueAccountNumber draws (insertAndFetch userId accountType currentTimestamp)
  end).

Definition getAccounts (userId : Z) : task (list accounts.row) :=
  Await (query (selectAccountsOfUser userId)) (fun userAccounts =>
  Return userAccounts).

(** The preprocessing of the amount field. *)
Definition preprocess `{Runtime} (val : jsval) : jsval :=
  match val with
  | VString s => VString (trim s)
  | VNumber x => VString (Number_toString x)
  | VOther => VOther
  end.

Definition amountFormatIssue : issue :=
  {| path := ["amount"];
     issueMessage := "Invalid amount format (no leading zeros); use e.g. 1.23" |}.
Definition expectedStringIssue : issue :=
  {| path := ["amount"]; issueMessage := "Expected string" |}.

(** The amount field: preprocess, require a string that the pattern
    accepts, transform it to a number with two decimals. *)
Definition amountSchema `{Runtime} (val : jsval) : parsed number :=
  match preprocess val with
  | VString s =>
      if amountTest s then Valid (Number_toFixed2 (Number s))
      else Dirty [amountFormatIssue]
  | _ => Aborted [expectedStringIssue]
  end.

Definition fundAccountSchema `{Runtime} (raw : rawFundInput) : list issue + fundInput :=
  objectSchema amountSchema raw.

(** The body of the database transaction: insert the ledger row, add to
    the balance, read both back. *)
Definition fundTransaction (accountId : Z) (amount : Q) (source : fundingTypeEnum)
    (nowIso : string) : M fundResult :=
  bind (exec (insertTransaction accountId "deposit" amount
                ("Funding from " ++ fundingTypeName source)%string "completed"
                nowIso nowIso)) (fun _ =>
  bind (exec (addToBalance amount accountId)) (fun _ =>
  bind (query (selectLatestTransactionOf accountId)) (fun transactionRow =>
  bind (query (selectBalance accountId)) (fun balanceRow =>
  match balanceRow with
  | None => throw (JsError "TypeError")
  | Some balance =>
      ret {| transaction := transactionRow; newBalance := toFixed2 balance |}
  end)))).

Definition fundAccountHandler (userId : Z) (nowIso : string) (input : fundInput)
  : task fundResult :=
  match amount input with
  | NaN => Throw (Fail amountTooSmall)
  | Finite amount =>
      if negb (Qle_bool (1 # 100) amount) then Throw (Fail amountTooSmall)
      else
        Await (query (selectAccountOfUser (accountId input) userId)) (fun account =>
        match account with
        | None => Throw (Fail accountNotFound)
        | Some account =>
            if negb (isActive (accounts.status account))
            then Throw (Fail accountNotActive)
            else
              Await (sqlite_transaction
                       (fundTransaction (accountId input) amount
                                        (type (fundingSource input)) nowIso))
                    (fun result => Return result)
        end)
  end.

Definition fundAccount `{Runtime} (userId : Z) (nowIso : string) (raw : rawFundInput)
  : task fundResult :=
  withInput (fundAccountSchema raw) (fundAccountHandler userId nowIso).

(** The loop over the account's transactions: one lookup of the account
    per transaction. *)
Fixpoint enrichTransactions (accountTransactions : list transactions.row)
    (enrichedTransactions : list enriched) : task (list enriched) :=
  match accountTransactions with
  | [] => Return enrichedTransactions
  | transaction :: rest =>
      Await (query (selectAccountById (transactions.accountId transaction)))
        (fun accountDetails =>
      enrichTransactions rest
        (enrichedTransactions ++
         [ {| entry := transaction;
              accountType := option_map accounts.accountType accountDetails |} ]))
  end.

Definition getTransactions (userId : Z) (accountId : Z) : task (list enriched) :=
  Await (query (selectAccountOfUser accountId userId)) (fun account =>
  match account with
  | None => Throw (Fail accountNotFound)
  | Some _ =>
      Await (query (selectTransactionsOf accountId)) (fun accountTransactions =>
      enrichTransactions accountTransactions [])
  end).

End Router.

(** ** The non-transactional copy of the funding handler *)

(** The repository carries a second copy of the router whose [fundAccount]
    takes a numeric amount, writes the ledger row and the balance in two
    separate awaited statements, and computes the new balance in memory
    from the account row it read at the start.  The other procedures of
    that copy are those of [Router]. *)

Module TwoStep.
Import JS Regex Sql Trpc Schema.

Definition expectedNumberIssue : issue :=
  {| path := ["amount"]; issueMessage := "Expected number" |}.
Definition notPositiveIssue : issue :=
  {| path := ["amount"]; issueMessage := "Number must be greater than 0" |}.

(** The amount field: a number, and positive. *)
Definition amountSchema (val : jsval) : parsed number :=
  match val with
  | VNumber (Finite q) =>
      if Qle_bool q 0 then Dirty [notPositiveIssue] else Valid (Finite q)
  | _ => Aborted [expectedNumberIssue]
  end.

Definition fundAccountSchema (raw : rawFundInput) : list issue + fundInput :=
  objectSchema amountSchema raw.

Definition invalidAmount : failure := TRPCError BAD_REQUEST "Invalid amount".

(** The transaction row is inserted without a created_at, which takes
    the column default. *)
Definition fundAccountHandler (userId : Z) (nowIso currentTimestamp : string)
    (input : fundInput) : task fundResult :=
  match amount input with
  | NaN => Throw (Fail invalidAmount)
  | Finite rawAmount =>
      let amount := toFixed2 rawAmount in
      if negb (Qle_bool (1 # 100) amount) then Throw (Fail amountTooSmall)
      else
        Await (query (selectAccountOfUser (accountId input) userId)) (fun account =>
        match account with
        | None => Throw (Fail accountNotFound)
        | Some account =>
            if negb (isActive (accounts.status account))
            then Throw (Fail accountNotActive)
            else
              Await (exec (insertTransaction (accountId input) "deposit" amount
                             ("Funding from "
                              ++ fundingTypeName (type (fundingSource input)))%string
                             "completed" nowIso currentTimestamp)) (fun _ =>
              let currentBalance := toFixed2 (accounts.balance account) in
              let newBalance := toFixed2 (currentBalance + amount) in
              Await (exec (setBalance newBalance (accountId input))) (fun _ =>
              Await (query (selectLatestTransactionOf (accountId input)))
                (fun transaction =>
              Return {| transaction := transaction; newBalance := newBalance |})))
        end)
  end.

Definition fundAccount (userId : Z) (nowIso currentTimestamp : string)
    (raw : rawFundInput) : task fundResult :=
  withInput (fundAccountSchema raw) (fundAccountHandler userId nowIso currentTimestamp).

End TwoStep.

(** ** Concurrent calls *)

(** Calls in flight share the database and interleave at their awaits: a
    step resumes one of them and runs it up to its next await. *)

Module Concurrent.
Import Sql Trpc.

Definition step {A} (fl : oracle) (t : task A) (st : state) : task A * state :=
  match t with
  | Await m k =>
      match m fl st with
      | (inl e, st') => (Throw e, st')
      | (inr b, st') => (k b, st')
      end
  | _ => (t, st)
  end.

Fixpoint replace {A} (i : nat) (x : A) (l : list A) : list A :=
  match l, i with
  | [], _ => []
  | _ :: rest, O => x :: rest
  | y :: rest, S i' => y :: replace i' x rest
  end.

(** Run the calls in the order a schedule names them. *)
Fixpoint runSchedule {A} (fl : oracle) (schedule : list nat)
    (pool : list (task A)) (st : state) : list (task A) * state :=
  match schedule with
  | [] => (pool, st)
  | i :: rest =>
      match nth_error pool i with
      | Some t =>
          let (t', st') := step fl t st in
          runSchedule fl rest (replace i t' pool) st'
      | None => runSchedule fl rest pool st
      end
  end.

Definition succeeded {A} (t : task A) : Prop := exists a, t = Return a.

Definition returned {A} (t : task A) : bool :=
  match t with
  | Return _ => true
  | _ => false
  end.

(** How many calls of the pool have returned. *)
Definition countReturned {A} (pool : list (task A)) : nat :=
  length (filter returned pool).

(** The stages of a [fundAccount] call on account X with normalized
    amount A: about to run the database transaction ... *)
Definition committing (X : Z) (A : Q) (t : task Schema.fundResult) : Prop :=
  exists source nowIso,
    t = Await (sqlite_transaction (Router.fundTransaction X A source nowIso))
              (fun result => Return result).

(** ... about to look the account up ... *)
Definition guarding (X : Z) (A : Q) (t : task Schema.fundResult) : Prop :=
  exists userId source nowIso,
    t = Await (query (selectAccountOfUser X userId)) (fun account =>
        match account with
        | None => Throw (Fail Schema.accountNotFound)
        | Some account =>
            if negb (Schema.isActive (accounts.status account))
            then Throw (Fail Schema.accountNotActive)
            else Await (sqlite_transaction (Router.fundTransaction X A source nowIso))
                       (fun result => Return result)
        end).

(** ... or over, one way or the other. *)
Definition funding (X : Z) (A : Q) (t : task Schema.fundResult) : Prop :=
  guarding X A t \/ committing X A t \/ (exists e, t = Throw e) \/ (exists r, t = Return r).

(** A request for account X whose normalized amount is A. *)
Definition fundsWith `{JS.Runtime} (X : Z) (A : Q) (raw : Schema.rawFundInput) : Prop :=
  Schema.rawAccountId raw = X
  /\ exists input, Router.fundAccountSchema raw = inr input
                   /\ Schema.amount input = JS.Finite A.

(** The ledger rows that N fundings of X with A append. *)
Definition fundingEntries (X : Z) (A : Q) (N : nat) (entries : list transactions.row)
  : Prop :=
  length entries = N
  /\ Forall (fun t => transactions.accountId t = X /\ transactions.amount t = A
                      /\ transactions.status t = "completed") entries.

End Concurrent.

(** ** The accepted amount form, in the words of the specification *)

Module Spec.
Import JS.

Definition allDigits (ds : jsstring) : Prop := Forall (fun d => isDigit d = true) ds.

(** "zero or a non-zero-leading integer part" *)
Definition integerPart (s : jsstring) : Prop :=
  s = [48%N] \/
  exists c ds, s = c :: ds /\ isNonZeroDigit c = true /\ allDigits ds.

(** "optionally followed by '.' and 1-2 fractional digits" *)
Definition fractionPart (s : jsstring) : Prop :=
  s = [] \/
  exists ds, s = 46%N :: ds /\ (1 <= length ds <= 2)%nat /\ allDigits ds.

Definition amountGrammar (s : jsstring) : Prop :=
  exists ip fp, s = ip ++ fp /\ integerPart ip /\ fractionPart fp.

(** Positional value of a run of digits. *)
Fixpoint positional (ds : jsstring) : Z :=
  match ds with
  | [] => 0
  | d :: rest => digitValue d * 10 ^ Z.of_nat (length rest) + positional rest
  end.

(** The number a literal with integer part [ip] and fraction part [fp]
    (the dot included) denotes. *)
Definition amountValue (ip fp : jsstring) : Q :=
  match fp with
  | [] => inject_Z (positional ip)
  | _ :: ds => inject_Z (positional ip)
               + inject_Z (positional ds) / inject_Z (10 ^ Z.of_nat (length ds))
  end.

(** The number a string of decimal digits denotes. *)
Fixpoint decimalValueFrom (acc : N) (s : string) : N :=
  match s with
  | EmptyString => acc
  | String c rest => decimalValueFrom (acc * 10 + (N_of_ascii c - 48)) rest
  end.

Definition decimalValue (s : string) : N := decimalValueFrom 0 s.

(** A string of decimal digits only. *)
Fixpoint numeric (s : string) : Prop :=
  match s with
  | EmptyString => True
  | String c rest => (48 <= N_of_ascii c <= 57)%N /\ numeric rest
  end.

(** A whole number of hundredths. *)
Definition hundredths (x : Q) : Prop := exists z : Z, x == z # 100.

(** A value with exactly two decimal digits. *)
Definition twoDecimals (x : Q) : Prop := exists n : Z, x = n # 100.

(** The balance the ledger accounts for: the sum of the amounts of the
    completed entries of the account. *)
Definition ledgerSum (accountId : Z) (rows : list transactions.row) : Q :=
  fold_right Qplus 0
    (map transactions.amount
       (filter (fun t => (transactions.accountId t =? accountId)%Z
                         && String.eqb (transactions.status t) "completed")
               rows)).

End Spec.

(** A runtime for closed examples: NaN is rendered as the runtime does;
    the examples pass no finite numeric amount through it. *)
Definition exampleToString (x : JS.number) : JS.jsstring :=
  match x with
  | JS.NaN => JS.js "NaN"
  | JS.Finite _ => JS.js "0"
  end.

#[local] Instance exampleRuntime : JS.Runtime :=
  {| JS.Number_toString := exampleToString; JS.Number_toString_NaN := eq_refl |}.

(** ** Vocabulary of the properties *)

Module Ledger.
Import JS Sql Trpc Schema.

Definition fundingDescription (source : fundingTypeEnum) : string :=
  ("Funding from " ++ fundingTypeName source)%string.

(** The database after the two writes of a funding: the ledger row
    inserted, then the amount added to the balance. *)
Definition funded (accountId : Z) (amount : Q) (source : fundingTypeEnum)
    (nowIso : string) (d : database) : database :=
  addToBalance amount accountId
    (insertTransaction accountId "deposit" amount (fundingDescription source)
       "completed" nowIso nowIso d).

(** The ledger row a funding inserts. *)
Definition ledgerRow (accountId : Z) (amount : Q) (source : fundingTypeEnum)
    (processedAt createdAt : string) (d : database) : transactions.row :=
  {| transactions.id := nextRowid (map transactions.id (transactions_rows d));
     transactions.accountId := accountId;
     transactions.type := "deposit";
     transactions.amount := amount;
     transactions.description := Some (fundingDescription source);
     transactions.status := "completed";
     transactions.createdAt := Some createdAt;
     transactions.processedAt := Some processedAt |}.

(** The two account rows differ in the balance at most. *)
Definition sameButBalance (a b : accounts.row) : Prop :=
  accounts.id a = accounts.id b
  /\ accounts.userId a = accounts.userId b
  /\ accounts.accountNumber a = accounts.accountNumber b
  /\ accounts.accountType a = accounts.accountType b
  /\ accounts.status a = accounts.status b
  /\ accounts.createdAt a = accounts.createdAt b.

End Ledger.

(** ** Sample data for closed examples *)

Module Examples.
Import JS Sql Trpc Schema.

Definition alice : Z := 7.
Definition bob : Z := 8.

Definition aliceChecking (balance : Q) : accounts.row :=
  {| accounts.id := 1; accounts.userId := alice;
     accounts.accountNumber := "1000000000"; accounts.accountType := "checking";
     accounts.balance := balance; accounts.status := Some "active";
     accounts.createdAt := Some "2026-01-01 08:00:00" |}.

Definition bobSavings : accounts.row :=
  {| accounts.id := 2; accounts.userId := bob;
     accounts.accountNumber := "2000000000"; accounts.accountType := "savings";
     accounts.balance := 0; accounts.status := Some "active";
     accounts.createdAt := Some "2026-01-01 08:30:00" |}.

Definition someUsers : list users.row :=
  [ {| users.id := alice; users.email := "alice@example.com" |};
    {| users.id := bob; users.email := "bob@example.com" |} ].

Definition someSessions : list sessions.row :=
  [ {| sessions.id := 1; sessions.userId := alice; sessions.token := "t-alice";
       sessions.expiresAt := "2026-01-08T00:00:00.000Z" |} ].

(** No accounts yet. *)
Definition fresh : database :=
  {| users_rows := someUsers; accounts_rows := [];
     transactions_rows := []; sessions_rows := someSessions |}.

(** Alice and Bob hold one account each; the ledger is empty. *)
Definition opened : database :=
  {| users_rows := someUsers; accounts_rows := [aliceChecking 0; bobSavings];
     transactions_rows := []; sessions_rows := someSessions |}.

(** A deposit of 5.00 into Alice's account, stamped [createdAt]. *)
Definition earlierDeposit (createdAt : string) : transactions.row :=
  {| transactions.id := 1; transactions.accountId := 1;
     transactions.type := "deposit"; transactions.amount := 500 # 100;
     transactions.description := Some "Funding from card";
     transactions.status := "completed";
     transactions.createdAt := Some createdAt;
     transactions.processedAt := Some createdAt |}.

(** Alice's account after that deposit. *)
Definition deposited (createdAt : string) : database :=
  {| users_rows := someUsers; accounts_rows := [aliceChecking (500 # 100); bobSavings];
     transactions_rows := [earlierDeposit createdAt]; sessions_rows := someSessions |}.

Definition cardSource : fundingSourceT :=
  {| type := card; accountNumber := js "4111111111111111"; routingNumber := None |}.

Definition bankWithoutRouting : fundingSourceT :=
  {| type := bank; accountNumber := js "000123456789"; routingNumber := None |}.

(** A funding request for account [accountId] with a textual amount. *)
Definition request (accountId : Z) (amount : string) (source : fundingSourceT)
  : rawFundInput :=
  {| rawAccountId := accountId; rawAmount := VString (js amount);
     rawFundingSource := source |}.

(** The same with a numeric amount. *)
Definition numericRequest (accountId : Z) (amount : Q) (source : fundingSourceT)
  : rawFundInput :=
  {| rawAccountId := accountId; rawAmount := VNumber (Finite amount);
     rawFundingSource := source |}.

Definition zeroBytes : list Byte.byte :=
  [Byte.x00; Byte.x00; Byte.x00; Byte.x00; Byte.x00].
Definition oneBytes : list Byte.byte :=
  [Byte.x00; Byte.x00; Byte.x00; Byte.x00; Byte.x01].

(** The oracle that refuses the statement numbered [k] and no other. *)
Definition failAt (k : nat) : oracle := fun n => Nat.eqb n k.

End Examples.

(** ** What a caller without the account gets *)

Module Guard.
Import JS Sql Trpc Schema.

Section WithRuntime.
Context `{Runtime}.

(** The failure of [fundAccount] when the guard finds no account: it
    depends on the request and on the oracle only. *)
Definition unguardedFunding (fl : oracle) (raw : rawFundInput) : failure :=
  match Router.fundAccountSchema raw with
  | inl issues => ZodError issues
  | inr input =>
      match amount input with
      | NaN => amountTooSmall
      | Finite a =>
          if negb (Qle_bool (1 # 100) a) then amountTooSmall
          else if fl 0%nat then TRPCError INTERNAL_SERVER_ERROR "SqliteError"
          else accountNotFound
      end
  end.
End WithRuntime.

(** The failure of [getTransactions] when the guard finds no account. *)
Definition unguardedListing (fl : oracle) : failure :=
  if fl 0%nat then TRPCError INTERNAL_SERVER_ERROR "SqliteError" else accountNotFound.

End Guard.

(** ** The core operations, as a caller issues them *)

Module Core.
Import JS Sql Trpc Schema.

Inductive operation :=
| CreateAccount (userId : Z) (accountType : accountTypeEnum)
    (draws : list (list Byte.byte)) (currentTimestamp : string)
| ListAccounts (userId : Z)
| FundAccount (userId : Z) (nowIso : string) (raw : rawFundInput)
| ListTransactions (userId : Z) (accountId : Z).

Definition isFunding (op : operation) : bool :=
  match op with
  | FundAccount _ _ _ => true
  | _ => false
  end.

Section WithRuntime.
Context `{Runtime}.

(** The database an operation leaves behind, under the oracle that rules
    its statements. *)
Definition perform (step : oracle * operation) (d : database) : database :=
  match snd step with
  | CreateAccount userId accountType draws currentTimestamp =>
      snd (call (Router.createAccount userId accountType draws currentTimestamp)
                (fst step) d)
  | ListAccounts userId => snd (call (Router.getAccounts userId) (fst step) d)
  | FundAccount userId nowIso raw =>
      snd (call (Router.fundAccount userId nowIso raw) (fst step) d)
  | ListTransactions userId accountId =>
      snd (call (Router.getTransactions userId accountId) (fst step) d)
  end.

(** A sequence of operations, one after the other. *)
Definition performAll (steps : list (oracle * operation)) (d : database) : database :=
  fold_left (fun d step => perform step d) steps d.

End WithRuntime.

(** A ledger entry as [getTransactions] returns it for an account of the
    given type. *)
Definition enrichWith (accountType : option string) (t : transactions.row) : enriched :=
  {| entry := t; accountType := accountType |}.

(** The second database has the ledger of the first and its accounts,
    possibly followed by further accounts. *)
Definition grown (d d' : database) : Prop :=
  transactions_rows d' = transactions_rows d
  /\ exists extra, accounts_rows d' = accounts_rows d ++ extra.

(** The database [d] is [d0] after [k] fundings of account X, of balance B
    in [d0], with amount A each. *)
Definition afterFundings (X : Z) (A B : Q) (d0 : database) (k : nat) (d : database)
  : Prop :=
  (exists b, selectBalance X d = Some b /\ b == B + inject_Z (Z.of_nat k) * A)
  /\ exists entries,
       transactions_rows d = transactions_rows d0 ++ entries
       /\ Concurrent.fundingEntries X A k entries.

(** The draw yields the number of an account that exists. *)
Definition collides (d : database) (buffer : list Byte.byte) : Prop :=
  selectAccountByNumber (Router.generateAccountNumber buffer) d <> None.

(** The account row a successful [createAccount] inserts. *)
Definition openedAccount (userId : Z) (accountType : accountTypeEnum) (number : string)
    (currentTimestamp : string) (d : database) : accounts.row :=
  {| accounts.id := nextRowid (map accounts.id (accounts_rows d));
     accounts.userId := userId;
     accounts.accountNumber := number;
     accounts.accountType := accountTypeName accountType;
     accounts.balance := 0;
     accounts.status := Some "active";
     accounts.createdAt := Some currentTimestamp |}.

(** The store before any account is opened. *)
Definition noAccounts (d : database) : Prop :=
  accounts_rows d = [] /\ transactions_rows d = [].

(** Every balance is the sum of the account's completed ledger entries. *)
Definition balanced (d : database) : Prop :=
  forall a, In a (accounts_rows d) ->
            accounts.balance a == Spec.ledgerSum (accounts.id a) (transactions_rows d).

(** What the operations maintain along with it: ledger amounts have two
    decimals, and ledger entries refer to accounts of the store. *)
Definition consistent (d : database) : Prop :=
  balanced d
  /\ Forall (fun t => Spec.twoDecimals (transactions.amount t)) (transactions_rows d)
  /\ Forall (fun t => In (transactions.accountId t) (map accounts.id (accounts_rows d)))
            (transactions_rows d).

End Core.

(** ** Keys and balances of the accounts table *)

Module Integrity.
Import Sql Schema.

(** The user and the type an account row is opened for. *)
Definition holding (a : accounts.row) : Z * string :=
  (accounts.userId a, accounts.accountType a).

(** Account ids are unique, account numbers are unique, and no user holds
    two accounts of one type. *)
Definition wellKeyed (d : database) : Prop :=
  NoDup (map accounts.id (accounts_rows d))
  /\ NoDup (map accounts.accountNumber (accounts_rows d))
  /\ NoDup (map holding (accounts_rows d)).

Definition allActive (d : database) : Prop :=
  Forall (fun a => isActive (accounts.status a) = true) (accounts_rows d).

(** The accounts of [d] are still in [d'], in place and the same but for
    a balance that is no lower; [d'] may hold further accounts. *)
Definition noBalanceLower (d d' : database) : Prop :=
  exists kept extra,
    accounts_rows d' = kept ++ extra
    /\ Forall2 (fun r r' => Ledger.sameButBalance r r'
                            /\ accounts.balance r <= accounts.balance r')
               (accounts_rows d) kept.

(** The failure of [createAccount] for a user who has an account of the
    type already. *)
Definition duplicateType (ty : accountTypeEnum) : Trpc.failure :=
  Trpc.TRPCError Trpc.CONFLICT
    ("You already have a " ++ accountTypeName ty ++ " account")%string.

End Integrity.

(** ** Further sample data *)

Module Samples.
Import JS Sql Trpc Schema.

(** Alice's checking account with a status set by hand; the router
    itself writes no status but active. *)
Definition frozenChecking : accounts.row :=
  {| accounts.id := 1; accounts.userId := Examples.alice;
     accounts.accountNumber := "1000000000"; accounts.accountType := "checking";
     accounts.balance := 0; accounts.status := Some "frozen";
     accounts.createdAt := Some "2026-01-01 08:00:00" |}.

Definition frozen : database :=
  {| users_rows := Examples.someUsers;
     accounts_rows := [frozenChecking; Examples.bobSavings];
     transactions_rows := []; sessions_rows := Examples.someSessions |}.

Definition tenAM : string := "2026-01-02T10:00:00.000Z".

End Samples.

(* ================================================================== *)
(** * Part I, continued: sessions and sign-in *)
(* ================================================================== *)

(** The request context ([server/trpc.ts]), the auth router
    ([server/routers/auth.ts]) and the maintenance scripts work on the
    users and sessions tables.  Conventions of this part.
    - Header values, tokens, emails and the other texts are byte strings
      ([string]), one byte per character: the texts are taken to be ASCII.
    - Statements are taken to succeed, except where a UNIQUE constraint
      refuses an insert; the handlers are functions from the store to a
      result and a store.
    - Time is in milliseconds since the epoch ([Z]); a number that may be
      NaN is an [option Z].
    - jsonwebtoken, bcryptjs, the SSN helpers of lib/crypto/ssn, zod's
      email check and [Date] are parameters ([Platform]); nothing is
      assumed of them beyond being functions. *)

(** ** String operations *)

Module Text.

(** [Boolean(s)] for a string. *)
Definition truthy (s : string) : bool :=
  match s with
  | EmptyString => false
  | _ => true
  end.

(** The character occurs in the string. *)
Fixpoint mentions (c : ascii) (s : string) : bool :=
  match s with
  | EmptyString => false
  | String x rest => Ascii.eqb x c || mentions c rest
  end.

(** [s.split(sep)] for a non-empty separator, scanning from the left:
    [cur] is the piece under way, [skip] the number of characters of a
    separator just recognised that are still to be passed over. *)
Fixpoint splitFrom (sep : string) (skip : nat) (cur : string) (s : string)
  : list string :=
  match s with
  | EmptyString => [cur]
  | String c rest =>
      match skip with
      | S k => splitFrom sep k cur rest
      | O =>
          if String.prefix sep s
          then cur :: splitFrom sep (String.length sep - 1) EmptyString rest
          else splitFrom sep 0 (cur ++ String c EmptyString) rest
      end
  end.

Definition split (sep : string) (s : string) : list string :=
  splitFrom sep 0 EmptyString s.

(** [parts.join(sep)] *)
Definition join (sep : string) (parts : list string) : string :=
  String.concat sep parts.

(** [s.startsWith(p)] *)
Definition startsWith (p s : string) : bool := String.prefix p s.

Definition lowerChar (c : ascii) : ascii :=
  let n := nat_of_ascii c in
  if (65 <=? n)%nat && (n <=? 90)%nat then ascii_of_nat (n + 32) else c.

Definition upperChar (c : ascii) : ascii :=
  let n := nat_of_ascii c in
  if (97 <=? n)%nat && (n <=? 122)%nat then ascii_of_nat (n - 32) else c.

Fixpoint mapChars (f : ascii -> ascii) (s : string) : string :=
  match s with
  | EmptyString => EmptyString
  | String c rest => String (f c) (mapChars f rest)
  end.

(** [s.toLowerCase()] and [s.toUpperCase()] on ASCII text. *)
Definition toLowerCase (s : string) : string := mapChars lowerChar s.
Definition toUpperCase (s : string) : string := mapChars upperChar s.

End Text.

(** ** Cookies *)

Module Cookies.
Import Text.

(** One element of the cookie header, cut at its first equals sign:
    [const [key, ...val] = c.split("="); return [key, val.join("=")]]. *)
Definition entry (c : string) : string * string :=
  match split "=" c with
  | key :: val => (key, join "=" val)
  | [] => (EmptyString, EmptyString)
  end.

(** The entries of a cookie header, as [createContext] reads them. *)
Definition entries (cookieHeader : string) : list (string * string) :=
  map entry (filter truthy (split "; " cookieHeader)).

(** [Object.fromEntries(entries)[key]]: the value of the last entry
    with the key. *)
Definition fromEntries (key : string) (l : list (string * string)) : option string :=
  fold_left (fun found kv => if String.eqb (fst kv) key then Some (snd kv) else found)
            l None.

(** [cookiesObj.session] *)
Definition sessionOf (cookieHeader : string) : option string :=
  fromEntries "session" (entries cookieHeader).

(** The token as [logout] reads it from the header: the first element
    that starts with the session key, cut at equals signs, second piece. *)
Definition logoutSessionOf (cookieHeader : string) : option string :=
  match find (startsWith "session=") (split "; " cookieHeader) with
  | Some c => nth_error (split "=" c) 1
  | None => None
  end.

(** A cookie header as a client writes it. *)
Definition pair (kv : string * string) : string :=
  (fst kv ++ "=" ++ snd kv)%string.

Definition header (pairs : list (string * string)) : string :=
  join "; " (map pair pairs).

(** Names and values a client may send: no semicolon in either, no
    equals sign in a name. *)
Definition wellFormed (kv : string * string) : Prop :=
  mentions ";" (fst kv) = false
  /\ mentions "=" (fst kv) = false
  /\ mentions ";" (snd kv) = false.

End Cookies.

(** ** The users table, all columns *)

Module usersTable.

(** The columns that are carried along and never inspected. *)
Record profile := {
  firstName : string;
  lastName : string;
  phoneNumber : string;
  dateOfBirth : string;
  address : string;
  city : string;
  state : string;
  zipCode : string
}.

Record row := {
  id : Z;
  email : string;
  password : string;
  ssnHash : option string;
  ssnLast4 : option string;
  details : profile
}.

End usersTable.

(** ** Context and auth router *)

Module Identity.
Import Text Trpc.

Class Platform := {
  (** [jwt.sign({ userId }, secret, { expiresIn: "7d" })] at a clock reading *)
  jwt_sign : Z -> Z -> string;
  (** [jwt.verify(token, secret).userId] at a clock reading; [None] when it throws *)
  jwt_verify : string -> Z -> option Z;
  (** [bcrypt.hash(password, 10)] with the salt drawn *)
  bcrypt_hash : string -> string -> string;
  (** [bcrypt.compare(password, hash)] *)
  bcrypt_compare : string -> string -> bool;
  ssnLookupHash : string -> string;
  ssnLast4 : string -> string;
  (** [new Date(text).getTime()]; [None] for NaN *)
  Date_getTime : string -> option Z;
  (** zod's [.email()] *)
  isEmail : string -> bool;
  (** the refinements of the date of birth, at a clock reading *)
  dateOfBirthAccepted : string -> Z -> bool
}.

Record store := {
  users_table : list usersTable.row;
  sessions_table : list sessions.row
}.

Definition withSessions (rows : list sessions.row) (s : store) : store :=
  {| users_table := users_table s; sessions_table := rows |}.

Definition withUsers (rows : list usersTable.row) (s : store) : store :=
  {| users_table := rows; sessions_table := sessions_table s |}.

(** [... FROM sessions WHERE token = ?], first row. *)
Definition selectSessionByToken (token : string) (s : store) : option sessions.row :=
  find (fun r => String.eqb (sessions.token r) token) (sessions_table s).

(** [DELETE FROM sessions WHERE token = ?] *)
Definition deleteSessionsByToken (token : string) (s : store) : store :=
  withSessions
    (filter (fun r => negb (String.eqb (sessions.token r) token)) (sessions_table s)) s.

(** [... FROM users WHERE id = ?], first row. *)
Definition selectUserById (userId : Z) (s : store) : option usersTable.row :=
  find (fun u => (usersTable.id u =? userId)%Z) (users_table s).

(** [... FROM users WHERE email = ?], first row. *)
Definition selectUserByEmail (email : string) (s : store) : option usersTable.row :=
  find (fun u => String.eqb (usersTable.email u) email) (users_table s).

(** [... FROM users WHERE ssn_hash = ?], first row. *)
Definition selectUserBySsnHash (hash : string) (s : store) : option usersTable.row :=
  find (fun u => match usersTable.ssnHash u with
                 | Some h => String.eqb h hash
                 | None => false
                 end)
       (users_table s).

(** [INSERT INTO sessions ...]; the token column is UNIQUE. *)
Definition insertSession (userId : Z) (token expiresAt : string) (s : store)
  : option store :=
  match selectSessionByToken token s with
  | Some _ => None
  | None =>
      Some (withSessions
              (sessions_table s ++
               [ {| sessions.id := Sql.nextRowid (map sessions.id (sessions_table s));
                    sessions.userId := userId;
                    sessions.token := token;
                    sessions.expiresAt := expiresAt |} ])
              s)
  end.

(** [INSERT INTO users ...]; the email column is UNIQUE. *)
Definition insertUser (email password : string) (ssnHash ssnLast4 : string)
    (details : usersTable.profile) (s : store) : option store :=
  match selectUserByEmail email s with
  | Some _ => None
  | None =>
      Some (withUsers
              (users_table s ++
               [ {| usersTable.id := Sql.nextRowid (map usersTable.id (users_table s));
                    usersTable.email := email;
                    usersTable.password := password;
                    usersTable.ssnHash := Some ssnHash;
                    usersTable.ssnLast4 := Some ssnLast4;
                    usersTable.details := details |} ])
              s)
  end.

(** *** The request and its context ([server/trpc.ts]) *)

(** What the code reads of a request: [req.headers.cookie],
    [req.headers.get] (absent, or what it answers for the cookie header),
    and [req.cookies] (absent, or its session entry). *)
Record request := {
  headersCookie : option string;
  headersGet : option (option string);
  cookies : option (option string)
}.

Record context := {
  user : option usersTable.row;
  req : request
}.

(** [a || b] on optional strings. *)
Definition orElse (a : option string) (b : option string) : option string :=
  match a with
  | Some x => if truthy x then Some x else b
  | None => b
  end.

(** The cookie header [createContext] works on: [req.headers.cookie]
    when there is one and it is not empty, else what [req.headers.get]
    answers, else the empty string. *)
Definition cookieHeader (r : request) : string :=
  match orElse (headersCookie r)
               (match headersGet r with
                | Some answer => orElse answer (Some EmptyString)
                | None => None
                end) with
  | Some c => c
  | None => EmptyString
  end.

(** [x <= y] on numbers that may be NaN. *)
Definition lessEq (x y : option Z) : bool :=
  match x, y with
  | Some a, Some b => (a <=? b)%Z
  | _, _ => false
  end.

(** The default of SESSION_EXPIRY_SAFETY_MS. *)
Definition defaultSafetyMs : option Z := Some 30000%Z.

Definition anonymous (r : request) : context := {| user := None; req := r |}.

Section WithPlatform.
Context `{Platform}.

(** [createContext]: [safetyMs] is the value of SESSION_EXPIRY_SAFETY_MS
    as a number, [nowMs] the clock. *)
Definition createContext (safetyMs : option Z) (nowMs : Z) (r : request) (s : store)
  : context * store :=
  match Cookies.sessionOf (cookieHeader r) with
  | None => (anonymous r, s)
  | Some token =>
      if negb (truthy token) then (anonymous r, s)
      else
        match jwt_verify token nowMs with
        | None => (anonymous r, s)
        | Some userId =>
            match selectSessionByToken token s with
            | None => (anonymous r, s)
            | Some session =>
                let expiresAtMs := Date_getTime (sessions.expiresAt session) in
                let expiresInMs := option_map (fun e => e - nowMs)%Z expiresAtMs in
                if lessEq expiresInMs safetyMs
                then (anonymous r, deleteSessionsByToken token s)
                else ({| user := selectUserById userId s; req := r |}, s)
            end
        end
  end.

End WithPlatform.

Definition unauthorized : failure := TRPCError UNAUTHORIZED "UNAUTHORIZED".

(** [protectedProcedure]: the procedure runs for a context with a user
    only. *)
Definition protectedProcedure {A} (ctx : context) (next : usersTable.row -> task A)
  : task A :=
  match user ctx with
  | None => Throw (Fail unauthorized)
  | Some u => next u
  end.

(** *** The auth router ([server/routers/auth.ts]) *)

Record signupInput := {
  email : string;
  password : string;
  ssn : string;
  rest : usersTable.profile
}.

Record loginInput := {
  loginEmail : string;
  loginPassword : string
}.

(** [{ ...user, password: undefined }] *)
Record returnedUser := {
  returnedId : Z;
  returnedEmail : string;
  returnedSsnHash : option string;
  returnedSsnLast4 : option string;
  returnedDetails : usersTable.profile
}.

Definition withoutPassword (u : usersTable.row) : returnedUser :=
  {| returnedId := usersTable.id u;
     returnedEmail := usersTable.email u;
     returnedSsnHash := usersTable.ssnHash u;
     returnedSsnLast4 := usersTable.ssnLast4 u;
     returnedDetails := usersTable.details u |}.

(** What signup and login hand back, and the Set-Cookie header they
    set. *)
Record signedIn := {
  signedInUser : returnedUser;
  token : string;
  setCookie : string
}.

Record loggedOut := {
  success : bool;
  message : string;
  clearCookie : string
}.

Definition sessionCookie (token : string) : string :=
  ("session=" ++ token ++ "; Path=/; HttpOnly; SameSite=Strict; Max-Age=604800")%string.

Definition clearedCookie : string :=
  "session=; Path=/; HttpOnly; SameSite=Strict; Max-Age=0".

Definition emailTaken : failure :=
  TRPCError CONFLICT "User already exists with that email".
Definition ssnTaken : failure :=
  TRPCError CONFLICT "An account with that Social Security Number already exists".
Definition invalidCredentials : failure :=
  TRPCError UNAUTHORIZED "Invalid credentials".
Definition tokenNotUnique : failure :=
  TRPCError INTERNAL_SERVER_ERROR "UNIQUE constraint failed: sessions.token".
Definition emailNotUnique : failure :=
  TRPCError INTERNAL_SERVER_ERROR "UNIQUE constraint failed: users.email".

(** A digit, as the patterns of the schema have it. *)
Definition isDigitChar (c : ascii) : bool :=
  let n := nat_of_ascii c in (48 <=? n)%nat && (n <=? 57)%nat.
Definition isUpperChar (c : ascii) : bool :=
  let n := nat_of_ascii c in (65 <=? n)%nat && (n <=? 90)%nat.
Definition isLowerChar (c : ascii) : bool :=
  let n := nat_of_ascii c in (97 <=? n)%nat && (n <=? 122)%nat.

Fixpoint anyChar (p : ascii -> bool) (s : string) : bool :=
  match s with
  | EmptyString => false
  | String c rest => p c || anyChar p rest
  end.

Fixpoint allChars (p : ascii -> bool) (s : string) : bool :=
  match s with
  | EmptyString => true
  | String c rest => p c && allChars p rest
  end.

(** The password rules of signup. *)
Definition passwordAccepted (p : string) : bool :=
  (8 <=? String.length p)%nat
  && anyChar isUpperChar p && anyChar isLowerChar p && anyChar isDigitChar p
  && anyChar (fun c => negb (isUpperChar c || isLowerChar c || isDigitChar c)) p.

(** An optional plus sign, then ten to fifteen digits. *)
Definition phoneAccepted (p : string) : bool :=
  let digits := match p with
                | String "+" rest => rest
                | _ => p
                end in
  allChars isDigitChar digits
  && (10 <=? String.length digits)%nat && (String.length digits <=? 15)%nat.

Definition digitsOfLength (n : nat) (s : string) : bool :=
  allChars isDigitChar s && (String.length s =? n)%nat.

(** The request of signup as it arrives. *)
Record signupRequest := {
  rawEmail : string;
  rawPassword : string;
  rawSsn : string;
  rawDetails : usersTable.profile
}.

Section WithPlatform.
Context `{Platform}.

(** The input schema of signup: the checks, then the two transforms
    (email to lower case, state to upper case).  [None] stands for a
    rejection with the issues of the schema. *)
Definition signupSchema (nowMs : Z) (raw : signupRequest) : option signupInput :=
  let d := rawDetails raw in
  if isEmail (rawEmail raw)
     && passwordAccepted (rawPassword raw)
     && truthy (usersTable.firstName d) && truthy (usersTable.lastName d)
     && phoneAccepted (usersTable.phoneNumber d)
     && dateOfBirthAccepted (usersTable.dateOfBirth d) nowMs
     && digitsOfLength 9 (rawSsn raw)
     && truthy (usersTable.address d) && truthy (usersTable.city d)
     && (String.length (usersTable.state d) =? 2)%nat
     && digitsOfLength 5 (usersTable.zipCode d)
  then Some {| email := toLowerCase (rawEmail raw);
               password := rawPassword raw;
               ssn := rawSsn raw;
               rest := {| usersTable.firstName := usersTable.firstName d;
                          usersTable.lastName := usersTable.lastName d;
                          usersTable.phoneNumber := usersTable.phoneNumber d;
                          usersTable.dateOfBirth := usersTable.dateOfBirth d;
                          usersTable.address := usersTable.address d;
                          usersTable.city := usersTable.city d;
                          usersTable.state := toUpperCase (usersTable.state d);
                          usersTable.zipCode := usersTable.zipCode d |} |}
  else None.

(** The input schema of login: the email must be one, and is taken as
    it is. *)
Definition loginSchema (raw : loginInput) : option loginInput :=
  if isEmail (loginEmail raw) then Some raw else None.

(** The session both signup and login create for a user: the token
    signed at [nowMs], expiring at [expiresAt] (the ISO text of the date
    seven days ahead). *)
Definition openSession (u : usersTable.row) (nowMs : Z) (expiresAt : string) (s : store)
  : (failure + signedIn) * store :=
  let token := jwt_sign (usersTable.id u) nowMs in
  match insertSession (usersTable.id u) token expiresAt s with
  | None => (inl tokenNotUnique, s)
  | Some s' =>
      (inr {| signedInUser := withoutPassword u; token := token;
              setCookie := sessionCookie token |}, s')
  end.

Definition signup (salt : string) (nowMs : Z) (expiresAt : string)
    (input : signupInput) (s : store) : (failure + signedIn) * store :=
  let ssn_hash := ssnLookupHash (ssn input) in
  let ssn_last4 := ssnLast4 (ssn input) in
  match selectUserByEmail (email input) s with
  | Some _ => (inl emailTaken, s)
  | None =>
      match selectUserBySsnHash ssn_hash s with
      | Some _ => (inl ssnTaken, s)
      | None =>
          let hashedPassword := bcrypt_hash (password input) salt in
          match insertUser (email input) hashedPassword ssn_hash ssn_last4
                           (rest input) s with
          | None => (inl emailNotUnique, s)
          | Some s1 =>
              match selectUserByEmail (email input) s1 with
              | None =>
                  (inl (TRPCError INTERNAL_SERVER_ERROR "Failed to create user"), s1)
              | Some u => openSession u nowMs expiresAt s1
              end
          end
      end
  end.

Definition login (nowMs : Z) (expiresAt : string) (input : loginInput) (s : store)
  : (failure + signedIn) * store :=
  match selectUserByEmail (loginEmail input) s with
  | None => (inl invalidCredentials, s)
  | Some u =>
      if negb (bcrypt_compare (loginPassword input) (usersTable.password u))
      then (inl invalidCredentials, s)
      else openSession u nowMs expiresAt s
  end.

End WithPlatform.

(** The token [logout] deletes by. *)
Definition logoutToken (r : request) : option string :=
  match cookies r with
  | Some session => session
  | None =>
      let fromGet := match headersGet r with
                     | Some answer => answer
                     | None => None
                     end in
      match orElse fromGet (headersCookie r) with
      | Some cookieHeader => Cookies.logoutSessionOf cookieHeader
      | None => None
      end
  end.

Definition logout (ctx : context) (s : store) : loggedOut * store :=
  match user ctx with
  | Some _ =>
      ({| success := true; message := "Logged out successfully";
          clearCookie := clearedCookie |},
       match logoutToken (req ctx) with
       | Some token => if truthy token then deleteSessionsByToken token s else s
       | None => s
       end)
  | None =>
      ({| success := true; message := "No active session";
          clearCookie := clearedCookie |}, s)
  end.

End Identity.

(** ** The account router behind [protectedProcedure] *)

Module Procedures.
Import Trpc Schema Identity.

Section WithRuntime.
Context `{JS.Runtime}.

Definition createAccount (ctx : context) (accountType : accountTypeEnum)
    (draws : list (list Byte.byte)) (currentTimestamp : string)
  : task (option accounts.row) :=
  protectedProcedure ctx (fun u =>
    Router.createAccount (usersTable.id u) accountType draws currentTimestamp).

Definition getAccounts (ctx : context) : task (list accounts.row) :=
  protectedProcedure ctx (fun u => Router.getAccounts (usersTable.id u)).

Definition fundAccount (ctx : context) (nowIso : string) (raw : rawFundInput)
  : task fundResult :=
  protectedProcedure ctx (fun u => Router.fundAccount (usersTable.id u) nowIso raw).

Definition getTransactions (ctx : context) (accountId : Z) : task (list enriched) :=
  protectedProcedure ctx (fun u => Router.getTransactions (usersTable.id u) accountId).

End WithRuntime.
End Procedures.

(** ** Requests to the auth router, one after the other *)

Module Visits.
Import Text Identity.

Inductive procedure :=
| Signup (salt expiresAt : string) (raw : signupRequest)
| Login (expiresAt : string) (raw : loginInput)
| Logout
| Other.

(** A request: where it comes from, the safety window and the clock at
    the time, and the procedure it calls. *)
Record visit := {
  from : request;
  safetyMs : option Z;
  nowMs : Z;
  calls : procedure
}.

Section WithPlatform.
Context `{Platform}.

(** The store a request leaves behind: the context is created first,
    then the procedure runs. *)
Definition perform (v : visit) (s : store) : store :=
  let (ctx, s1) := createContext (safetyMs v) (nowMs v) (from v) s in
  match calls v with
  | Signup salt expiresAt raw =>
      match signupSchema (nowMs v) raw with
      | Some input => snd (signup salt (nowMs v) expiresAt input s1)
      | None => s1
      end
  | Login expiresAt raw =>
      match loginSchema raw with
      | Some input => snd (login (nowMs v) expiresAt input s1)
      | None => s1
      end
  | Logout => snd (logout ctx s1)
  | Other => s1
  end.

Definition performAll (visits : list visit) (s : store) : store :=
  fold_left (fun s v => perform v s) visits s.

End WithPlatform.

(** The SSN hashes on file. *)
Definition ssnHashes (s : store) : list string :=
  flat_map (fun u => match usersTable.ssnHash u with
                     | Some h => [h]
                     | None => []
                     end)
           (users_table s).

(** User ids, emails and SSN hashes are unique, emails are in lower
    case; session ids and tokens are unique, and every session belongs to
    a user on file. *)
Definition sound (s : store) : Prop :=
  NoDup (map usersTable.id (users_table s))
  /\ NoDup (map usersTable.email (users_table s))
  /\ NoDup (ssnHashes s)
  /\ Forall (fun u => toLowerCase (usersTable.email u) = usersTable.email u)
            (users_table s)
  /\ NoDup (map sessions.id (sessions_table s))
  /\ NoDup (map sessions.token (sessions_table s))
  /\ Forall (fun r => In (sessions.userId r) (map usersTable.id (users_table s)))
            (sessions_table s).

End Visits.

(** ** A platform for closed examples *)

Module Demo.
Import Text Identity.

(** Tokens spell out what they sign. *)
Definition sign (userId nowMs : Z) : string :=
  ("jwt." ++ Router.toString (Z.to_N userId) ++ "." ++ Router.toString (Z.to_N nowMs))%string.

Definition verify (token : string) (nowMs : Z) : option Z :=
  match split "." token with
  | [ "jwt"; userId; _ ] => Some (Z.of_N (Spec.decimalValue userId))
  | _ => None
  end.

Definition hash (password salt : string) : string :=
  (salt ++ "$" ++ password)%string.

Definition compare (password hashed : string) : bool :=
  match split "$" hashed with
  | [ _; p ] => String.eqb p password
  | _ => false
  end.

Definition getTime (text : string) : option Z :=
  if String.eqb text "2026-01-09T10:00:00.000Z" then Some 1767952800000%Z
  else if String.eqb text "2026-01-02T10:00:20.000Z" then Some 1767348020000%Z
  else None.

#[local] Instance platform : Platform :=
  {| jwt_sign := sign;
     jwt_verify := verify;
     bcrypt_hash := hash;
     bcrypt_compare := compare;
     ssnLookupHash := fun ssn => ("h:" ++ ssn)%string;
     ssnLast4 := fun ssn => String.substring 5 4 ssn;
     Date_getTime := getTime;
     isEmail := mentions "@";
     dateOfBirthAccepted := fun _ _ => true |}.

(** 2026-01-02T10:00:00.000Z *)
Definition tenAM : Z := 1767348000000.

Definition carol : usersTable.row :=
  {| usersTable.id := 7; usersTable.email := "carol@example.com";
     usersTable.password := hash "Secret#123" "salt1";
     usersTable.ssnHash := Some "h:123456789"; usersTable.ssnLast4 := Some "6789";
     usersTable.details :=
       {| usersTable.firstName := "Carol"; usersTable.lastName := "Jones";
          usersTable.phoneNumber := "5551234567";
          usersTable.dateOfBirth := "1990-01-01";
          usersTable.address := "1 Main St"; usersTable.city := "Springfield";
          usersTable.state := "IL"; usersTable.zipCode := "62701" |} |}.

(** Carol's session, good for a week. *)
Definition carolSession : sessions.row :=
  {| sessions.id := 1; sessions.userId := 7; sessions.token := sign 7 tenAM;
     sessions.expiresAt := "2026-01-09T10:00:00.000Z" |}.

(** A session of hers that ends twenty seconds after ten. *)
Definition endingSession : sessions.row :=
  {| sessions.id := 2; sessions.userId := 7; sessions.token := sign 7 0;
     sessions.expiresAt := "2026-01-02T10:00:20.000Z" |}.

Definition members : store :=
  {| users_table := [carol]; sessions_table := [carolSession; endingSession] |}.

Definition nobody : store := {| users_table := []; sessions_table := [] |}.

(** A fetch request with the given cookie header. *)
Definition fetchRequest (cookieHeader : string) : request :=
  {| headersCookie := None; headersGet := Some (Some cookieHeader); cookies := None |}.

Definition dave : signupRequest :=
  {| rawEmail := "Dave@Example.com"; rawPassword := "Passw0rd!";
     rawSsn := "987654321";
     rawDetails :=
       {| usersTable.firstName := "Dave"; usersTable.lastName := "Smith";
          usersTable.phoneNumber := "+15557654321";
          usersTable.dateOfBirth := "1985-05-05";
          usersTable.address := "2 Oak Ave"; usersTable.city := "Portland";
          usersTable.state := "or"; usersTable.zipCode := "97201" |} |}.

End Demo.

(** ** The maintenance scripts *)

(** [scripts/clear-sessions.js], the script that lists the sessions and
    clears the expired ones, the transaction benchmark and the helpers of
    [scripts/generate-and-fund.js].  They open the database file themselves
    and run their statements one after the other; the statements are taken
    to succeed. *)

Module Scripts.
Import Text Sql Identity.

(** A session with the email of its user, as the listings select it
    ([sessions s LEFT JOIN users u ON s.user_id = u.id]). *)
Record listed := {
  session : sessions.row;
  userEmail : option string
}.

Definition joinUser (s : store) (r : sessions.row) : listed :=
  {| session := r;
     userEmail := option_map usersTable.email (selectUserById (sessions.userId r) s) |}.

(** [ORDER BY expires_at ASC]: bytewise order of the text, rows with
    equal keys in rowid order. *)
Fixpoint insertByExpiry (x : sessions.row) (l : list sessions.row) : list sessions.row :=
  match l with
  | [] => [x]
  | y :: rest =>
      if String.ltb (sessions.expiresAt y) (sessions.expiresAt x)
      then y :: insertByExpiry x rest
      else x :: l
  end.

Definition orderByExpiry (l : list sessions.row) : list sessions.row :=
  fold_right insertByExpiry [] l.

(** The first session does not expire after the second. *)
Definition notAfter (a b : sessions.row) : Prop :=
  String.ltb (sessions.expiresAt b) (sessions.expiresAt a) = false.

(** The listing of the sessions a condition selects. *)
Definition listWhere (p : sessions.row -> bool) (s : store) : list listed :=
  map (joinUser s) (orderByExpiry (filter p (sessions_table s))).

(** [DELETE FROM sessions WHERE ...] *)
Definition deleteWhere (p : sessions.row -> bool) (s : store) : store :=
  withSessions (filter (fun r => negb (p r)) (sessions_table s)) s.

Definition expiresBefore (t : string) (r : sessions.row) : bool :=
  String.ltb (sessions.expiresAt r) t.
Definition expiresAfter (t : string) (r : sessions.row) : bool :=
  String.ltb t (sessions.expiresAt r).
Definition ofUser (userId : Z) (r : sessions.row) : bool :=
  (sessions.userId r =? userId)%Z.
Definition every (r : sessions.row) : bool := true.

(** *** Listing the sessions and clearing the expired ones *)

Definition listSessions (s : store) : list listed := listWhere every s.

(** [clearExpired], at the clock reading [now] (ISO text): the number of
    sessions it deleted, and the store. *)
Definition clearExpired (now : string) (s : store) : nat * store :=
  let expired := length (filter (expiresBefore now) (sessions_table s)) in
  if (expired =? 0)%nat then (0%nat, s)
  else (expired, deleteWhere (expiresBefore now) s).

(** *** [scripts/clear-sessions.js] *)

Record options := {
  all : bool;
  email : option string;
  before : option string;
  after : option string;
  dry : bool
}.

Definition noOptions : options :=
  {| all := false; email := None; before := None; after := None; dry := false |}.

Definition setAll (o : options) : options :=
  {| all := true; email := email o; before := before o; after := after o; dry := dry o |}.
Definition setDry (o : options) : options :=
  {| all := all o; email := email o; before := before o; after := after o; dry := true |}.
Definition setEmail (v : option string) (o : options) : options :=
  {| all := all o; email := v; before := before o; after := after o; dry := dry o |}.
Definition setBefore (v : option string) (o : options) : options :=
  {| all := all o; email := email o; before := v; after := after o; dry := dry o |}.
Definition setAfter (v : option string) (o : options) : options :=
  {| all := all o; email := email o; before := before o; after := v; dry := dry o |}.

(** The loop over the arguments: a flag that takes a value takes the
    next argument, whatever it is, and the loop goes on after it; at the
    end of the arguments the value is undefined. *)
Fixpoint parseArgs (args : list string) (o : options) : options :=
  match args with
  | [] => o
  | a :: rest =>
      if String.eqb a "--all" then parseArgs rest (setAll o)
      else if String.eqb a "--email" then
        match rest with
        | v :: rest' => parseArgs rest' (setEmail (Some v) o)
        | [] => setEmail None o
        end
      else if String.eqb a "--before" then
        match rest with
        | v :: rest' => parseArgs rest' (setBefore (Some v) o)
        | [] => setBefore None o
        end
      else if String.eqb a "--after" then
        match rest with
        | v :: rest' => parseArgs rest' (setAfter (Some v) o)
        | [] => setAfter None o
        end
      else if String.eqb a "--dry" then parseArgs rest (setDry o)
      else parseArgs rest o
  end.

(** An option that is set to a non-empty text. *)
Definition given (v : option string) : option string :=
  match v with
  | Some t => if truthy t then Some t else None
  | None => None
  end.

(** What the options select: nothing to go on (an email no user has),
    or a condition on the sessions. *)
Inductive selection :=
| NoSuchUser
| Where (p : sessions.row -> bool).

(** The criteria of [listMatching], in the order the script tries
    them. *)
Definition listCriteria (o : options) (s : store) : selection :=
  match given (email o) with
  | Some e =>
      match selectUserByEmail e s with
      | None => NoSuchUser
      | Some u => Where (ofUser (usersTable.id u))
      end
  | None =>
      match given (before o) with
      | Some t => Where (expiresBefore t)
      | None =>
          match given (after o) with
          | Some t => Where (expiresAfter t)
          | None => Where every
          end
      end
  end.

Definition listMatching (o : options) (s : store) : list listed :=
  match listCriteria o s with
  | NoSuchUser => []
  | Where p => listWhere p s
  end.

(** The criteria of the deletion; [None] when no criterion was given. *)
Definition deleteCriteria (o : options) (s : store) : option selection :=
  match given (email o) with
  | Some e =>
      match selectUserByEmail e s with
      | None => Some NoSuchUser
      | Some u => Some (Where (ofUser (usersTable.id u)))
      end
  | None =>
      match given (before o) with
      | Some t => Some (Where (expiresBefore t))
      | None =>
          match given (after o) with
          | Some t => Some (Where (expiresAfter t))
          | None => if all o then Some (Where every) else None
          end
      end
  end.

(** What a run prints: the sessions found, and the number deleted when it
    came to deleting. *)
Record report := {
  found : list listed;
  deleted : option nat
}.

(** [run]: list; stop when nothing matches or on a dry run; else delete
    by the same criteria.  [inl] is the TypeError of reading the id of a
    user that is not there. *)
Definition run (o : options) (s : store) : (string + report) * store :=
  let rows := listMatching o s in
  match rows with
  | [] => (inr {| found := []; deleted := None |}, s)
  | _ =>
      if dry o then (inr {| found := rows; deleted := None |}, s)
      else
        match deleteCriteria o s with
        | None => (inr {| found := rows; deleted := None |}, s)
        | Some NoSuchUser => (inl "TypeError", s)
        | Some (Where p) =>
            (inr {| found := rows;
                    deleted := Some (length (filter p (sessions_table s))) |},
             deleteWhere p s)
        end
  end.

(** The script, from its arguments. *)
Definition clearSessions (args : list string) (s : store) : (string + report) * store :=
  run (parseArgs args noOptions) s.

(** *** The transaction benchmark *)

Definition insertUserRow (email : string) (d : database) : Z * database :=
  let id := nextRowid (map users.id (users_rows d)) in
  (id, {| users_rows := users_rows d ++ [ {| users.id := id; users.email := email |} ];
          accounts_rows := accounts_rows d;
          transactions_rows := transactions_rows d;
          sessions_rows := sessions_rows d |}).

(** [ensureUserAndAccount]: a user and a checking account of hers, with
    the email and the account number the script made up and the clock
    reading it took. *)
Definition ensureUserAndAccount (email accountNumber now : string) (d : database)
  : (Z * Z) * database :=
  let (userId, d1) := insertUserRow email d in
  let accountId := nextRowid (map accounts.id (accounts_rows d1)) in
  ((userId, accountId),
   withAccounts
     (accounts_rows d1 ++
      [ {| accounts.id := accountId; accounts.userId := userId;
           accounts.accountNumber := accountNumber; accounts.accountType := "checking";
           accounts.balance := 0; accounts.status := Some "active";
           accounts.createdAt := Some now |} ])
     d1).

(** One row of the benchmark: a deposit of one cent, processed, stamped
    with the clock reading. *)
Definition insertPerfDeposit (accountId : Z) (i : nat) (createdAt : string) (d : database)
  : database :=
  withTransactions
    (transactions_rows d ++
     [ {| transactions.id := nextRowid (map transactions.id (transactions_rows d));
          transactions.accountId := accountId;
          transactions.type := "deposit";
          transactions.amount := 1 # 100;
          transactions.description :=
            Some ("perf deposit " ++ Router.toString (N.of_nat i))%string;
          transactions.status := "processed";
          transactions.createdAt := Some createdAt;
          transactions.processedAt := None |} ])
    d.

(** The loop [for (let i = 0; i < n; i++)] of both insert functions;
    [clock i] is the reading at round [i]. *)
Fixpoint insertLoop (accountId : Z) (clock : nat -> string) (i n : nat) (d : database)
  : database :=
  match n with
  | O => d
  | S n' => insertLoop accountId clock (S i) n' (insertPerfDeposit accountId i (clock i) d)
  end.

Definition serialInsert (accountId : Z) (clock : nat -> string) (count : nat)
    (d : database) : database :=
  insertLoop accountId clock 0 count d.

(** The same loop inside one database transaction. *)
Definition batchedInsert (accountId : Z) (clock : nat -> string) (count : nat)
    (d : database) : database :=
  insertLoop accountId clock 0 count d.

Definition deleteTransactionsOf (accountId : Z) (d : database) : database :=
  withTransactions
    (filter (fun t => negb (transactions.accountId t =? accountId)%Z) (transactions_rows d))
    d.

Definition deleteAccount (accountId : Z) (d : database) : database :=
  withAccounts (filter (fun a => negb (accounts.id a =? accountId)%Z) (accounts_rows d)) d.

Definition deleteUser (userId : Z) (d : database) : database :=
  {| users_rows := filter (fun u => negb (users.id u =? userId)%Z) (users_rows d);
     accounts_rows := accounts_rows d;
     transactions_rows := transactions_rows d;
     sessions_rows := sessions_rows d |}.

Definition cleanup (accountId userId : Z) (d : database) : database :=
  deleteUser userId (deleteAccount accountId (deleteTransactionsOf accountId d)).

(** The benchmark from start to end: [count] is COUNT, the two clocks the
    readings during the two loops. *)
Definition benchmark (count : nat) (email accountNumber now : string)
    (clock1 clock2 : nat -> string) (d : database) : database :=
  let '((userId, accountId), d1) := ensureUserAndAccount email accountNumber now d in
  let d2 := serialInsert accountId clock1 count d1 in
  let d3 := deleteTransactionsOf accountId d2 in
  let d4 := batchedInsert accountId clock2 count d3 in
  cleanup accountId userId d4.

(** *** Helpers of [scripts/generate-and-fund.js] *)

Fixpoint repeatChar (c : ascii) (n : nat) : string :=
  match n with
  | O => EmptyString
  | S n' => String c (repeatChar c n')
  end.

(** [s.padStart(n, c)] for a one-character filler. *)
Definition padStart (n : nat) (c : ascii) (s : string) : string :=
  (repeatChar c (n - String.length s) ++ s)%string.

(** The account number [ensureAccount] makes up; [r] is
    [Math.floor(Math.random() * 1000000000)]. *)
Definition scriptAccountNumber (r : N) : string :=
  padStart 10 "0" (Router.toString r).

(** [... FROM accounts WHERE user_id = ? LIMIT 1] *)
Definition selectFirstAccountOf (userId : Z) (d : database) : option accounts.row :=
  find (fun a => (accounts.userId a =? userId)%Z) (accounts_rows d).

(** [ensureAccount]: the first account of the user, or a new checking
    account (the created_at default is [currentTimestamp]). *)
Definition ensureAccount (userId : Z) (r : N) (currentTimestamp : string) (d : database)
  : option accounts.row * database :=
  match selectFirstAccountOf userId d with
  | Some acc => (Some acc, d)
  | None =>
      let id := nextRowid (map accounts.id (accounts_rows d)) in
      let d' := insertAccount userId (scriptAccountNumber r) "checking" 0 "active"
                              currentTimestamp d in
      (selectAccountById id d', d')
  end.

(** [ensureUser]: the user with the email, or a new one with made-up
    details and no SSN columns. *)
Definition ensureUser (email : string) (s : store) : option usersTable.row * store :=
  match selectUserByEmail email s with
  | Some u => (Some u, s)
  | None =>
      let id := nextRowid (map usersTable.id (users_table s)) in
      let s' := withUsers
                  (users_table s ++
                   [ {| usersTable.id := id;
                        usersTable.email := email;
                        usersTable.password := "password";
                        usersTable.ssnHash := None;
                        usersTable.ssnLast4 := None;
                        usersTable.details :=
                          {| usersTable.firstName := "Auto";
                             usersTable.lastName := "Tester";
                             usersTable.phoneNumber := "000-000-0000";
                             usersTable.dateOfBirth := "1990-01-01";
                             usersTable.address := "123 Test St";
                             usersTable.city := "Testville";
                             usersTable.state := "TS";
                             usersTable.zipCode := "00000" |} |} ])
                  s in
      (selectUserById id s', s')
  end.

(** [ensureSession]: the sessions of the user are deleted and one is
    inserted, with the token the script signed and the expiry it computed;
    [None] when the UNIQUE constraint on the token refuses the insert. *)
Definition ensureSession (userId : Z) (token expiresAt : string) (s : store)
  : option store :=
  insertSession userId token expiresAt (deleteWhere (ofUser userId) s).

End Scripts.

(* ================================================================== *)
(** * Part II: properties *)
(* ================================================================== *)

Import JS Regex Sql Trpc Schema.

(** ** Rounding to hundredths *)

Section Rounding.

Lemma Qfloor_half (z : Z) : Qfloor (inject_Z z + (1 # 2)) = z.
Proof.
  unfold Qfloor, Qplus, inject_Z. cbn.
  replace (z * 2 + 1)%Z with (1 + z * 2)%Z by lia.
  rewrite Z.div_add by lia. reflexivity.
Qed.

Lemma nearestHundredth_exact (x : Q) (z : Z) :
  x == z # 100 -> nearestHundredth x = z.
Proof.
  intros Hx. unfold nearestHundredth.
  assert (H100 : x * 100 == inject_Z z).
  { rewrite Hx. unfold Qeq, Qmult, inject_Z. cbn. lia. }
  destruct (Qle_bool 0 x) eqn:Hs.
  - rewrite (Qfloor_comp _ (inject_Z z + (1 # 2))).
    + apply Qfloor_half.
    + rewrite H100. reflexivity.
  - rewrite (Qfloor_comp _ (inject_Z (- z) + (1 # 2))).
    + rewrite Qfloor_half. lia.
    + assert (Hn : - x * 100 == inject_Z (- z)).
      { rewrite Hx. unfold Qeq, Qmult, Qopp, inject_Z. cbn. lia. }
      rewrite Hn. reflexivity.
Qed.

Lemma toFixed2_exact (x : Q) (z : Z) : x == z # 100 -> toFixed2 x = z # 100.
Proof. intros H. unfold toFixed2. now rewrite (nearestHundredth_exact H). Qed.

Lemma toFixed2_twoDecimals (x : Q) : Spec.twoDecimals (toFixed2 x).
Proof. now exists (nearestHundredth x). Qed.

Lemma toFixed2_idem (x : Q) : toFixed2 (toFixed2 x) = toFixed2 x.
Proof. unfold toFixed2 at 1 3. apply toFixed2_exact. reflexivity. Qed.

Lemma hundredths_plus (a b : Z) : (a # 100) + (b # 100) == (a + b) # 100.
Proof. unfold Qeq, Qplus. cbn. lia. Qed.

(** Adding a two-decimal amount to a two-decimal balance and rounding
    gives the exact sum. *)
Lemma round2_sum (x y : Q) (a b : Z) :
  x == a # 100 -> y == b # 100 -> round2 (x + y) = (a + b) # 100.
Proof.
  intros Hx Hy. apply toFixed2_exact. rewrite Hx, Hy. apply hundredths_plus.
Qed.

End Rounding.

(** ** One funding call, run alone *)

(** Case analysis along a run: on the oracle's answers, on lookups and on
    guards, unfolding the statement layer in between. *)
Ltac unfold_run :=
  repeat progress
    (cbn [run db issued negb Router.enrichTransactions Router.uniqueAccountNumber];
     cbv beta iota zeta delta
       [bind query exec stmt sqlite_transaction Router.fundTransaction
        Router.insertAndFetch ret throw]).

Ltac run_case :=
  match goal with
  | |- context [if ?fl ?n then _ else _] => destruct (fl n) eqn:?
  | |- context [match ?x with Some _ => _ | None => _ end] => destruct x eqn:?
  | |- context [if ?b then _ else _] => destruct b eqn:?
  end.

Ltac run_cases := unfold_run; repeat (run_case; unfold_run; try reflexivity).

Section FundingAlone.
Context `{Runtime}.

(** What a run of the handler amounts to: on success both writes are in
    the database and the result is read back from it; on failure the
    database is the one the call started from. *)
Lemma fundAccountHandler_run (fl : oracle) (st : state) (uid : Z) (now : string)
    (input : fundInput) :
  match run (Router.fundAccountHandler uid now input) fl st with
  | (inr res, st') =>
      exists a acct b,
        amount input = Finite a /\ Qle_bool (1 # 100) a = true
        /\ selectAccountOfUser (accountId input) uid (db st) = Some acct
        /\ isActive (accounts.status acct) = true
        /\ db st' = Ledger.funded (accountId input) a (type (fundingSource input))
                                  now (db st)
        /\ transaction res = selectLatestTransactionOf (accountId input) (db st')
        /\ selectBalance (accountId input) (db st') = Some b
        /\ newBalance res = toFixed2 b
  | (inl e, st') => db st' = db st
  end.
Proof.
  destruct st as [d n]. unfold Router.fundAccountHandler.
  destruct (amount input) as [a|] eqn:Ha; [|reflexivity].
  destruct (Qle_bool (1 # 100) a) eqn:Hle; [|reflexivity].
  run_cases.
  match goal with Hact : negb _ = false |- _ => apply negb_false_iff in Hact end.
  exists a. eexists. eexists. repeat split; eauto.
Qed.

Lemma fundAccount_run (fl : oracle) (st : state) (uid : Z) (now : string)
    (raw : rawFundInput) :
  match run (Router.fundAccount uid now raw) fl st with
  | (inr res, st') =>
      exists input a acct b,
        Router.fundAccountSchema raw = inr input
        /\ amount input = Finite a /\ Qle_bool (1 # 100) a = true
        /\ selectAccountOfUser (accountId input) uid (db st) = Some acct
        /\ isActive (accounts.status acct) = true
        /\ db st' = Ledger.funded (accountId input) a (type (fundingSource input))
                                  now (db st)
        /\ transaction res = selectLatestTransactionOf (accountId input) (db st')
        /\ selectBalance (accountId input) (db st') = Some b
        /\ newBalance res = toFixed2 b
  | (inl e, st') => db st' = db st
  end.
Proof.
  unfold Router.fundAccount, withInput.
  destruct (Router.fundAccountSchema raw) as [issues|input] eqn:Hs; [reflexivity|].
  pose proof (fundAccountHandler_run fl st uid now input) as Hrun.
  destruct (run (Router.fundAccountHandler uid now input) fl st) as [[e|res] st'];
    [exact Hrun|].
  destruct Hrun as (a & acct & b & Hrun). exists input, a, acct, b. tauto.
Qed.

(** The same, for a call as the caller sees it. *)
Lemma fundAccount_call (fl : oracle) (d : database) (uid : Z) (now : string)
    (raw : rawFundInput) :
  match call (Router.fundAccount uid now raw) fl d with
  | (inr res, d') =>
      exists input a acct b,
        Router.fundAccountSchema raw = inr input
        /\ amount input = Finite a /\ Qle_bool (1 # 100) a = true
        /\ selectAccountOfUser (accountId input) uid d = Some acct
        /\ isActive (accounts.status acct) = true
        /\ d' = Ledger.funded (accountId input) a (type (fundingSource input)) now d
        /\ transaction res = selectLatestTransactionOf (accountId input) d'
        /\ selectBalance (accountId input) d' = Some b
        /\ newBalance res = toFixed2 b
  | (inl f, d') => d' = d
  end.
Proof.
  unfold call.
  pose proof (fundAccount_run fl {| db := d; issued := 0 |} uid now raw) as Hrun.
  destruct (run (Router.fundAccount uid now raw) fl {| db := d; issued := 0 |})
    as [[e|res] st']; cbn [report db] in *.
  - destruct e; exact Hrun.
  - exact Hrun.
Qed.

End FundingAlone.

(** ** Frame of a successful funding *)

Section Frame.
Context `{Runtime}.

Lemma objectSchema_accountId (schema : jsval -> parsed number) (raw : rawFundInput)
    (input : fundInput) :
  objectSchema schema raw = inr input ->
  accountId input = rawAccountId raw
  /\ fundingSource input = rawFundingSource raw
  /\ schema (rawAmount raw) = Valid (amount input)
  /\ routingRefinement (rawFundingSource raw) = true.
Proof.
  unfold objectSchema, routingIssues.
  destruct (schema (rawAmount raw)); try discriminate.
  destruct (routingRefinement (rawFundingSource raw)); try discriminate.
  intros [= <-]. auto.
Qed.

Lemma funded_accounts (X : Z) (a : Q) (src : fundingTypeEnum) (now : string)
    (d : database) :
  Forall2 (fun r r' => Ledger.sameButBalance r r' /\ (accounts.id r <> X -> r' = r))
          (accounts_rows d) (accounts_rows (Ledger.funded X a src now d)).
Proof.
  unfold Ledger.funded, addToBalance, insertTransaction. cbn.
  induction (accounts_rows d) as [|r rows IH]; cbn; constructor; auto.
  destruct (accounts.id r =? X)%Z eqn:E.
  - split; [repeat split|]. intros Hne. apply Z.eqb_eq in E. contradiction.
  - split; [repeat split|]. reflexivity.
Qed.

(** C10.  A successful [fundAccount] on account X appends exactly one
    row, referring to X, to the transactions table and changes nothing
    else but the balance of the account rows with id X: users and
    sessions are as before, the earlier transactions are as before, every
    other account row is as before, and X's row keeps its id, owner,
    account number, type, status and creation time. *)
Theorem fundAccount_frame (fl : oracle) (d d' : database) (uid : Z) (now : string)
    (raw : rawFundInput) (res : fundResult) :
  call (Router.fundAccount uid now raw) fl d = (inr res, d') ->
  (exists row, transactions_rows d' = transactions_rows d ++ [row]
               /\ transactions.accountId row = rawAccountId raw)
  /\ users_rows d' = users_rows d
  /\ sessions_rows d' = sessions_rows d
  /\ Forall2 (fun r r' => Ledger.sameButBalance r r'
                          /\ (accounts.id r <> rawAccountId raw -> r' = r))
             (accounts_rows d) (accounts_rows d').
Proof.
  intros Hcall. pose proof (fundAccount_call fl d uid now raw) as Hc.
  rewrite Hcall in Hc.
  destruct Hc as (input & a & acct & b & Hs & _ & _ & _ & _ & Hd & _).
  apply objectSchema_accountId in Hs. destruct Hs as (Hid & _).
  rewrite Hid in Hd. subst d'. repeat split.
  - eexists. split; [reflexivity|reflexivity].
  - apply funded_accounts.
Qed.

End Frame.

Lemma fundAccount_frame_witness :
  exists res d',
    call (Router.fundAccount Examples.alice "2026-01-02T10:00:00.000Z"
            (Examples.request 1 "12.50" Examples.cardSource))
         noFaults Examples.opened = (inr res, d')
    /\ (exists row, transactions_rows d' = transactions_rows Examples.opened ++ [row]
                    /\ transactions.accountId row = 1%Z)
    /\ users_rows d' = users_rows Examples.opened
    /\ sessions_rows d' = sessions_rows Examples.opened
    /\ Forall2 (fun r r' => Ledger.sameButBalance r r'
                            /\ (accounts.id r <> 1%Z -> r' = r))
               (accounts_rows Examples.opened) (accounts_rows d').
Proof.
  eexists. eexists. split; [vm_compute; reflexivity|].
  exact (@fundAccount_frame exampleRuntime noFaults Examples.opened _
           Examples.alice "2026-01-02T10:00:00.000Z"
           (Examples.request 1 "12.50" Examples.cardSource) _ eq_refl).
Defined.

(** ** Failures leave the database alone *)

Section Failures.
Context `{Runtime}.

Lemma Qle_bool_false_lt (x y : Q) : Qle_bool x y = false <-> y < x.
Proof.
  split; intros Hxy.
  - apply Qnot_le_lt. intros Hle. apply Qle_bool_iff in Hle. congruence.
  - destruct (Qle_bool x y) eqn:E; [|reflexivity].
    apply Qle_bool_iff in E. exfalso. exact (Qlt_not_le _ _ Hxy E).
Qed.

(** C5, amended.  With a valid funding source, an input whose normalized
    amount is below 0.01 makes [fundAccount] fail with the
    amount-too-small failure and leaves the database as it was; and
    whatever makes a [fundAccount] call fail (invalid amount, amount too
    small, account not found, account not active, invalid funding
    source, or a refused statement), the database is left as it was. *)
Theorem fundAccount_failure_no_effect (fl : oracle) (d : database) (uid : Z)
    (now : string) (raw : rawFundInput) :
  (forall a,
      routingRefinement (rawFundingSource raw) = true ->
      Router.amountSchema (rawAmount raw) = Valid (Finite a) ->
      a < 1 # 100 ->
      call (Router.fundAccount uid now raw) fl d = (inl amountTooSmall, d)
      /\ kindsOf amountTooSmall = [AmountTooSmall])
  /\ (forall f d', call (Router.fundAccount uid now raw) fl d = (inl f, d') -> d' = d).
Proof.
  split.
  - intros a Hr Ha Hlt. split; [|reflexivity].
    unfold call, Router.fundAccount, Router.fundAccountSchema, objectSchema,
      routingIssues, withInput.
    rewrite Ha, Hr. unfold Router.fundAccountHandler. cbn [amount].
    apply Qle_bool_false_lt in Hlt. rewrite Hlt. reflexivity.
  - intros f d' Hcall. pose proof (fundAccount_call fl d uid now raw) as Hc.
    rewrite Hcall in Hc. exact Hc.
Qed.

End Failures.

Lemma fundAccount_failure_no_effect_witness :
  (call (Router.fundAccount Examples.alice "2026-01-02T10:00:00.000Z"
           (Examples.request 1 "0.00" Examples.cardSource))
        noFaults Examples.opened = (inl amountTooSmall, Examples.opened)
   /\ kindsOf amountTooSmall = [AmountTooSmall])
  /\ (forall f d',
         call (Router.fundAccount Examples.bob "2026-01-02T10:00:00.000Z"
                 (Examples.request 1 "3" Examples.cardSource))
              noFaults Examples.opened = (inl f, d') -> d' = Examples.opened).
Proof.
  split.
  - apply (proj1 (@fundAccount_failure_no_effect exampleRuntime noFaults
                    Examples.opened Examples.alice "2026-01-02T10:00:00.000Z"
                    (Examples.request 1 "0.00" Examples.cardSource)) (0 # 100)).
    + reflexivity.
    + reflexivity.
    + reflexivity.
  - apply (proj2 (@fundAccount_failure_no_effect exampleRuntime noFaults
                    Examples.opened Examples.bob "2026-01-02T10:00:00.000Z"
                    (Examples.request 1 "3" Examples.cardSource))).
Defined.

(** C5, as stated, fails: a zero amount together with bank funding that
    lacks a routing number is rejected by the input schema for the funding
    source, not for the amount. *)
Lemma amount_too_small_counterexample :
  let raw := Examples.request 1 "0.00" Examples.bankWithoutRouting in
  Router.amountSchema (rawAmount raw) = Valid (Finite (0 # 100))
  /\ (0 # 100) < (1 # 100)
  /\ call (Router.fundAccount Examples.alice "2026-01-02T10:00:00.000Z" raw)
          noFaults Examples.opened
     = (inl (ZodError [routingIssue]), Examples.opened)
  /\ kindsOf (ZodError [routingIssue]) = [InvalidFundingSource].
Proof. repeat split. Qed.

(** ** The ownership guard *)

Section Ownership.
Context `{Runtime}.

Lemma find_all_false {A} (f : A -> bool) (l : list A) :
  (forall x, In x l -> f x = false) -> find f l = None.
Proof.
  induction l as [|x l IH]; intros Hall; [reflexivity|]. cbn.
  rewrite (Hall x (or_introl eq_refl)). apply IH. intros y Hy. apply Hall. now right.
Qed.

(** An account that is not there for this caller: absent, or owned by
    someone else. *)
Lemma selectAccountOfUser_none (X uid : Z) (d : database) :
  (forall a, In a (accounts_rows d) -> accounts.id a = X -> accounts.userId a <> uid) ->
  selectAccountOfUser X uid d = None.
Proof.
  intros Hno. apply find_all_false. intros a Ha.
  destruct (accounts.id a =? X)%Z eqn:E1; [|reflexivity].
  destruct (accounts.userId a =? uid)%Z eqn:E2; [|reflexivity].
  apply Z.eqb_eq in E1, E2. exfalso. exact (Hno a Ha E1 E2).
Qed.

Lemma fundAccount_unguarded (fl : oracle) (d : database) (uid : Z) (now : string)
    (raw : rawFundInput) :
  selectAccountOfUser (rawAccountId raw) uid d = None ->
  call (Router.fundAccount uid now raw) fl d = (inl (Guard.unguardedFunding fl raw), d).
Proof.
  intros Hnone. unfold call, Router.fundAccount, withInput, Guard.unguardedFunding.
  destruct (Router.fundAccountSchema raw) as [issues|input] eqn:Hs; [reflexivity|].
  apply objectSchema_accountId in Hs. destruct Hs as (Hid & _).
  unfold Router.fundAccountHandler. rewrite Hid.
  destruct (amount input) as [a|]; [|reflexivity].
  destruct (negb (Qle_bool (1 # 100) a)); [reflexivity|].
  unfold_run. destruct (fl 0%nat); [reflexivity|].
  rewrite Hnone. reflexivity.
Qed.

Lemma getTransactions_unguarded (fl : oracle) (d : database) (uid X : Z) :
  selectAccountOfUser X uid d = None ->
  call (Router.getTransactions uid X) fl d = (inl (Guard.unguardedListing fl), d).
Proof.
  intros Hnone. unfold call, Router.getTransactions, Guard.unguardedListing.
  unfold_run. destruct (fl 0%nat); [reflexivity|].
  rewrite Hnone. reflexivity.
Qed.

(** C6.  An account id that exists but belongs to another user is
    treated exactly as an id that does not exist: for the same request,
    [fundAccount] fails with the same failure in both databases and so
    does [getTransactions], both leave the database untouched, and when
    the request passes validation and the lookup is answered that
    failure is the account-not-found failure. *)
Theorem not_owned_indistinguishable (fl : oracle) (d1 d2 : database) (uid X : Z)
    (now : string) (raw : rawFundInput) :
  rawAccountId raw = X ->
  (exists a, In a (accounts_rows d1) /\ accounts.id a = X) ->
  (forall a, In a (accounts_rows d1) -> accounts.id a = X -> accounts.userId a <> uid) ->
  (forall a, In a (accounts_rows d2) -> accounts.id a <> X) ->
  (exists f,
      call (Router.fundAccount uid now raw) fl d1 = (inl f, d1)
      /\ call (Router.fundAccount uid now raw) fl d2 = (inl f, d2)
      /\ (forall input a,
             Router.fundAccountSchema raw = inr input ->
             amount input = Finite a -> (1 # 100) <= a -> fl 0%nat = false ->
             f = accountNotFound))
  /\ (exists g,
         call (Router.getTransactions uid X) fl d1 = (inl g, d1)
         /\ call (Router.getTransactions uid X) fl d2 = (inl g, d2)
         /\ (fl 0%nat = false -> g = accountNotFound))
  /\ kindsOf accountNotFound = [AccountNotFound].
Proof.
  intros HX _ Hother Habsent.
  assert (H1 : selectAccountOfUser X uid d1 = None)
    by (apply selectAccountOfUser_none; exact Hother).
  assert (H2 : selectAccountOfUser X uid d2 = None).
  { apply selectAccountOfUser_none. intros a Ha Hid. exfalso. exact (Habsent a Ha Hid). }
  split; [|split; [|reflexivity]].
  - exists (Guard.unguardedFunding fl raw). subst X.
    split; [now apply fundAccount_unguarded|].
    split; [now apply fundAccount_unguarded|].
    intros input a Hs Ha Hle Hfl. unfold Guard.unguardedFunding. rewrite Hs, Ha, Hfl.
    apply Qle_bool_iff in Hle. rewrite Hle. reflexivity.
  - exists (Guard.unguardedListing fl).
    split; [now apply getTransactions_unguarded|].
    split; [now apply getTransactions_unguarded|].
    intros Hfl. unfold Guard.unguardedListing. now rewrite Hfl.
Qed.

End Ownership.

Lemma not_owned_indistinguishable_witness :
  let raw := Examples.request 2 "25" Examples.cardSource in
  let now := "2026-01-02T10:00:00.000Z" in
  (exists f,
      call (Router.fundAccount Examples.alice now raw) noFaults Examples.opened
      = (inl f, Examples.opened)
      /\ call (Router.fundAccount Examples.alice now raw) noFaults Examples.fresh
         = (inl f, Examples.fresh)
      /\ (forall input a,
             Router.fundAccountSchema raw = inr input ->
             amount input = Finite a -> (1 # 100) <= a -> noFaults 0%nat = false ->
             f = accountNotFound))
  /\ (exists g,
         call (Router.getTransactions Examples.alice 2) noFaults Examples.opened
         = (inl g, Examples.opened)
         /\ call (Router.getTransactions Examples.alice 2) noFaults Examples.fresh
            = (inl g, Examples.fresh)
         /\ (noFaults 0%nat = false -> g = accountNotFound))
  /\ kindsOf accountNotFound = [AccountNotFound].
Proof.
  apply (@not_owned_indistinguishable exampleRuntime noFaults Examples.opened
           Examples.fresh Examples.alice 2 "2026-01-02T10:00:00.000Z"
           (Examples.request 2 "25" Examples.cardSource)).
  - reflexivity.
  - exists Examples.bobSavings. split; [right; left; reflexivity|reflexivity].
  - intros a [<-|[<-|[]]]; cbn; intros E; discriminate.
  - intros a [].
Defined.

(** ** Reading balances back *)

Section Balances.

Lemma find_map_update {A} (p : A -> bool) (f : A -> A) (l : list A) :
  (forall x, p (f x) = p x) ->
  find p (map f l) = option_map f (find p l).
Proof.
  intros Hp. induction l as [|x l IH]; [reflexivity|]. cbn.
  rewrite Hp. destruct (p x); [reflexivity|exact IH].
Qed.

Lemma selectAccountById_addToBalance (X Y : Z) (a : Q) (d : database) :
  selectAccountById X (addToBalance a Y d)
  = option_map (fun r => if (accounts.id r =? Y)%Z
                         then accounts.withBalance (round2 (accounts.balance r + a)) r
                         else r)
               (selectAccountById X d).
Proof.
  unfold selectAccountById, addToBalance. cbn.
  apply find_map_update. intros r. destruct (accounts.id r =? Y)%Z; reflexivity.
Qed.

Lemma selectAccountById_id (X : Z) (d : database) (r : accounts.row) :
  selectAccountById X d = Some r -> accounts.id r = X.
Proof.
  intros Hf. apply find_some in Hf. destruct Hf as [_ Hf]. now apply Z.eqb_eq.
Qed.

(** After a funding the balance of the account is its former balance
    plus the amount, rounded. *)
Lemma selectBalance_funded (X : Z) (a : Q) (src : fundingTypeEnum) (now : string)
    (d : database) :
  selectBalance X (Ledger.funded X a src now d)
  = option_map (fun b => round2 (b + a)) (selectBalance X d).
Proof.
  unfold selectBalance, Ledger.funded. rewrite selectAccountById_addToBalance.
  change (selectAccountById X (insertTransaction _ _ _ _ _ _ _ d))
    with (selectAccountById X d).
  destruct (selectAccountById X d) as [r|] eqn:Hr; [|reflexivity].
  cbn. rewrite (selectAccountById_id _ _ Hr), Z.eqb_refl. reflexivity.
Qed.

(** Balances of other accounts are not touched. *)
Lemma selectBalance_funded_other (X Y : Z) (a : Q) (src : fundingTypeEnum)
    (now : string) (d : database) :
  X <> Y ->
  selectBalance X (Ledger.funded Y a src now d) = selectBalance X d.
Proof.
  intros Hne. unfold selectBalance, Ledger.funded.
  rewrite selectAccountById_addToBalance.
  change (selectAccountById X (insertTransaction _ _ _ _ _ _ _ d))
    with (selectAccountById X d).
  destruct (selectAccountById X d) as [r|] eqn:Hr; [|reflexivity].
  cbn. rewrite (selectAccountById_id _ _ Hr).
  destruct (X =? Y)%Z eqn:E; [apply Z.eqb_eq in E; contradiction|reflexivity].
Qed.

Lemma selectAccountOfUser_byId (X uid : Z) (d : database) (r : accounts.row) :
  selectAccountOfUser X uid d = Some r ->
  exists r', selectAccountById X d = Some r'.
Proof.
  intros Hf. apply find_some in Hf. destruct Hf as [Hin Hc].
  apply andb_prop in Hc. destruct Hc as [Hc _].
  destruct (selectAccountById X d) as [r'|] eqn:E; [now exists r'|].
  unfold selectAccountById in E.
  pose proof (find_none _ _ E _ Hin) as Hn. cbn in Hn. congruence.
Qed.

End Balances.

(** ** Atomicity of the two writes *)

Section Atomicity.
Context `{Runtime}.

(** X2.  In the transactional router the ledger row and the balance
    update are applied together or not at all: a call that succeeds leaves the
    database with both writes, a call that fails leaves it untouched, and
    a statement refused inside the database transaction (BEGIN, the
    insert, the update, the two reads, COMMIT: statements 1 to 6 of the
    call) makes the call fail with INTERNAL_SERVER_ERROR. *)
Theorem fundAccount_all_or_nothing (fl : oracle) (d : database) (uid : Z)
    (now : string) (raw : rawFundInput) :
  (forall res d',
      call (Router.fundAccount uid now raw) fl d = (inr res, d') ->
      exists a, d' = Ledger.funded (rawAccountId raw) a (type (rawFundingSource raw))
                                   now d)
  /\ (forall f d', call (Router.fundAccount uid now raw) fl d = (inl f, d') -> d' = d)
  /\ (forall input a acct k,
         Router.fundAccountSchema raw = inr input ->
         amount input = Finite a -> (1 # 100) <= a ->
         fl 0%nat = false ->
         selectAccountOfUser (accountId input) uid d = Some acct ->
         isActive (accounts.status acct) = true ->
         (1 <= k <= 6)%nat -> fl k = true ->
         call (Router.fundAccount uid now raw) fl d
         = (inl (TRPCError INTERNAL_SERVER_ERROR "SqliteError"), d)
         /\ kindsOf (TRPCError INTERNAL_SERVER_ERROR "SqliteError") = [InternalError]).
Proof.
  split; [|split].
  - intros res d' Hcall. pose proof (fundAccount_call fl d uid now raw) as Hc.
    rewrite Hcall in Hc.
    destruct Hc as (input & a & acct & b & Hs & _ & _ & _ & _ & Hd & _).
    apply objectSchema_accountId in Hs. destruct Hs as (Hid & Hsrc & _).
    exists a. now rewrite <- Hid, <- Hsrc.
  - intros f d' Hcall. pose proof (fundAccount_call fl d uid now raw) as Hc.
    now rewrite Hcall in Hc.
  - intros input a acct k Hs Ha Hle Hf0 Hacct Hact Hk Hfk. split; [|reflexivity].
    unfold call, Router.fundAccount, withInput. rewrite Hs.
    unfold Router.fundAccountHandler. rewrite Ha.
    apply Qle_bool_iff in Hle. rewrite Hle.
    destruct (selectAccountOfUser_byId _ _ _ Hacct) as [r' Hr'].
    pose proof (selectBalance_funded (accountId input) a (type (fundingSource input))
                  now d) as Hb.
    unfold selectBalance at 2 in Hb. rewrite Hr' in Hb.
    unfold Ledger.funded, Ledger.fundingDescription in Hb.
    cbn [option_map] in Hb.
    unfold_run. rewrite Hf0, Hacct, Hact.
    run_cases; try reflexivity; exfalso;
      first
        [ congruence
        | assert (Hcases : (k = 1 \/ k = 2 \/ k = 3 \/ k = 4 \/ k = 5 \/ k = 6)%nat)
            by lia;
          repeat (destruct Hcases as [Hcases|Hcases]; [subst k; congruence|]);
          subst k; congruence ].
Qed.

End Atomicity.

(** C2 (failing input).  In the non-transactional copy of the handler the
    two writes are separate statements: when the balance update (statement
    2 of the call) is refused, the call fails with INTERNAL_SERVER_ERROR
    but the ledger row inserted by statement 1 stays, next to an unchanged
    balance. *)
Theorem two_step_funding_not_atomic :
  let now := "2026-01-02T10:00:00.000Z" in
  let ts := "2026-01-02 10:00:00" in
  exists d',
    call (TwoStep.fundAccount Examples.alice now ts
            (Examples.numericRequest 1 (1250 # 100) Examples.cardSource))
         (Examples.failAt 2) Examples.opened
    = (inl (TRPCError INTERNAL_SERVER_ERROR "SqliteError"), d')
    /\ transactions_rows d'
       = [Ledger.ledgerRow 1 (1250 # 100) card now ts Examples.opened]
    /\ accounts_rows d' = accounts_rows Examples.opened
    /\ d' <> Examples.opened.
Proof.
  eexists. split; [vm_compute; reflexivity|].
  split; [reflexivity|]. split; [reflexivity|]. discriminate.
Qed.

(** ** What a successful funding returns *)

Section Returned.
Context `{Runtime}.

Lemma keepLatest_fold_in (l : list transactions.row) (init b : option transactions.row) :
  fold_left keepLatest l init = b ->
  b = init \/ exists t, b = Some t /\ In t l.
Proof.
  revert init. induction l as [|t l IH]; intros init Hf; cbn in Hf.
  - now left.
  - destruct (IH _ Hf) as [Hb|(t' & Hb & Hin)].
    + unfold keepLatest in Hb. destruct init as [b0|].
      * destruct (textLt (transactions.createdAt b0) (transactions.createdAt t)).
        -- right. exists t. split; [exact Hb|now left].
        -- now left.
      * right. exists t. split; [exact Hb|now left].
    + right. exists t'. split; [exact Hb|now right].
Qed.

Lemma selectLatest_funded (X : Z) (a : Q) (src : fundingTypeEnum) (now : string)
    (d : database) :
  selectLatestTransactionOf X (Ledger.funded X a src now d)
  = keepLatest (selectLatestTransactionOf X d) (Ledger.ledgerRow X a src now now d).
Proof.
  unfold selectLatestTransactionOf, selectTransactionsOf, Ledger.funded. cbn.
  rewrite filter_app, fold_left_app. cbn. rewrite Z.eqb_refl. reflexivity.
Qed.

(** X3.  The balance returned is the balance the call stored; and when
    every earlier entry of the account carries a created_at strictly before the
    call's timestamp, the entry returned is the one the call inserted. *)
Theorem fundAccount_returns (fl : oracle) (d d' : database) (uid : Z) (now : string)
    (raw : rawFundInput) (res : fundResult) :
  call (Router.fundAccount uid now raw) fl d = (inr res, d') ->
  selectBalance (rawAccountId raw) d' = Some (newBalance res)
  /\ ((forall t, In t (transactions_rows d) ->
                 transactions.accountId t = rawAccountId raw ->
                 textLt (transactions.createdAt t) (Some now) = true) ->
      exists row, transaction res = Some row
                  /\ transactions_rows d' = transactions_rows d ++ [row]).
Proof.
  intros Hcall. pose proof (fundAccount_call fl d uid now raw) as Hc.
  rewrite Hcall in Hc.
  destruct Hc as (input & a & acct & b & Hs & _ & _ & _ & _ & Hd & Ht & Hb & Hn).
  apply objectSchema_accountId in Hs. destruct Hs as (Hid & _).
  rewrite Hid in *. subst d'. split.
  - rewrite Hn, Hb. f_equal. rewrite selectBalance_funded in Hb.
    destruct (selectBalance (rawAccountId raw) d) as [b0|]; [|discriminate].
    cbn in Hb. injection Hb as <-. unfold round2. now rewrite toFixed2_idem.
  - intros Hlate. eexists. split; [|reflexivity].
    rewrite Ht, selectLatest_funded.
    destruct (selectLatestTransactionOf (rawAccountId raw) d) as [best|] eqn:Hbest;
      [|reflexivity].
    destruct (keepLatest_fold_in _ _ Hbest) as [Hb0|(t & Hb0 & Hin)]; [discriminate|].
    injection Hb0 as ->. apply filter_In in Hin. destruct Hin as [Hin Hacc].
    apply Z.eqb_eq in Hacc. unfold keepLatest.
    change (transactions.createdAt (Ledger.ledgerRow _ _ _ _ _ _)) with (Some now).
    rewrite (Hlate t Hin Hacc). reflexivity.
Qed.

End Returned.

(** C8 (failing input).  The entry returned is the one with the greatest
    created_at among the account's entries, which need not be the one the
    call inserted: with an earlier deposit stamped in the same millisecond
    as the call, or stamped later than the call's clock reading, the router
    returns the earlier deposit (id 1, amount 5.00) while it inserts the new
    entry as row 2; the non-transactional copy, whose rows take the
    one-second CURRENT_TIMESTAMP default, does the same against an entry
    stamped in the ISO format earlier the same day and against an entry
    stamped within the same second. *)
Theorem fundAccount_returns_earlier_entry :
  let now := "2026-01-02T10:00:00.000Z" in
  (exists res d',
      call (Router.fundAccount Examples.alice now
              (Examples.request 1 "1.00" Examples.cardSource))
           noFaults (Examples.deposited now) = (inr res, d')
      /\ transaction res = Some (Examples.earlierDeposit now)
      /\ transactions_rows d'
         = [Examples.earlierDeposit now;
            Ledger.ledgerRow 1 (100 # 100) card now now (Examples.deposited now)])
  /\ (exists res d',
         call (Router.fundAccount Examples.alice now
                 (Examples.request 1 "1.00" Examples.cardSource))
              noFaults (Examples.deposited "2026-01-02T10:00:00.250Z") = (inr res, d')
         /\ transaction res = Some (Examples.earlierDeposit "2026-01-02T10:00:00.250Z")
         /\ transactions_rows d'
            = [Examples.earlierDeposit "2026-01-02T10:00:00.250Z";
               Ledger.ledgerRow 1 (100 # 100) card now now
                 (Examples.deposited "2026-01-02T10:00:00.250Z")])
  /\ (exists res d',
         call (TwoStep.fundAccount Examples.alice now "2026-01-02 10:00:00"
                 (Examples.numericRequest 1 1 Examples.cardSource))
              noFaults (Examples.deposited "2026-01-02T09:00:00.000Z") = (inr res, d')
         /\ transaction res = Some (Examples.earlierDeposit "2026-01-02T09:00:00.000Z")
         /\ transactions_rows d'
            = [Examples.earlierDeposit "2026-01-02T09:00:00.000Z";
               Ledger.ledgerRow 1 (100 # 100) card now "2026-01-02 10:00:00"
                 (Examples.deposited "2026-01-02T09:00:00.000Z")])
  /\ (exists res d',
         call (TwoStep.fundAccount Examples.alice now "2026-01-02 10:00:00"
                 (Examples.numericRequest 1 1 Examples.cardSource))
              noFaults (Examples.deposited "2026-01-02 10:00:00") = (inr res, d')
         /\ transaction res = Some (Examples.earlierDeposit "2026-01-02 10:00:00")
         /\ transactions_rows d'
            = [Examples.earlierDeposit "2026-01-02 10:00:00";
               Ledger.ledgerRow 1 (100 # 100) card now "2026-01-02 10:00:00"
                 (Examples.deposited "2026-01-02 10:00:00")]).
Proof.
  repeat split; eexists; eexists; (split; [vm_compute; reflexivity|]);
    split; reflexivity.
Qed.

(** ** Listing the ledger of an account *)

Section Listing.
Context `{Runtime}.

Lemma enrichTransactions_run (fl : oracle) (ts : list transactions.row) :
  forall (acc : list enriched) (st : state),
    match run (Router.enrichTransactions ts acc) fl st with
    | (inr l, st') =>
        db st' = db st
        /\ l = acc ++ map (fun t => Core.enrichWith
                                      (option_map accounts.accountType
                                         (selectAccountById (transactions.accountId t)
                                                            (db st))) t) ts
    | (inl e, st') => db st' = db st
    end.
Proof.
  induction ts as [|t ts IH]; intros acc [d n].
  - cbn. split; [reflexivity|now rewrite app_nil_r].
  - cbn [Router.enrichTransactions]. unfold_run.
    destruct (fl n); [reflexivity|].
    specialize (IH (acc ++ [ {| entry := t;
                                accountType := option_map accounts.accountType
                                                 (selectAccountById
                                                    (transactions.accountId t) d) |} ])
                   {| db := d; issued := S n |}).
    cbn [db] in IH.
    destruct (run _ fl {| db := d; issued := S n |}) as [[e|l] st']; [exact IH|].
    destruct IH as [Hd Hl]. split; [exact Hd|].
    rewrite Hl, <- app_assoc. reflexivity.
Qed.

(** A call of [getTransactions] never writes; when it succeeds the guard
    found the account and the result is the account's ledger rows in table
    order, each with the type of the account row of that id. *)
Lemma getTransactions_call (fl : oracle) (d : database) (uid X : Z) :
  match call (Router.getTransactions uid X) fl d with
  | (inr l, d') =>
      d' = d
      /\ selectAccountOfUser X uid d <> None
      /\ l = map (Core.enrichWith (option_map accounts.accountType (selectAccountById X d)))
                 (selectTransactionsOf X d)
  | (inl f, d') => d' = d
  end.
Proof.
  unfold call, Router.getTransactions. unfold_run.
  destruct (fl 0%nat); [reflexivity|].
  destruct (selectAccountOfUser X uid d) eqn:Hacct; [|reflexivity].
  unfold_run. destruct (fl 1%nat); [reflexivity|].
  pose proof (enrichTransactions_run fl (selectTransactionsOf X d) []
                {| db := d; issued := 2 |}) as Hrun.
  destruct (run _ fl {| db := d; issued := 2 |}) as [[e|l] st']; cbn [report db] in *.
  - destruct e; exact Hrun.
  - destruct Hrun as [Hd Hl]. split; [exact Hd|]. split; [discriminate|].
    rewrite Hl. cbn [app]. apply map_ext_in. intros t Ht.
    apply filter_In in Ht. destruct Ht as [_ Ht]. apply Z.eqb_eq in Ht.
    now rewrite Ht.
Qed.

Lemma getTransactions_noFaults (d : database) (uid X : Z) (acct : accounts.row) :
  selectAccountOfUser X uid d = Some acct ->
  call (Router.getTransactions uid X) noFaults d
  = (inr (map (Core.enrichWith (option_map accounts.accountType (selectAccountById X d)))
              (selectTransactionsOf X d)), d).
Proof.
  intros Hacct. pose proof (getTransactions_call noFaults d uid X) as Hc.
  assert (Hok : forall ts acc st, exists l st',
               run (Router.enrichTransactions ts acc) noFaults st = (inr l, st')).
  { induction ts as [|t ts IH]; intros acc [d0 n].
    - unfold_run. eauto.
    - unfold_run. change (noFaults n) with false. cbv iota. apply IH. }
  assert (Hsucc : exists l d', call (Router.getTransactions uid X) noFaults d = (inr l, d')).
  { unfold call, Router.getTransactions. unfold_run.
    change (noFaults 0%nat) with false. cbv iota. rewrite Hacct. unfold_run.
    change (noFaults 1%nat) with false. cbv iota.
    destruct (Hok (selectTransactionsOf X d) [] {| db := d; issued := 2 |})
      as (l & st' & Hrun).
    rewrite Hrun. cbn [report]. eauto. }
  destruct Hsucc as (l & d' & Hs). rewrite Hs in Hc |- *.
  destruct Hc as (-> & _ & ->). reflexivity.
Qed.

Lemma find_app_some {A} (p : A -> bool) (l extra : list A) (x : A) :
  find p l = Some x -> find p (l ++ extra) = Some x.
Proof.
  induction l as [|y l IH]; [discriminate|]. cbn.
  destruct (p y); [trivial|exact IH].
Qed.

Lemma NoDup_map_eq {A B} (f : A -> B) (l : list A) (x y : A) :
  NoDup (map f l) -> In x l -> In y l -> f x = f y -> x = y.
Proof.
  induction l as [|z l IH]; [intros _ []|].
  cbn. intros Hnd Hx Hy Hf. inversion Hnd as [|? ? Hnotin Hnd']; subst.
  destruct Hx as [->|Hx], Hy as [->|Hy]; auto.
  - exfalso. apply Hnotin. rewrite Hf. now apply in_map.
  - exfalso. apply Hnotin. rewrite <- Hf. now apply in_map.
Qed.

(** With account ids unique (the primary key), the row of that id is the
    caller's row. *)
Lemma selectAccountById_owner (d : database) (uid X : Z) (acct : accounts.row) :
  NoDup (map accounts.id (accounts_rows d)) ->
  selectAccountOfUser X uid d = Some acct ->
  selectAccountById X d = Some acct.
Proof.
  intros Hnd Hacct. destruct (selectAccountOfUser_byId _ _ _ Hacct) as [r Hr].
  rewrite Hr. f_equal.
  apply find_some in Hacct. destruct Hacct as [Hin Hc].
  apply andb_prop in Hc. destruct Hc as [Hc _]. apply Z.eqb_eq in Hc.
  pose proof (selectAccountById_id _ _ Hr) as Hid.
  apply find_some in Hr. destruct Hr as [Hin' _].
  apply (NoDup_map_eq accounts.id _ _ _ Hnd Hin' Hin). congruence.
Qed.

End Listing.

(** ** Opening an account *)

Section Opening.

(** The loop, whatever the oracle: the database is left as it was or has
    gained the one inserted account, whose number no account had. *)
Lemma uniqueAccountNumber_run (fl : oracle) (uid : Z) (ty : accountTypeEnum)
    (ts : string) (draws : list (list Byte.byte)) :
  forall st,
    let r := run (Router.uniqueAccountNumber draws (Router.insertAndFetch uid ty ts))
                 fl st in
    db (snd r) = db st
    \/ exists number,
         selectAccountByNumber number (db st) = None
         /\ db (snd r) = insertAccount uid number (accountTypeName ty) 0 "active" ts (db st).
Proof.
  induction draws as [|buffer draws IH]; intros [d n]; cbn zeta.
  - left. reflexivity.
  - unfold_run. destruct (fl n); [now left|].
    destruct (selectAccountByNumber (Router.generateAccountNumber buffer) d) eqn:Hsel.
    + apply (IH {| db := d; issued := S n |}).
    + unfold_run. destruct (fl (S n)); unfold_run; [now left|].
      destruct (fl (S (S n))); unfold_run; [right; eauto|].
      destruct (selectAccountByNumber _ (insertAccount _ _ _ _ _ _ _));
        unfold_run; right; eauto.
Qed.

Lemma createAccount_effect (fl : oracle) (d : database) (uid : Z) (ty : accountTypeEnum)
    (draws : list (list Byte.byte)) (ts : string) :
  let d' := snd (call (Router.createAccount uid ty draws ts) fl d) in
  d' = d
  \/ exists number,
       selectAccountByNumber number d = None
       /\ d' = insertAccount uid number (accountTypeName ty) 0 "active" ts d.
Proof.
  unfold call, Router.createAccount. unfold_run.
  destruct (fl 0%nat); [now left|].
  destruct (selectAccountOfType uid (accountTypeName ty) d); [now left|].
  pose proof (uniqueAccountNumber_run fl uid ty ts draws {| db := d; issued := 1 |}) as Hl.
  cbn zeta in Hl.
  destruct (run _ fl {| db := d; issued := 1 |}) as [r st']. exact Hl.
Qed.

(** Reading the accounts of a user writes nothing. *)
Lemma getAccounts_effect (fl : oracle) (d : database) (uid : Z) :
  snd (call (Router.getAccounts uid) fl d) = d.
Proof.
  unfold call, Router.getAccounts. unfold_run. destruct (fl 0%nat); reflexivity.
Qed.

End Opening.

(** ** Listing twice *)

Section Repeatable.
Context `{Runtime}.

Lemma grown_refl (d : database) : Core.grown d d.
Proof. split; [reflexivity|]. exists []. now rewrite app_nil_r. Qed.

Lemma grown_trans (d1 d2 d3 : database) :
  Core.grown d1 d2 -> Core.grown d2 d3 -> Core.grown d1 d3.
Proof.
  intros [Ht1 [e1 Ha1]] [Ht2 [e2 Ha2]]. split; [congruence|].
  exists (e1 ++ e2). now rewrite Ha2, Ha1, app_assoc.
Qed.

(** An operation other than a funding leaves the ledger alone and at most
    appends an account. *)
Lemma perform_grown (step : oracle * Core.operation) (d : database) :
  Core.isFunding (snd step) = false -> Core.grown d (Core.perform step d).
Proof.
  destruct step as [fl [uid ty draws ts|uid|uid now raw|uid X]]; cbn [snd Core.isFunding];
    intros Hnf; try discriminate; unfold Core.perform; cbn [fst snd].
  - destruct (createAccount_effect fl d uid ty draws ts) as [->|(number & _ & ->)].
    + apply grown_refl.
    + split; [reflexivity|]. eexists. reflexivity.
  - rewrite getAccounts_effect. apply grown_refl.
  - pose proof (getTransactions_call fl d uid X) as Hc.
    destruct (call (Router.getTransactions uid X) fl d) as [[f|l] d']; cbn [snd].
    + subst d'. apply grown_refl.
    + destruct Hc as [-> _]. apply grown_refl.
Qed.

Lemma performAll_grown (steps : list (oracle * Core.operation)) :
  forall d,
    forallb (fun step => negb (Core.isFunding (snd step))) steps = true ->
    Core.grown d (Core.performAll steps d).
Proof.
  induction steps as [|step steps IH]; intros d Hall; cbn in *.
  - apply grown_refl.
  - apply andb_prop in Hall. destruct Hall as [Hs Hall].
    apply negb_true_iff in Hs.
    eapply grown_trans; [apply perform_grown; exact Hs|].
    apply IH. exact Hall.
Qed.

Lemma grown_listing (d d' : database) (X : Z) (r : accounts.row) :
  Core.grown d d' ->
  selectAccountById X d = Some r ->
  selectTransactionsOf X d' = selectTransactionsOf X d
  /\ selectAccountById X d' = Some r.
Proof.
  intros [Ht [extra Ha]] Hr. split.
  - unfold selectTransactionsOf. now rewrite Ht.
  - unfold selectAccountById in *. rewrite Ha. now apply find_app_some.
Qed.

(** C9.  For an account the caller owns, [getTransactions] returns every
    ledger entry of the account, each with the type of the account as it is
    in the store at the time of the call, and writes nothing; and two calls
    with no [fundAccount] between them (other operations may come between)
    return the same sequence. *)
Theorem getTransactions_all_and_repeatable (fl1 fl2 : oracle) (d : database)
    (uid X : Z) (acct : accounts.row) (between : list (oracle * Core.operation)) :
  NoDup (map accounts.id (accounts_rows d)) ->
  selectAccountOfUser X uid d = Some acct ->
  forallb (fun step => negb (Core.isFunding (snd step))) between = true ->
  call (Router.getTransactions uid X) noFaults d
  = (inr (map (Core.enrichWith (Some (accounts.accountType acct)))
              (selectTransactionsOf X d)), d)
  /\ (forall t, In t (selectTransactionsOf X d)
                <-> In t (transactions_rows d) /\ transactions.accountId t = X)
  /\ (forall l1 l2 d1 d2,
         call (Router.getTransactions uid X) fl1 d = (inr l1, d1) ->
         call (Router.getTransactions uid X) fl2 (Core.performAll between d1)
         = (inr l2, d2) ->
         l1 = l2 /\ d1 = d).
Proof.
  intros Hnd Hacct Hbetween.
  pose proof (selectAccountById_owner _ _ _ Hnd Hacct) as Hbyid.
  split; [|split].
  - rewrite (getTransactions_noFaults _ _ _ Hacct), Hbyid. reflexivity.
  - intros t. unfold selectTransactionsOf. rewrite filter_In.
    split; intros [Hin Heq]; (split; [exact Hin|now apply Z.eqb_eq]).
  - intros l1 l2 d1 d2 H1 H2.
    pose proof (getTransactions_call fl1 d uid X) as Hc1. rewrite H1 in Hc1.
    destruct Hc1 as (-> & _ & ->).
    pose proof (getTransactions_call fl2 (Core.performAll between d) uid X) as Hc2.
    rewrite H2 in Hc2. destruct Hc2 as (_ & _ & ->).
    destruct (grown_listing X (performAll_grown between d Hbetween) Hbyid) as [Ht Ha].
    rewrite Ht, Ha, Hbyid. split; reflexivity.
Qed.

End Repeatable.

Lemma getTransactions_all_and_repeatable_witness :
  let d := Examples.deposited "2026-01-02T09:00:00.000Z" in
  let between :=
    [ (noFaults, Core.ListAccounts Examples.alice);
      (noFaults, Core.CreateAccount Examples.alice savings [Examples.zeroBytes;
                                    Examples.oneBytes] "2026-01-02 09:30:00");
      (noFaults, Core.ListTransactions Examples.bob 2) ] in
  call (Router.getTransactions Examples.alice 1) noFaults d
  = (inr (map (Core.enrichWith (Some "checking")) (selectTransactionsOf 1 d)), d)
  /\ (forall t, In t (selectTransactionsOf 1 d)
                <-> In t (transactions_rows d) /\ transactions.accountId t = 1%Z)
  /\ (forall l1 l2 d1 d2,
         call (Router.getTransactions Examples.alice 1) noFaults d = (inr l1, d1) ->
         call (Router.getTransactions Examples.alice 1) noFaults
              (Core.performAll between d1) = (inr l2, d2) ->
         l1 = l2 /\ d1 = d).
Proof.
  apply (@getTransactions_all_and_repeatable exampleRuntime noFaults noFaults
           (Examples.deposited "2026-01-02T09:00:00.000Z") Examples.alice 1
           (Examples.aliceChecking (500 # 100))).
  - cbn. repeat constructor; cbn; intuition discriminate.
  - reflexivity.
  - reflexivity.
Defined.

(** ** Account numbers *)

Section AccountNumbers.

Lemma digit_char (x : N) :
  (x < 10)%N -> N_of_ascii (ascii_of_N (48 + x)) = (48 + x)%N.
Proof. intros Hx. apply N_ascii_embedding. lia. Qed.

(** The digits of a number with [k + 1] decimal digits, put in front of
    [acc]. *)
Lemma digitsOf_spec (k : nat) :
  forall (fuel : nat) (n : N) (acc : string) (a : N),
    (10 ^ N.of_nat k <= n < 10 ^ N.of_nat (S k))%N \/ (k = 0%nat /\ n = 0%N) ->
    (k < fuel)%nat ->
    String.length (Router.digitsOf fuel n acc) = (S k + String.length acc)%nat
    /\ (Spec.numeric acc -> Spec.numeric (Router.digitsOf fuel n acc))
    /\ Spec.decimalValueFrom a (Router.digitsOf fuel n acc)
       = Spec.decimalValueFrom (a * 10 ^ N.of_nat (S k) + n) acc.
Proof.
  induction k as [|k IH]; intros fuel n acc a Hn Hfuel;
    (destruct fuel as [|fuel]; [lia|]); cbn [Router.digitsOf].
  - assert (Hlt : (n < 10)%N) by (cbn in Hn; lia).
    rewrite (N.div_small n 10) by exact Hlt. cbn [N.eqb].
    rewrite (N.mod_small n 10) by exact Hlt.
    cbn [String.length Spec.numeric Spec.decimalValueFrom].
    rewrite (digit_char Hlt). repeat split; try lia; try assumption.
    f_equal. change (10 ^ N.of_nat 1)%N with 10%N. lia.
  - assert (Hpow : (10 ^ N.of_nat (S (S k)) = 10 * 10 ^ N.of_nat (S k))%N).
    { rewrite (Nat2N.inj_succ (S k)), N.pow_succ_r'. reflexivity. }
    assert (Hpow' : (10 ^ N.of_nat (S k) = 10 * 10 ^ N.of_nat k)%N).
    { rewrite (Nat2N.inj_succ k), N.pow_succ_r'. reflexivity. }
    assert (Hpos : (0 < 10 ^ N.of_nat k)%N) by (apply N.neq_0_lt_0, N.pow_nonzero; lia).
    destruct Hn as [[Hlo Hhi]|[Hk _]]; [|discriminate].
    pose proof (N.div_mod n 10 ltac:(lia)) as Hdm.
    pose proof (N.mod_lt n 10 ltac:(lia)) as Hmod.
    assert (Hq : (10 ^ N.of_nat k <= n / 10 < 10 ^ N.of_nat (S k))%N).
    { split.
      - apply N.div_le_lower_bound; lia.
      - apply N.Div0.div_lt_upper_bound; lia. }
    destruct (n / 10 =? 0)%N eqn:Hz; [apply N.eqb_eq in Hz; lia|].
    destruct (IH fuel (n / 10)%N (String (ascii_of_N (48 + n mod 10)) acc) a
                 (or_introl Hq) ltac:(clear - Hfuel; lia)) as (Hlen & Hnum & Hval).
    rewrite Hlen, Hval. cbn [String.length Spec.numeric Spec.decimalValueFrom].
    rewrite (digit_char Hmod). split; [now rewrite Nat.add_succ_r|]. split.
    + intros Hacc. apply Hnum. cbn [Spec.numeric]. rewrite (digit_char Hmod).
      split; [|exact Hacc].
      clear - Hmod. revert Hmod. generalize (n mod 10)%N. intros r Hr. lia.
    + f_equal. rewrite Hpow. clear - Hdm Hmod.
      revert Hdm Hmod. generalize (10 ^ N.of_nat (S k))%N (n / 10)%N (n mod 10)%N.
      intros X q r Hdm Hr. lia.
Qed.

Lemma toString_ten_digits (n : N) :
  (1000000000 <= n <= 9999999999)%N ->
  String.length (Router.toString n) = 10%nat
  /\ Spec.numeric (Router.toString n)
  /\ Spec.decimalValue (Router.toString n) = n.
Proof.
  intros Hn. unfold Router.toString, Spec.decimalValue.
  assert (Hlog : (29 <= N.log2 n)%N).
  { apply N.log2_le_pow2; [lia|]. change (2 ^ 29)%N with 536870912%N. lia. }
  destruct (@digitsOf_spec 9%nat (S (N.to_nat (N.log2 n))) n "" 0%N)
    as (Hlen & Hnum & Hval).
  - left. change (10 ^ N.of_nat 9)%N with 1000000000%N.
    change (10 ^ N.of_nat 10)%N with 10000000000%N. lia.
  - lia.
  - rewrite Hlen, Hval. cbn [String.length Spec.decimalValueFrom].
    split; [reflexivity|]. split; [now apply Hnum|]. lia.
Qed.

(** Whatever the random bytes, the generated account number is a string
    of ten digits denoting a number from 1,000,000,000 to 9,999,999,999. *)
Lemma generateAccountNumber_range (buffer : list Byte.byte) :
  String.length (Router.generateAccountNumber buffer) = 10%nat
  /\ Spec.numeric (Router.generateAccountNumber buffer)
  /\ (1000000000 <= Spec.decimalValue (Router.generateAccountNumber buffer)
      <= 9999999999)%N.
Proof.
  unfold Router.generateAccountNumber. cbv zeta.
  set (randomNum := Router.readUIntBE buffer 0 5).
  assert (Hmod : (randomNum mod 9000000000 < 9000000000)%N)
    by (apply N.mod_lt; discriminate).
  revert Hmod. generalize (randomNum mod 9000000000)%N. intros r Hr.
  destruct (toString_ten_digits (n := (r + 1000000000)%N))
    as (Hlen & Hnum & Hval); [lia|].
  rewrite Hval. repeat split; try assumption; lia.
Qed.

End AccountNumbers.

(** ** The allocation loop *)

Section Allocation.

Lemma find_app_none {A} (p : A -> bool) (l extra : list A) :
  find p l = None -> find p (l ++ extra) = find p extra.
Proof.
  induction l as [|y l IH]; [reflexivity|]. cbn.
  destruct (p y); [discriminate|exact IH].
Qed.

Lemma selectAccountByNumber_inserted (uid : Z) (ty : accountTypeEnum) (number ts : string)
    (d : database) :
  selectAccountByNumber number d = None ->
  selectAccountByNumber number
    (insertAccount uid number (accountTypeName ty) 0 "active" ts d)
  = Some (Core.openedAccount uid ty number ts d).
Proof.
  intros Hnone. unfold selectAccountByNumber, insertAccount in *. cbn.
  rewrite (find_app_none _ _ _ Hnone). cbn. now rewrite String.eqb_refl.
Qed.

(** While the draws collide the loop goes on: it writes nothing and is
    still running when the draws are used up. *)
Lemma uniqueAccountNumber_collisions {A} (k : string -> task (option A))
    (draws : list (list Byte.byte)) :
  forall st,
    Forall (Core.collides (db st)) draws ->
    run (Router.uniqueAccountNumber draws k) noFaults st
    = (inr None, {| db := db st; issued := (length draws + issued st)%nat |}).
Proof.
  induction draws as [|buffer draws IH]; intros [d n] Hall; unfold_run.
  - reflexivity.
  - inversion Hall as [|? ? Hc Hrest]; subst. change (noFaults n) with false. cbv iota.
    unfold Core.collides in Hc. cbn [db] in Hc.
    destruct (selectAccountByNumber (Router.generateAccountNumber buffer) d);
      [|contradiction].
    rewrite (IH {| db := d; issued := S n |} Hrest). cbn [db issued length].
    now rewrite Nat.add_succ_r.
Qed.

(** The first draw that does not collide ends the loop; the draws after
    it are not looked at. *)
Lemma uniqueAccountNumber_redraw {A} (k : string -> task (option A))
    (collisions : list (list Byte.byte)) (buffer : list Byte.byte)
    (rest : list (list Byte.byte)) :
  forall st,
    Forall (Core.collides (db st)) collisions ->
    ~ Core.collides (db st) buffer ->
    run (Router.uniqueAccountNumber (collisions ++ buffer :: rest) k) noFaults st
    = run (k (Router.generateAccountNumber buffer)) noFaults
          {| db := db st; issued := (S (length collisions) + issued st)%nat |}.
Proof.
  induction collisions as [|c collisions IH]; intros [d n] Hall Hfree;
    cbn [app]; unfold_run; change (noFaults n) with false; cbv iota.
  - unfold Core.collides in Hfree. cbn [db] in Hfree.
    destruct (selectAccountByNumber (Router.generateAccountNumber buffer) d) eqn:E.
    + exfalso. apply Hfree. discriminate.
    + reflexivity.
  - inversion Hall as [|? ? Hc Hrest]; subst.
    unfold Core.collides in Hc. cbn [db] in Hc.
    destruct (selectAccountByNumber (Router.generateAccountNumber c) d);
      [|contradiction].
    rewrite (IH {| db := d; issued := S n |} Hrest Hfree). cbn [db issued length].
    now rewrite Nat.add_succ_r.
Qed.

(** C7, amended.  The generated account number is always a string of ten
    digits denoting a number from 1,000,000,000 to 9,999,999,999.  On a
    collision with an existing account number [createAccount] draws again,
    and it opens the account under the first drawn number that no account
    has.  There is no ceiling on the number of draws and no failure for
    running out of them: as long as the draws collide the call is still in
    its loop and has written nothing. *)
Theorem account_number_allocation (d : database) (uid : Z) (ty : accountTypeEnum)
    (ts : string) :
  (forall buffer,
      String.length (Router.generateAccountNumber buffer) = 10%nat
      /\ Spec.numeric (Router.generateAccountNumber buffer)
      /\ (1000000000 <= Spec.decimalValue (Router.generateAccountNumber buffer)
          <= 9999999999)%N)
  /\ (forall collisions buffer rest,
         selectAccountOfType uid (accountTypeName ty) d = None ->
         Forall (Core.collides d) collisions ->
         ~ Core.collides d buffer ->
         call (Router.createAccount uid ty (collisions ++ buffer :: rest) ts) noFaults d
         = (inr (Some (Core.openedAccount uid ty (Router.generateAccountNumber buffer)
                                          ts d)),
            insertAccount uid (Router.generateAccountNumber buffer) (accountTypeName ty)
                          0 "active" ts d))
  /\ (forall draws,
         selectAccountOfType uid (accountTypeName ty) d = None ->
         Forall (Core.collides d) draws ->
         call (Router.createAccount uid ty draws ts) noFaults d = (inr None, d)).
Proof.
  split; [exact generateAccountNumber_range|]. split.
  - intros collisions buffer rest Hty Hall Hfree.
    unfold call, Router.createAccount. unfold_run.
    change (noFaults 0%nat) with false. cbv iota. rewrite Hty.
    rewrite (@uniqueAccountNumber_redraw _ _ collisions buffer rest
               {| db := d; issued := 1 |} Hall Hfree).
    repeat (unfold_run; cbv beta iota delta [noFaults]).
    unfold Core.collides in Hfree.
    destruct (selectAccountByNumber (Router.generateAccountNumber buffer) d) eqn:E;
      [exfalso; apply Hfree; discriminate|].
    rewrite (selectAccountByNumber_inserted uid ty _ ts d E). reflexivity.
  - intros draws Hty Hall.
    unfold call, Router.createAccount. unfold_run.
    change (noFaults 0%nat) with false. cbv iota. rewrite Hty.
    rewrite (@uniqueAccountNumber_collisions _ _ draws {| db := d; issued := 1 |} Hall).
    reflexivity.
Qed.

End Allocation.

Lemma account_number_allocation_witness :
  let d := Examples.opened in
  let ts := "2026-01-02 09:30:00" in
  call (Router.createAccount Examples.alice savings
          ([Examples.zeroBytes; Examples.zeroBytes] ++ Examples.oneBytes :: []) ts)
       noFaults d
  = (inr (Some (Core.openedAccount Examples.alice savings "1000000001" ts d)),
     insertAccount Examples.alice "1000000001" "savings" 0 "active" ts d)
  /\ call (Router.createAccount Examples.alice savings
             [Examples.zeroBytes; Examples.zeroBytes; Examples.zeroBytes] ts)
          noFaults d
     = (inr None, d).
Proof.
  destruct (account_number_allocation Examples.opened Examples.alice savings
              "2026-01-02 09:30:00") as (_ & Hredraw & Hloop).
  split.
  - apply (Hredraw [Examples.zeroBytes; Examples.zeroBytes] Examples.oneBytes []).
    + reflexivity.
    + repeat constructor; discriminate.
    + intros Hc. apply Hc. reflexivity.
  - apply Hloop.
    + reflexivity.
    + repeat constructor; discriminate.
Defined.

(** C7, as stated, fails: after 101 draws that all collide the call has
    neither returned an account nor failed; it is still drawing. *)
Lemma allocation_ceiling_counterexample :
  call (Router.createAccount Examples.alice savings (repeat Examples.zeroBytes 101)
          "2026-01-02 09:30:00")
       noFaults Examples.opened
  = (inr None, Examples.opened).
Proof. vm_compute. reflexivity. Qed.

(** ** The amount pattern *)

Section AmountPattern.

Lemma takeWhile_dropWhile (p : N -> bool) (s : jsstring) :
  takeWhile p s ++ dropWhile p s = s.
Proof.
  induction s as [|c s IH]; [reflexivity|]. cbn.
  destruct (p c); [cbn; now rewrite IH|reflexivity].
Qed.

Lemma takeWhile_all (p : N -> bool) (s : jsstring) : forallb p (takeWhile p s) = true.
Proof.
  induction s as [|c s IH]; [reflexivity|]. cbn.
  destruct (p c) eqn:E; [cbn; now rewrite E|reflexivity].
Qed.

(** A run of [p]-characters followed by a string that does not start with
    one is split at the seam. *)
Lemma span_app (p : N -> bool) (ds rest : jsstring) :
  forallb p ds = true ->
  hd_error rest = None \/ (exists c, hd_error rest = Some c /\ p c = false) ->
  takeWhile p (ds ++ rest) = ds /\ dropWhile p (ds ++ rest) = rest.
Proof.
  intros Hds Hrest. induction ds as [|d ds IH]; cbn in *.
  - destruct rest as [|c rest]; [now split|].
    destruct Hrest as [Hr|(c' & Hc & Hp)]; [discriminate|].
    cbn in Hc. injection Hc as <-. cbn. now rewrite Hp.
  - apply andb_prop in Hds. destruct Hds as [Hd Hds]. rewrite Hd.
    destruct (IH Hds) as [-> ->]. now split.
Qed.

Lemma allDigits_forallb (ds : jsstring) :
  Spec.allDigits ds <-> forallb isDigit ds = true.
Proof.
  unfold Spec.allDigits. rewrite forallb_forall, Forall_forall. reflexivity.
Qed.

Lemma nonZeroDigit_isDigit (c : N) : isNonZeroDigit c = true -> isDigit c = true.
Proof.
  unfold isNonZeroDigit, isDigit. intros Hc. apply andb_prop in Hc.
  destruct Hc as [H1 H2]. apply N.leb_le in H1. rewrite H2, andb_true_r.
  apply N.leb_le. lia.
Qed.

Lemma fractionTest_spec (s : jsstring) :
  fractionTest s = true <-> Spec.fractionPart s.
Proof.
  unfold Spec.fractionPart. split.
  - destruct s as [|dot [|d1 [|d2 [|d3 s]]]]; cbn; intros Ht; try discriminate.
    + now left.
    + apply andb_prop in Ht. destruct Ht as [Hdot H1]. apply N.eqb_eq in Hdot. subst dot.
      right. exists [d1]. repeat split; cbn; try lia. now repeat constructor.
    + apply andb_prop in Ht. destruct Ht as [Ht H2]. apply andb_prop in Ht.
      destruct Ht as [Hdot H1]. apply N.eqb_eq in Hdot. subst dot.
      right. exists [d1; d2]. repeat split; cbn; try lia. now repeat constructor.
  - intros [->|(ds & -> & [Hlo Hhi] & Hall)]; [reflexivity|].
    destruct ds as [|d1 [|d2 [|d3 ds]]]; cbn in Hlo, Hhi; try lia.
    + inversion Hall as [|? ? H1 _]; subst. cbn. exact H1.
    + inversion Hall as [|? ? H1 Hall']; subst.
      inversion Hall' as [|? ? H2 _]; subst. cbn. now rewrite H1, H2.
Qed.

Lemma fractionPart_head (fp : jsstring) :
  Spec.fractionPart fp ->
  hd_error fp = None \/ (exists c, hd_error fp = Some c /\ isDigit c = false).
Proof.
  intros [->|(ds & -> & _)]; [now left|]. right. exists 46%N. now split.
Qed.

(** The recogniser accepts exactly the strings of the accepted form. *)
Lemma amountTest_grammar (s : jsstring) :
  amountTest s = true <-> Spec.amountGrammar s.
Proof.
  unfold Spec.amountGrammar, Spec.integerPart. split.
  - destruct s as [|c rest]; [discriminate|]. cbn.
    destruct (c =? 48)%N eqn:Ec.
    + apply N.eqb_eq in Ec. subst c. intros Hf.
      exists [48%N], rest. split; [reflexivity|]. split; [now left|].
      now apply fractionTest_spec.
    + destruct (isNonZeroDigit c) eqn:Hc; [|discriminate]. intros Hf.
      exists (c :: takeWhile isDigit rest), (dropWhile isDigit rest).
      split; [cbn; now rewrite takeWhile_dropWhile|]. split.
      * right. exists c, (takeWhile isDigit rest). repeat split; [exact Hc|].
        apply allDigits_forallb, takeWhile_all.
      * now apply fractionTest_spec.
  - intros (ip & fp & -> & Hip & Hfp).
    destruct Hip as [->|(c & ds & -> & Hc & Hds)]; cbn.
    + now apply fractionTest_spec.
    + destruct (c =? 48)%N eqn:Ec.
      * apply N.eqb_eq in Ec. subst c. discriminate.
      * rewrite Hc. apply allDigits_forallb in Hds.
        destruct (span_app isDigit ds fp Hds (fractionPart_head Hfp)) as [_ ->].
        now apply fractionTest_spec.
Qed.

Lemma matches_digit (s : jsstring) :
  matches digit s <-> exists c, s = [c] /\ isDigit c = true.
Proof.
  unfold digit, isDigit. split.
  - intros Hm. inversion Hm; subst. eexists. split; [reflexivity|].
    apply andb_true_intro. split; now apply N.leb_le.
  - intros (c & -> & Hc). apply andb_prop in Hc. destruct Hc as [H1 H2].
    constructor; now apply N.leb_le.
Qed.

Lemma matches_star_digit (s : jsstring) :
  matches (Star digit) s <-> Spec.allDigits s.
Proof.
  split.
  - intros Hm. remember (Star digit) as r eqn:Hr.
    induction Hm; try discriminate.
    + constructor.
    + injection Hr as ->. apply matches_digit in Hm1. destruct Hm1 as (c & -> & Hc).
      constructor; [exact Hc|]. now apply IHHm2.
  - intros Hall. induction Hall as [|c s Hc _ IH].
    + constructor.
    + change (c :: s) with ([c] ++ s). constructor; [|exact IH].
      apply matches_digit. now exists c.
Qed.

Lemma matches_nonzero (s : jsstring) :
  matches (Range 49 57) s <-> exists c, s = [c] /\ isNonZeroDigit c = true.
Proof.
  unfold isNonZeroDigit. split.
  - intros Hm. inversion Hm; subst. eexists. split; [reflexivity|].
    apply andb_true_intro. split; now apply N.leb_le.
  - intros (c & -> & Hc). apply andb_prop in Hc. destruct Hc as [H1 H2].
    constructor; now apply N.leb_le.
Qed.

(** The pattern of the schema denotes the accepted form of the
    specification. *)
Lemma amountPattern_grammar (s : jsstring) :
  matches amountPattern s <-> Spec.amountGrammar s.
Proof.
  unfold amountPattern, Spec.amountGrammar. split.
  - intros Hm. inversion Hm as [| | |? ? ip fp Hip Hfp| | | | | |]; subst.
    exists ip, fp. split; [reflexivity|]. split.
    + inversion Hip as [| | | |? ? ? H0|? ? ? H1| | | |]; subst.
      * inversion H0; subst. now left.
      * inversion H1 as [| | |? ? s1 s2 Hc Hds| | | | | |]; subst.
        apply matches_nonzero in Hc. destruct Hc as (c & -> & Hc).
        right. exists c, s2. split; [reflexivity|]. split; [exact Hc|].
        now apply matches_star_digit.
    + inversion Hfp as [| | | | | |?|? ? Hsome| |]; subst; [now left|].
      inversion Hsome as [| | |? ? s1 s2 Hdot Hds| | | | | |]; subst.
      inversion Hdot; subst.
      inversion Hds as [| | |? ? t1 t2 Hd1 Hd2| | | | | |]; subst.
      apply matches_digit in Hd1. destruct Hd1 as (d1 & -> & H1).
      right. inversion Hd2 as [| | | | | |?|? ? Hd2'| |]; subst.
      * exists [d1]. cbn. repeat split; try lia. now repeat constructor.
      * apply matches_digit in Hd2'. destruct Hd2' as (d2 & -> & H2).
        exists [d1; d2]. cbn. repeat split; try lia. now repeat constructor.
  - intros (ip & fp & -> & Hip & Hfp). constructor.
    + destruct Hip as [->|(c & ds & -> & Hc & Hds)].
      * apply MAltL. constructor.
      * apply MAltR. change (c :: ds) with ([c] ++ ds). constructor.
        -- apply matches_nonzero. now exists c.
        -- now apply matches_star_digit.
    + destruct Hfp as [->|(ds & -> & [Hlo Hhi] & Hall)]; [apply MOptNone|].
      apply MOptSome. change (46%N :: ds) with ([46%N] ++ ds). constructor; [constructor|].
      destruct ds as [|d1 [|d2 [|d3 ds]]]; cbn in Hlo, Hhi; try lia.
      * inversion Hall as [|? ? H1 _]; subst.
        change [d1] with ([d1] ++ []). constructor; [|apply MOptNone].
        apply matches_digit. now exists d1.
      * inversion Hall as [|? ? H1 Hall']; subst.
        inversion Hall' as [|? ? H2 _]; subst.
        change [d1; d2] with ([d1] ++ [d2]). constructor.
        -- apply matches_digit. now exists d1.
        -- apply MOptSome. apply matches_digit. now exists d2.
Qed.

End AmountPattern.

(** ** The value of an accepted amount *)

Section AmountValue.
Context `{Runtime}.

Lemma digitsValue_from (ds : jsstring) :
  forall acc : Z,
    fold_left (fun acc c => 10 * acc + digitValue c)%Z ds acc
    = (acc * 10 ^ Z.of_nat (length ds) + Spec.positional ds)%Z.
Proof.
  induction ds as [|d ds IH]; intros acc; cbn [fold_left length Spec.positional].
  - cbn. lia.
  - rewrite IH, Nat2Z.inj_succ, Z.pow_succ_r by apply Nat2Z.is_nonneg. ring.
Qed.

Lemma digitsValue_positional (ds : jsstring) : digitsValue ds = Spec.positional ds.
Proof. unfold digitsValue. rewrite digitsValue_from. lia. Qed.

Lemma integerPart_digits (ip : jsstring) :
  Spec.integerPart ip -> forallb isDigit ip = true /\ ip <> [].
Proof.
  intros [->|(c & ds & -> & Hc & Hds)]; [now split|]. split; [|discriminate].
  cbn. rewrite (nonZeroDigit_isDigit _ Hc). now apply allDigits_forallb.
Qed.

(** [Number] reads a literal of the accepted form as the value it
    denotes. *)
Lemma Number_amount (ip fp : jsstring) :
  Spec.integerPart ip -> Spec.fractionPart fp ->
  Number (ip ++ fp) = Finite (Spec.amountValue ip fp).
Proof.
  intros Hip Hfp. destruct (integerPart_digits Hip) as [Hds Hne].
  destruct (span_app isDigit ip fp Hds (fractionPart_head Hfp)) as [Ht Hd].
  unfold Number. rewrite Ht, Hd. unfold Spec.amountValue.
  destruct Hfp as [->|(ds & -> & [Hlo Hhi] & Hall)].
  - destruct ip; [contradiction|]. now rewrite digitsValue_positional.
  - apply allDigits_forallb in Hall. rewrite N.eqb_refl, Hall.
    destruct ip; [contradiction|]. cbn [length Nat.eqb andb negb].
    now rewrite !digitsValue_positional.
Qed.

(** A literal of the accepted form denotes a whole number of hundredths. *)
Lemma amountValue_hundredths (ip fp : jsstring) :
  Spec.fractionPart fp -> exists z : Z, Spec.amountValue ip fp == z # 100.
Proof.
  unfold Spec.amountValue. generalize (Spec.positional ip). intros i.
  intros [->|(ds & -> & [Hlo Hhi] & _)].
  - exists (100 * i)%Z. rewrite (Qmake_Qdiv (100 * i) 100), inject_Z_mult.
    change (inject_Z (Z.pos 100)) with (inject_Z 100). field.
  - destruct ds as [|d1 [|d2 [|d3 ds]]]; cbn in Hlo, Hhi; try lia.
    + generalize (Spec.positional [d1]). intros f.
      change (10 ^ Z.of_nat (length [d1]))%Z with 10%Z.
      exists (100 * i + 10 * f)%Z.
      rewrite (Qmake_Qdiv (100 * i + 10 * f) 100), inject_Z_plus, !inject_Z_mult.
      change (inject_Z (Z.pos 100)) with (inject_Z 100).
      change (inject_Z 100) with (100 # 1). change (inject_Z 10) with (10 # 1).
      field.
    + generalize (Spec.positional [d1; d2]). intros f.
      change (10 ^ Z.of_nat (length [d1; d2]))%Z with 100%Z.
      exists (100 * i + f)%Z.
      rewrite (Qmake_Qdiv (100 * i + f) 100), inject_Z_plus, !inject_Z_mult.
      change (inject_Z (Z.pos 100)) with (inject_Z 100).
      change (inject_Z 100) with (100 # 1).
      field.
Qed.

(** [toFixed2] picks a nearest hundredth. *)
Lemma toFixed2_nearest (x : Q) : Qabs (toFixed2 x - x) <= 1 # 200.
Proof.
  apply Qabs_Qle_condition. unfold toFixed2, nearestHundredth.
  destruct (Qle_bool 0 x).
  - pose proof (Qfloor_le (x * 100 + (1 # 2))) as Hlo.
    pose proof (Qlt_floor (x * 100 + (1 # 2))) as Hhi.
    rewrite inject_Z_plus in Hhi.
    rewrite (Qmake_Qdiv (Qfloor (x * 100 + (1 # 2))) 100).
    set (n := inject_Z (Qfloor (x * 100 + (1 # 2)))) in *.
    change (inject_Z (Z.pos 100)) with (100 # 1). change (inject_Z 1) with 1 in Hhi.
    clearbody n. unfold Qdiv. change (/ (100 # 1)) with (1 # 100). split; lra.
  - pose proof (Qfloor_le (- x * 100 + (1 # 2))) as Hlo.
    pose proof (Qlt_floor (- x * 100 + (1 # 2))) as Hhi.
    rewrite inject_Z_plus in Hhi.
    rewrite (Qmake_Qdiv (- Qfloor (- x * 100 + (1 # 2))) 100), inject_Z_opp.
    set (n := inject_Z (Qfloor (- x * 100 + (1 # 2)))) in *.
    change (inject_Z (Z.pos 100)) with (100 # 1). change (inject_Z 1) with 1 in Hhi.
    clearbody n. unfold Qdiv. change (/ (100 # 1)) with (1 # 100). split; lra.
Qed.

End AmountValue.

(** ** The amount normalizer *)

Section Normalizer.
Context `{Runtime}.

Lemma amountSchema_string (s : jsstring) :
  Router.amountSchema (VString s)
  = if amountTest (trim s) then Valid (Number_toFixed2 (Number (trim s)))
    else Dirty [Router.amountFormatIssue].
Proof. reflexivity. Qed.

(** The schema of the amount has three outcomes. *)
Lemma amountSchema_cases (val : jsval) :
  (exists x, Router.amountSchema val = Valid x)
  \/ Router.amountSchema val = Dirty [Router.amountFormatIssue]
  \/ Router.amountSchema val = Aborted [Router.expectedStringIssue].
Proof.
  unfold Router.amountSchema. destruct (Router.preprocess val) as [s|x|].
  - destruct (amountTest s); eauto.
  - now right; right.
  - now right; right.
Qed.

(** A request whose amount the schema rejects fails with the schema's
    issues, one of them on the amount, and writes nothing. *)
Lemma rejected_amount_call (raw : rawFundInput) (fl : oracle) (d : database) (uid : Z)
    (now : string) :
  (forall x, Router.amountSchema (rawAmount raw) <> Valid x) ->
  exists issues,
    call (Router.fundAccount uid now raw) fl d = (inl (ZodError issues), d)
    /\ In InvalidAmount (kindsOf (ZodError issues)).
Proof.
  intros Hrej. unfold call, Router.fundAccount, Router.fundAccountSchema, objectSchema,
    withInput.
  destruct (amountSchema_cases (rawAmount raw)) as [[x Hx]|[Hd|Ha]].
  - exfalso. exact (Hrej x Hx).
  - rewrite Hd. eexists. split; [reflexivity|]. cbn. now left.
  - rewrite Ha. eexists. split; [reflexivity|]. cbn. now left.
Qed.


End Normalizer.



(** ** The balance is the sum of the ledger *)

Section LedgerInvariant.
Context `{Runtime}.

Lemma sum_app (l1 l2 : list Q) :
  fold_right Qplus 0 (l1 ++ l2) == fold_right Qplus 0 l1 + fold_right Qplus 0 l2.
Proof.
  induction l1 as [|x l1 IH]; cbn.
  - ring.
  - rewrite IH. ring.
Qed.

Lemma ledgerSum_app (X : Z) (rows : list transactions.row) (t : transactions.row) :
  Spec.ledgerSum X (rows ++ [t])
  == Spec.ledgerSum X rows
     + (if (transactions.accountId t =? X)%Z && String.eqb (transactions.status t) "completed"
        then transactions.amount t else 0).
Proof.
  unfold Spec.ledgerSum. rewrite filter_app, map_app, sum_app. cbn [filter].
  destruct ((transactions.accountId t =? X)%Z
            && String.eqb (transactions.status t) "completed"); cbn; ring.
Qed.

Lemma ledgerSum_hundredths (X : Z) (rows : list transactions.row) :
  Forall (fun t => Spec.twoDecimals (transactions.amount t)) rows ->
  exists z : Z, Spec.ledgerSum X rows == z # 100.
Proof.
  unfold Spec.ledgerSum. induction 1 as [|t rows [n Hn] _ [z IH]]; cbn [filter].
  - exists 0%Z. reflexivity.
  - destruct ((transactions.accountId t =? X)%Z
              && String.eqb (transactions.status t) "completed").
    + exists (n + z)%Z. cbn [map fold_right]. rewrite IH, Hn. apply hundredths_plus.
    + exists z. exact IH.
Qed.

Lemma ledgerSum_unreferenced (X : Z) (rows : list transactions.row) :
  Forall (fun t => transactions.accountId t <> X) rows ->
  Spec.ledgerSum X rows == 0.
Proof.
  unfold Spec.ledgerSum. induction 1 as [|t rows Hne _ IH]; cbn [filter].
  - reflexivity.
  - destruct (transactions.accountId t =? X)%Z eqn:E.
    + apply Z.eqb_eq in E. contradiction.
    + exact IH.
Qed.

Lemma max_bound (ids : list Z) (x : Z) : In x ids -> (x <= fold_right Z.max 0 ids)%Z.
Proof.
  induction ids as [|y ids IH]; [intros []|]. cbn. intros [->|Hin].
  - apply Z.le_max_l.
  - specialize (IH Hin). lia.
Qed.

(** A new rowid is not in use. *)
Lemma nextRowid_fresh (ids : list Z) : ~ In (nextRowid ids) ids.
Proof.
  intros Hin. apply max_bound in Hin. unfold nextRowid in Hin. lia.
Qed.

Lemma noAccounts_consistent (d : database) : Core.noAccounts d -> Core.consistent d.
Proof.
  intros [Ha Ht]. unfold Core.consistent, Core.balanced. rewrite Ha, Ht.
  repeat split; try constructor. intros a [].
Qed.

(** Opening an account keeps the store consistent: the new account has a
    fresh id, balance zero and no ledger entries. *)
Lemma insertAccount_consistent (d : database) (uid : Z) (number ty ts : string) :
  Core.consistent d ->
  Core.consistent (insertAccount uid number ty 0 "active" ts d).
Proof.
  intros (Hbal & Hamt & Hfk). unfold Core.consistent, Core.balanced, insertAccount.
  cbn [accounts_rows transactions_rows withAccounts]. repeat split.
  - intros a Hin. apply in_app_or in Hin. destruct Hin as [Hin|[<-|[]]].
    + now apply Hbal.
    + cbn [accounts.balance accounts.id].
      rewrite ledgerSum_unreferenced; [reflexivity|].
      rewrite Forall_forall in *. intros t Ht Heq.
      apply (nextRowid_fresh (map accounts.id (accounts_rows d))).
      rewrite <- Heq. now apply Hfk.
  - exact Hamt.
  - rewrite Forall_forall in *. intros t Ht. rewrite map_app. apply in_or_app.
    left. now apply Hfk.
Qed.

Lemma addToBalance_ids (a : Q) (X : Z) (d : database) :
  map accounts.id (accounts_rows (addToBalance a X d)) = map accounts.id (accounts_rows d).
Proof.
  unfold addToBalance. cbn. rewrite map_map. apply map_ext. intros r.
  now destruct (accounts.id r =? X)%Z.
Qed.

(** A funding keeps the store consistent, provided the amount has two
    decimals and the account exists. *)
Lemma funded_consistent (d : database) (X : Z) (a : Q) (src : fundingTypeEnum)
    (now : string) :
  Core.consistent d -> Spec.twoDecimals a -> In X (map accounts.id (accounts_rows d)) ->
  Core.consistent (Ledger.funded X a src now d).
Proof.
  intros (Hbal & Hamt & Hfk) [za Hza] HX. unfold Core.consistent. repeat split.
  - unfold Core.balanced, Ledger.funded.
    cbn [accounts_rows transactions_rows addToBalance insertTransaction
         withAccounts withTransactions].
    intros r' Hin. apply in_map_iff in Hin. destruct Hin as (r & <- & Hin).
    rewrite ledgerSum_app.
    cbn [transactions.accountId transactions.status transactions.amount].
    change (String.eqb "completed" "completed") with true. rewrite andb_true_r.
    specialize (Hbal r Hin).
    destruct (ledgerSum_hundredths (accounts.id r) Hamt) as [z Hz].
    destruct (accounts.id r =? X)%Z eqn:E.
    + cbn [accounts.balance accounts.id accounts.withBalance].
      apply Z.eqb_eq in E. rewrite Z.eqb_sym, E, Z.eqb_refl.
      rewrite (@round2_sum (accounts.balance r) a z za).
      * rewrite <- E, Hz, Hza. symmetry. apply hundredths_plus.
      * now rewrite Hbal, Hz.
      * now rewrite Hza.
    + rewrite Z.eqb_sym, E. rewrite Hbal. ring.
  - unfold Ledger.funded.
    cbn [transactions_rows addToBalance insertTransaction withAccounts withTransactions].
    apply Forall_app. split; [exact Hamt|]. constructor; [|constructor].
    now exists za.
  - unfold Ledger.funded. rewrite addToBalance_ids.
    cbn [transactions_rows accounts_rows addToBalance insertTransaction
         withAccounts withTransactions].
    apply Forall_app. split; [exact Hfk|]. constructor; [exact HX|constructor].
Qed.

(** The amount the router's schema hands over has two decimals. *)
Lemma schema_amount_twoDecimals (raw : rawFundInput) (input : fundInput) (a : Q) :
  Router.fundAccountSchema raw = inr input -> amount input = Finite a ->
  Spec.twoDecimals a.
Proof.
  intros Hs Ha. apply objectSchema_accountId in Hs. destruct Hs as (_ & _ & Hv & _).
  unfold Router.amountSchema in Hv.
  destruct (Router.preprocess (rawAmount raw)) as [s|x|]; try discriminate.
  destruct (amountTest s); [|discriminate]. injection Hv as Hv. rewrite Ha in Hv.
  destruct (Number s) as [q|]; [|discriminate]. cbn in Hv. injection Hv as <-.
  apply toFixed2_twoDecimals.
Qed.

Lemma selectAccountOfUser_in (X uid : Z) (d : database) (r : accounts.row) :
  selectAccountOfUser X uid d = Some r -> In X (map accounts.id (accounts_rows d)).
Proof.
  intros Hf. apply find_some in Hf. destruct Hf as [Hin Hc].
  apply andb_prop in Hc. destruct Hc as [Hc _]. apply Z.eqb_eq in Hc.
  rewrite <- Hc. now apply in_map.
Qed.

(** Every core operation keeps the store consistent, whatever statements
    the oracle refuses. *)
Lemma perform_consistent (step : oracle * Core.operation) (d : database) :
  Core.consistent d -> Core.consistent (Core.perform step d).
Proof.
  intros Hc. destruct step as [fl [uid ty draws ts|uid|uid now raw|uid X]];
    unfold Core.perform; cbn [fst snd].
  - destruct (createAccount_effect fl d uid ty draws ts) as [->|(number & _ & ->)].
    + exact Hc.
    + now apply insertAccount_consistent.
  - now rewrite getAccounts_effect.
  - pose proof (fundAccount_call fl d uid now raw) as Hcall.
    destruct (call (Router.fundAccount uid now raw) fl d) as [[f|res] d']; cbn [snd].
    + now subst d'.
    + destruct Hcall as (input & a & acct & b & Hs & Ha & _ & Hacct & _ & -> & _).
      apply funded_consistent; [exact Hc| |].
      * exact (schema_amount_twoDecimals _ Hs Ha).
      * exact (selectAccountOfUser_in _ _ _ Hacct).
  - pose proof (getTransactions_call fl d uid X) as Hcall.
    destruct (call (Router.getTransactions uid X) fl d) as [[f|l] d']; cbn [snd].
    + now subst d'.
    + destruct Hcall as [-> _]. exact Hc.
Qed.

Lemma performAll_consistent (steps : list (oracle * Core.operation)) :
  forall d, Core.consistent d -> Core.consistent (Core.performAll steps d).
Proof.
  induction steps as [|step steps IH]; intros d Hc; [exact Hc|].
  cbn. apply IH. now apply perform_consistent.
Qed.


End LedgerInvariant.

(** ** Concurrent fundings of one account *)

Section Interleaving.
Context `{Runtime}.
Variables (X : Z) (A : Q).

(** A call for account X with amount A starts in one of the stages. *)
Lemma fundAccount_funding (uid : Z) (now : string) (raw : rawFundInput) :
  Concurrent.fundsWith X A raw ->
  Concurrent.funding X A (Router.fundAccount uid now raw).
Proof.
  intros (HX & input & Hs & Ha).
  pose proof (objectSchema_accountId _ _ Hs) as (Hid & _).
  unfold Router.fundAccount, withInput. rewrite Hs.
  unfold Router.fundAccountHandler. rewrite Ha, Hid, HX.
  destruct (negb (Qle_bool (1 # 100) A)).
  - right. right. left. eauto.
  - left. exists uid, (type (fundingSource input)), now. reflexivity.
Qed.

(** The database transaction either applies both writes or none. *)
Lemma fundTransaction_outcome (fl : oracle) (st : state) (src : fundingTypeEnum)
    (now : string) :
  match sqlite_transaction (Router.fundTransaction X A src now) fl st with
  | (inr res, st') => db st' = Ledger.funded X A src now (db st)
  | (inl e, st') => db st' = db st
  end.
Proof. destruct st as [d n]. run_cases. Qed.

(** One step of one call: it stays within the stages, and either it
    returns, having applied a funding, or it leaves the database as it
    was and has not returned unless it had before. *)
Lemma step_funding (fl : oracle) (t : task fundResult) (st : state) :
  Concurrent.funding X A t ->
  Concurrent.funding X A (fst (Concurrent.step fl t st))
  /\ ((Concurrent.returned t = false
       /\ Concurrent.returned (fst (Concurrent.step fl t st)) = true
       /\ exists src now,
            db (snd (Concurrent.step fl t st)) = Ledger.funded X A src now (db st))
      \/ (Concurrent.returned (fst (Concurrent.step fl t st)) = Concurrent.returned t
          /\ db (snd (Concurrent.step fl t st)) = db st)).
Proof.
  intros [(uid & src & now & ->)|[(src & now & ->)|[[e ->]|[r ->]]]].
  - destruct st as [d n]. unfold Concurrent.step, query, stmt. cbn [db issued].
    destruct (fl n); cbn [fst snd db Concurrent.returned].
    + split; [right; right; left; eauto|]. right. now split.
    + destruct (selectAccountOfUser X uid d) as [acct|].
      * destruct (negb (isActive (accounts.status acct)));
          cbn [Concurrent.returned].
        -- split; [right; right; left; eauto|]. right. now split.
        -- split; [right; left; exists src, now; reflexivity|]. right. now split.
      * split; [right; right; left; eauto|]. right. now split.
  - unfold Concurrent.step.
    pose proof (fundTransaction_outcome fl st src now) as Hout.
    destruct (sqlite_transaction (Router.fundTransaction X A src now) fl st)
      as [[e|res] st']; cbn [fst snd Concurrent.returned].
    + split; [right; right; left; eauto|]. right. now split.
    + split; [right; right; right; eauto|]. left. repeat split. eauto.
  - cbn. split; [right; right; left; eauto|]. right. now split.
  - cbn. split; [right; right; right; eauto|]. right. now split.
Qed.

Variables (B : Q) (d0 : database).
Hypothesis A_hundredths : Spec.hundredths A.
Hypothesis B_hundredths : Spec.hundredths B.

(** One more funding. *)
Lemma funded_afterFundings (k : nat) (d : database) (src : fundingTypeEnum)
    (now : string) :
  Core.afterFundings X A B d0 k d ->
  Core.afterFundings X A B d0 (S k) (Ledger.funded X A src now d).
Proof.
  destruct A_hundredths as [za Hza]. destruct B_hundredths as [zb Hzb].
  intros [(b & Hb & Hbal) (entries & Hrows & Hlen & Hall)]. split.
  - rewrite selectBalance_funded, Hb. cbn [option_map]. eexists. split; [reflexivity|].
    assert (Hbz : b == (zb + Z.of_nat k * za) # 100).
    { rewrite Hbal, Hzb, Hza. rewrite (Qmake_Qdiv zb 100), (Qmake_Qdiv za 100),
        (Qmake_Qdiv (zb + Z.of_nat k * za) 100), inject_Z_plus, inject_Z_mult.
      field. }
    rewrite (round2_sum Hbz Hza), Hzb, Hza, Nat2Z.inj_succ.
    rewrite (Qmake_Qdiv zb 100), (Qmake_Qdiv za 100),
      (Qmake_Qdiv (zb + Z.of_nat k * za + za) 100), !inject_Z_plus, inject_Z_mult.
    unfold Z.succ. rewrite inject_Z_plus. field.
  - exists (entries ++ [Ledger.ledgerRow X A src now now d]). split.
    + unfold Ledger.funded.
      cbn [transactions_rows addToBalance insertTransaction withAccounts withTransactions].
      rewrite app_assoc, <- Hrows. reflexivity.
    + split.
      * rewrite length_app, Hlen. cbn. lia.
      * apply Forall_app. split; [exact Hall|]. repeat constructor.
Qed.

Lemma replace_length {T} (i : nat) (x : T) (l : list T) :
  length (Concurrent.replace i x l) = length l.
Proof.
  revert i. induction l as [|y l IH]; intros [|i]; cbn; auto.
Qed.

Lemma replace_Forall {T} (P : T -> Prop) (i : nat) (x : T) (l : list T) :
  Forall P l -> P x -> Forall P (Concurrent.replace i x l).
Proof.
  intros Hl Hx. revert i. induction Hl as [|y l Hy Hl IH]; intros [|i]; cbn;
    constructor; auto.
Qed.

Lemma replace_count {T} (i : nat) (t t' : task T) (pool : list (task T)) :
  nth_error pool i = Some t ->
  (Concurrent.returned t' = Concurrent.returned t ->
   Concurrent.countReturned (Concurrent.replace i t' pool)
   = Concurrent.countReturned pool)
  /\ (Concurrent.returned t = false -> Concurrent.returned t' = true ->
      Concurrent.countReturned (Concurrent.replace i t' pool)
      = S (Concurrent.countReturned pool)).
Proof.
  unfold Concurrent.countReturned. revert i.
  induction pool as [|y pool IH]; intros [|i] Hnth; cbn in Hnth; try discriminate.
  - injection Hnth as ->. cbn [Concurrent.replace filter]. split.
    + intros Heq. rewrite Heq. now destruct (Concurrent.returned t).
    + intros Hf Ht. now rewrite Hf, Ht.
  - destruct (IH i Hnth) as [IH1 IH2]. cbn [Concurrent.replace filter]. split.
    + intros Heq. destruct (Concurrent.returned y); cbn [length]; now rewrite IH1.
    + intros Hf Ht. destruct (Concurrent.returned y); cbn [length]; now rewrite IH2.
Qed.

(** Along any schedule the database is the initial one after as many
    fundings as there are calls that have returned. *)
Lemma runSchedule_afterFundings (fl : oracle) (schedule : list nat) :
  forall (pool : list (task fundResult)) (st : state),
    Forall (Concurrent.funding X A) pool ->
    Core.afterFundings X A B d0 (Concurrent.countReturned pool) (db st) ->
    Forall (Concurrent.funding X A) (fst (Concurrent.runSchedule fl schedule pool st))
    /\ length (fst (Concurrent.runSchedule fl schedule pool st)) = length pool
    /\ Core.afterFundings X A B d0
         (Concurrent.countReturned (fst (Concurrent.runSchedule fl schedule pool st)))
         (db (snd (Concurrent.runSchedule fl schedule pool st))).
Proof.
  induction schedule as [|i schedule IH]; intros pool st Hpool Hinv;
    cbn [Concurrent.runSchedule].
  - cbn [fst snd]. split; [exact Hpool|]. split; [reflexivity|exact Hinv].
  - destruct (nth_error pool i) as [t|] eqn:Hnth; [|now apply IH].
    assert (Ht : Concurrent.funding X A t).
    { rewrite Forall_forall in Hpool. apply Hpool. eapply nth_error_In. exact Hnth. }
    pose proof (step_funding fl st Ht) as [Ht' Hstep].
    destruct (Concurrent.step fl t st) as [t' st']. cbn [fst snd] in *.
    destruct (@replace_count _ i t t' pool Hnth) as [Hsame Hmore].
    specialize (IH (Concurrent.replace i t' pool) st'
                   (@replace_Forall _ _ i t' pool Hpool Ht')).
    rewrite replace_length in IH. apply IH.
    destruct Hstep as [(Hf & Hr & src & now & ->)|[Hr ->]].
    + rewrite (Hmore Hf Hr). now apply funded_afterFundings.
    + now rewrite (Hsame Hr).
Qed.

End Interleaving.

Section Serialization.
Context `{Runtime}.

Lemma fundAccount_not_returned (X : Z) (A : Q) (uid : Z) (now : string)
    (raw : rawFundInput) :
  Concurrent.fundsWith X A raw ->
  Concurrent.returned (Router.fundAccount uid now raw) = false.
Proof.
  intros (HX & input & Hs & Ha).
  unfold Router.fundAccount, withInput. rewrite Hs.
  unfold Router.fundAccountHandler. rewrite Ha.
  now destruct (negb (Qle_bool (1 # 100) A)).
Qed.

Lemma succeeded_count {T} (pool : list (task T)) :
  Forall Concurrent.succeeded pool -> Concurrent.countReturned pool = length pool.
Proof.
  unfold Concurrent.countReturned. induction 1 as [|t pool [a ->] _ IH]; cbn.
  - reflexivity.
  - now rewrite IH.
Qed.

Lemma runSchedule_nil {T} (fl : oracle) (schedule : list nat) (st : state) :
  Concurrent.runSchedule fl schedule (@nil (task T)) st = ([], st).
Proof.
  induction schedule as [|i schedule IH]; [reflexivity|].
  cbn [Concurrent.runSchedule]. now destruct i.
Qed.

Lemma hundredths_round2 (x : Q) : Spec.hundredths x -> round2 x == x.
Proof.
  intros [z Hz]. unfold round2. rewrite (toFixed2_exact Hz). now rewrite Hz.
Qed.

Lemma hundredths_linear (B A : Q) (k : nat) :
  Spec.hundredths B -> Spec.hundredths A ->
  Spec.hundredths (B + inject_Z (Z.of_nat k) * A).
Proof.
  intros [zb Hzb] [za Hza]. exists (zb + Z.of_nat k * za)%Z.
  rewrite Hzb, Hza. rewrite (Qmake_Qdiv zb 100), (Qmake_Qdiv za 100),
    (Qmake_Qdiv (zb + Z.of_nat k * za) 100), inject_Z_plus, inject_Z_mult.
  field.
Qed.


End Serialization.


(** C1 (failing input).  In the non-transactional copy two concurrent
    fundings of 1.00 each into an account with balance 0.00, interleaved at
    their awaits, both return, and two ledger entries exist, but the balance
    ends at 1.00 instead of 2.00: the second call overwrites the balance
    with one computed from the account row it read before the first call
    wrote. *)
Theorem two_step_lost_update :
  let pool :=
    [ TwoStep.fundAccount Examples.alice "2026-01-02T10:00:00.000Z" "2026-01-02 10:00:00"
        (Examples.numericRequest 1 1 Examples.cardSource);
      TwoStep.fundAccount Examples.alice "2026-01-02T10:00:00.001Z" "2026-01-02 10:00:00"
        (Examples.numericRequest 1 1 Examples.cardSource) ] in
  let final := Concurrent.runSchedule noFaults [0; 1; 0; 1; 0; 1; 0; 1]%nat pool
                 {| db := Examples.opened; issued := 0 |} in
  Forall Concurrent.succeeded (fst final)
  /\ selectBalance 1 (db (snd final)) = Some (100 # 100)
  /\ ~ (100 # 100 == round2 (0 + inject_Z (Z.of_nat 2) * (100 # 100)))
  /\ length (selectTransactionsOf 1 (db (snd final))) = 2%nat.
Proof.
  vm_compute. split; [repeat constructor; eexists; reflexivity|].
  split; [reflexivity|]. split; [discriminate|reflexivity].
Qed.


(** ** The frame of the non-transactional copy *)

Section TwoStepFrame.

(** A successful call of the copy's [fundAccount] has appended one ledger
    row for the account and set the balance of the account rows of that id;
    a failed call has written nothing, or the ledger row alone, or both. *)
Lemma two_step_fundAccount_call (fl : oracle) (d : database) (uid : Z)
    (now ts : string) (raw : rawFundInput) :
  match call (TwoStep.fundAccount uid now ts raw) fl d with
  | (inr res, d') =>
      exists a,
        d' = setBalance (newBalance res) (rawAccountId raw)
               (insertTransaction (rawAccountId raw) "deposit" a
                  (Ledger.fundingDescription (type (rawFundingSource raw)))
                  "completed" now ts d)
  | (inl f, d') =>
      d' = d
      \/ exists a,
           d' = insertTransaction (rawAccountId raw) "deposit" a
                  (Ledger.fundingDescription (type (rawFundingSource raw)))
                  "completed" now ts d
           \/ exists b,
                d' = setBalance b (rawAccountId raw)
                       (insertTransaction (rawAccountId raw) "deposit" a
                          (Ledger.fundingDescription (type (rawFundingSource raw)))
                          "completed" now ts d)
  end.
Proof.
  unfold call, TwoStep.fundAccount, withInput.
  destruct (TwoStep.fundAccountSchema raw) as [issues|input] eqn:Hs; [now left|].
  apply objectSchema_accountId in Hs. destruct Hs as (Hid & Hsrc & _).
  unfold TwoStep.fundAccountHandler. rewrite Hid, Hsrc.
  destruct (amount input) as [q|]; [|now left].
  destruct (negb (Qle_bool (1 # 100) (toFixed2 q))); [now left|].
  unfold_run. destruct (fl 0%nat); [now left|].
  destruct (selectAccountOfUser (rawAccountId raw) uid d) as [acct|]; [|now left].
  destruct (negb (isActive (accounts.status acct))); [now left|].
  unfold_run. destruct (fl 1%nat); unfold_run; [now left|].
  destruct (fl 2%nat); unfold_run; [right; eauto|].
  destruct (fl 3%nat); unfold_run; cbn [report newBalance]; [right|]; eauto.
Qed.

Lemma setBalance_accounts (X : Z) (b : Q) (d : database) :
  Forall2 (fun r r' => Ledger.sameButBalance r r' /\ (accounts.id r <> X -> r' = r))
          (accounts_rows d) (accounts_rows (setBalance b X d)).
Proof.
  unfold setBalance. cbn.
  induction (accounts_rows d) as [|r rows IH]; cbn; constructor; auto.
  destruct (accounts.id r =? X)%Z eqn:E.
  - split; [repeat split|]. intros Hne. apply Z.eqb_eq in E. contradiction.
  - split; [repeat split|]. reflexivity.
Qed.

(** The frame of a successful funding holds for the copy as well. *)
Lemma two_step_fundAccount_frame (fl : oracle) (d d' : database) (uid : Z)
    (now ts : string) (raw : rawFundInput) (res : fundResult) :
  call (TwoStep.fundAccount uid now ts raw) fl d = (inr res, d') ->
  (exists row, transactions_rows d' = transactions_rows d ++ [row]
               /\ transactions.accountId row = rawAccountId raw)
  /\ users_rows d' = users_rows d
  /\ sessions_rows d' = sessions_rows d
  /\ Forall2 (fun r r' => Ledger.sameButBalance r r'
                          /\ (accounts.id r <> rawAccountId raw -> r' = r))
             (accounts_rows d) (accounts_rows d').
Proof.
  intros Hcall. pose proof (two_step_fundAccount_call fl d uid now ts raw) as Hc.
  rewrite Hcall in Hc. destruct Hc as [a ->]. repeat split.
  - eexists. split; reflexivity.
  - apply (setBalance_accounts (rawAccountId raw) (newBalance res)
             (insertTransaction _ _ _ _ _ _ _ d)).
Qed.

End TwoStepFrame.

(** ** The routing-number pattern *)

Section RoutingPattern.

Lemma matches_digit_then (r : regex) (s : jsstring) :
  matches (Seq digit r) s
  <-> exists c rest, s = c :: rest /\ isDigit c = true /\ matches r rest.
Proof.
  split.
  - intros Hm. inversion Hm as [| | |? ? s1 s2 Hd Hr| | | | | |]; subst.
    apply matches_digit in Hd. destruct Hd as (c & -> & Hc).
    exists c, s2. now repeat split.
  - intros (c & rest & -> & Hc & Hr). change (c :: rest) with ([c] ++ rest).
    constructor; [|exact Hr]. apply matches_digit. now exists c.
Qed.

(** The recogniser of the routing number accepts what the pattern
    matches: nine digits. *)
Lemma routingTest_matches (s : jsstring) :
  routingTest s = true <-> matches routingPattern s.
Proof.
  unfold routingTest, routingPattern. split.
  - intros Ht. apply andb_prop in Ht. destruct Ht as [Hlen Hall].
    apply Nat.eqb_eq in Hlen.
    do 9 (destruct s as [|? s]; [discriminate|]). destruct s; [|discriminate].
    cbn in Hall.
    repeat (apply andb_prop in Hall; destruct Hall as [? Hall]).
    repeat (apply matches_digit_then; eexists; eexists;
            split; [reflexivity|]; split; [eassumption|]).
    apply matches_digit. eexists. split; [reflexivity|assumption].
  - intros Hm.
    repeat (apply matches_digit_then in Hm; destruct Hm as (? & ? & -> & ? & Hm)).
    apply matches_digit in Hm. destruct Hm as (? & -> & ?).
    cbn. repeat (apply andb_true_intro; split; try assumption). reflexivity.
Qed.

End RoutingPattern.

(* ================================================================== *)
(** * Part III: further properties of the account router *)
(* ================================================================== *)

(** ** What a call of createAccount amounts to *)

Section OpeningOutcome.

(** The loop and what follows it, whatever the oracle: a returned account
    is the row inserted under a drawn number that no account had; a call
    that fails may still have inserted that row (the insert went through,
    the read-back was refused). *)

Lemma uniqueAccountNumber_outcome (fl : oracle) (uid : Z) (ty : accountTypeEnum)
    (ts : string) (draws : list (list Byte.byte)) :
  forall st,
    match run (Router.uniqueAccountNumber draws (Router.insertAndFetch uid ty ts)) fl st with
    | (inr (Some acct), st') =>
        exists buffer,
          In buffer draws
          /\ selectAccountByNumber (Router.generateAccountNumber buffer) (db st) = None
          /\ db st' = insertAccount uid (Router.generateAccountNumber buffer)
                        (accountTypeName ty) 0 "active" ts (db st)
          /\ acct = Core.openedAccount uid ty (Router.generateAccountNumber buffer) ts (db st)
    | (inr None, st') => db st' = db st
    | (inl e, st') =>
        db st' = db st
        \/ exists number,
             selectAccountByNumber number (db st) = None
             /\ db st' = insertAccount uid number (accountTypeName ty) 0 "active" ts (db st)
    end.
Proof.
  induction draws as [|buffer draws IH]; intros [d n].
  - reflexivity.
  - unfold_run. destruct (fl n); [now left|].
    destruct (selectAccountByNumber (Router.generateAccountNumber buffer) d) eqn:Hsel.
    + specialize (IH {| db := d; issued := S n |}).
      destruct (run _ fl {| db := d; issued := S n |}) as [[e|[acct|]] st']; cbn [db] in *.
      * exact IH.
      * destruct IH as (b & Hin & IH). exists b. split; [now right|exact IH].
      * exact IH.
    + unfold_run. destruct (fl (S n)); unfold_run; [now left|].
      destruct (fl (S (S n))); unfold_run; [right; eauto|].
      rewrite (selectAccountByNumber_inserted uid ty _ ts _ Hsel). unfold_run.
      exists buffer. cbn [db]. repeat split; auto. now left.
Qed.

Lemma createAccount_outcome (fl : oracle) (d : database) (uid : Z) (ty : accountTypeEnum)
    (draws : list (list Byte.byte)) (ts : string) :
  match call (Router.createAccount uid ty draws ts) fl d with
  | (inr (Some acct), d') =>
      exists buffer,
        In buffer draws
        /\ selectAccountOfType uid (accountTypeName ty) d = None
        /\ selectAccountByNumber (Router.generateAccountNumber buffer) d = None
        /\ d' = insertAccount uid (Router.generateAccountNumber buffer)
                  (accountTypeName ty) 0 "active" ts d
        /\ acct = Core.openedAccount uid ty (Router.generateAccountNumber buffer) ts d
  | (inr None, d') => d' = d
  | (inl f, d') =>
      d' = d
      \/ exists number,
           selectAccountOfType uid (accountTypeName ty) d = None
           /\ selectAccountByNumber number d = None
           /\ d' = insertAccount uid number (accountTypeName ty) 0 "active" ts d
  end.
Proof.
  unfold call, Router.createAccount. unfold_run.
  destruct (fl 0%nat); [now left|].
  destruct (selectAccountOfType uid (accountTypeName ty) d) eqn:Hty; [now left|].
  pose proof (uniqueAccountNumber_outcome fl uid ty ts draws {| db := d; issued := 1 |}) as Hl.
  destruct (run _ fl {| db := d; issued := 1 |}) as [[e|[acct|]] st']; cbn [db report] in *.
  - destruct e; (destruct Hl as [Hl|(number & Hn & Hl)]; [now left|right; eauto]).
  - destruct Hl as (b & Hin & Hn & Hd & Ha). exists b. auto.
  - exact Hl.
Qed.

End OpeningOutcome.

(** ** Balances only grow *)

Section Monotone.
Context `{Runtime}.

Lemma Forall2_map_r {A} (R : A -> A -> Prop) (g : A -> A) (l : list A) :
  (forall x, R x (g x)) -> Forall2 R l (map g l).
Proof. intros HR. induction l; cbn; constructor; auto. Qed.

Lemma Forall2_refl {A} (R : A -> A -> Prop) (l : list A) :
  (forall x, R x x) -> Forall2 R l l.
Proof. intros HR. induction l; constructor; auto. Qed.

Lemma Forall2_trans {A} (R : A -> A -> Prop) :
  (forall x y z, R x y -> R y z -> R x z) ->
  forall l1 l2 l3, Forall2 R l1 l2 -> Forall2 R l2 l3 -> Forall2 R l1 l3.
Proof.
  intros HR l1 l2 l3 H12. revert l3.
  induction H12 as [|x y l1 l2 Hxy _ IH]; intros l3 H23; inversion H23; subst.
  - constructor.
  - constructor; eauto.
Qed.

Lemma sameButBalance_refl (r : accounts.row) : Ledger.sameButBalance r r.
Proof. repeat split. Qed.

Lemma sameButBalance_trans (r1 r2 r3 : accounts.row) :
  Ledger.sameButBalance r1 r2 -> Ledger.sameButBalance r2 r3 ->
  Ledger.sameButBalance r1 r3.
Proof.
  unfold Ledger.sameButBalance. intros (?&?&?&?&?&?) (?&?&?&?&?&?).
  repeat split; congruence.
Qed.

Lemma noBalanceLower_refl (d : database) : Integrity.noBalanceLower d d.
Proof.
  exists (accounts_rows d), []. split; [now rewrite app_nil_r|].
  apply Forall2_refl. intros r. split; [apply sameButBalance_refl|apply Qle_refl].
Qed.

Lemma noBalanceLower_trans (d1 d2 d3 : database) :
  Integrity.noBalanceLower d1 d2 -> Integrity.noBalanceLower d2 d3 ->
  Integrity.noBalanceLower d1 d3.
Proof.
  intros (k1 & e1 & H1 & F1) (k2 & e2 & H2 & F2). rewrite H1 in F2.
  apply Forall2_app_inv_l in F2. destruct F2 as (k2a & k2b & Fa & Fb & ->).
  exists k2a, (k2b ++ e2). split; [now rewrite H2, app_assoc|].
  refine (Forall2_trans _ F1 Fa).
  intros x y z [Sxy Lxy] [Syz Lyz]. split.
  - exact (sameButBalance_trans Sxy Syz).
  - exact (Qle_trans _ _ _ Lxy Lyz).
Qed.

(** Rounding a sum to hundredths cannot fall below the first summand when
    the second is a cent or more. *)
Lemma round2_grows (b a : Q) : (1 # 100) <= a -> b < round2 (b + a).
Proof.
  intros Ha. unfold round2.
  pose proof (toFixed2_nearest (b + a)) as Hn.
  apply Qabs_Qle_condition in Hn. destruct Hn as [Hl _]. lra.
Qed.

Lemma funded_noBalanceLower (d : database) (X : Z) (a : Q) (src : fundingTypeEnum)
    (now : string) :
  (1 # 100) <= a -> Integrity.noBalanceLower d (Ledger.funded X a src now d).
Proof.
  intros Ha. exists (accounts_rows (Ledger.funded X a src now d)), [].
  split; [now rewrite app_nil_r|].
  unfold Ledger.funded, addToBalance.
  cbn [accounts_rows insertTransaction withAccounts withTransactions].
  apply Forall2_map_r. intros r. destruct (accounts.id r =? X)%Z.
  - split; [repeat split|]. cbn [accounts.balance accounts.withBalance].
    apply Qlt_le_weak. now apply round2_grows.
  - split; [apply sameButBalance_refl|apply Qle_refl].
Qed.

Lemma perform_noBalanceLower (step : oracle * Core.operation) (d : database) :
  Integrity.noBalanceLower d (Core.perform step d).
Proof.
  destruct step as [fl [uid ty draws ts|uid|uid now raw|uid X]];
    unfold Core.perform; cbn [fst snd].
  - destruct (createAccount_effect fl d uid ty draws ts) as [->|(number & _ & ->)].
    + apply noBalanceLower_refl.
    + exists (accounts_rows d), [Core.openedAccount uid ty number ts d].
      split; [reflexivity|]. apply Forall2_refl. intros r.
      split; [apply sameButBalance_refl|apply Qle_refl].
  - rewrite getAccounts_effect. apply noBalanceLower_refl.
  - pose proof (fundAccount_call fl d uid now raw) as Hcall.
    destruct (call (Router.fundAccount uid now raw) fl d) as [[f|res] d']; cbn [snd].
    + subst d'. apply noBalanceLower_refl.
    + destruct Hcall as (input & a & acct & b & Hs & Ha & Hle & Hacct & _ & -> & _).
      apply funded_noBalanceLower. now apply Qle_bool_iff.
  - pose proof (getTransactions_call fl d uid X) as Hcall.
    destruct (call (Router.getTransactions uid X) fl d) as [[f|l] d']; cbn [snd].
    + subst d'. apply noBalanceLower_refl.
    + destruct Hcall as [-> _]. apply noBalanceLower_refl.
Qed.

Lemma performAll_noBalanceLower (steps : list (oracle * Core.operation)) :
  forall d, Integrity.noBalanceLower d (Core.performAll steps d).
Proof.
  induction steps as [|step steps IH]; intros d; [apply noBalanceLower_refl|].
  cbn. eapply noBalanceLower_trans; [apply perform_noBalanceLower|apply IH].
Qed.


End Monotone.

(** ** Keys of the accounts table *)

Section Keys.
Context `{Runtime}.

Lemma createAccount_effect_keys (fl : oracle) (d : database) (uid : Z)
    (ty : accountTypeEnum) (draws : list (list Byte.byte)) (ts : string) :
  let d' := snd (call (Router.createAccount uid ty draws ts) fl d) in
  d' = d
  \/ exists number,
       selectAccountOfType uid (accountTypeName ty) d = None
       /\ selectAccountByNumber number d = None
       /\ d' = insertAccount uid number (accountTypeName ty) 0 "active" ts d.
Proof.
  cbn zeta. pose proof (createAccount_outcome fl d uid ty draws ts) as Ho.
  destruct (call (Router.createAccount uid ty draws ts) fl d) as [[f|[acct|]] d'];
    cbn [snd].
  - exact Ho.
  - destruct Ho as (b & _ & Hty & Hn & Hd & _). right. eauto.
  - now left.
Qed.

Lemma NoDup_snoc {A} (l : list A) (x : A) : NoDup l -> ~ In x l -> NoDup (l ++ [x]).
Proof.
  intros Hl Hx. apply NoDup_app; [exact Hl|repeat constructor; intros []|].
  intros y Hy [<-|[]]. now apply Hx.
Qed.

Lemma insertAccount_wellKeyed (d : database) (uid : Z) (number ty ts : string) :
  selectAccountOfType uid ty d = None ->
  selectAccountByNumber number d = None ->
  Integrity.wellKeyed d ->
  Integrity.wellKeyed (insertAccount uid number ty 0 "active" ts d).
Proof.
  intros Hty Hn (Hid & Hnum & Hhold). unfold Integrity.wellKeyed, insertAccount.
  cbn [accounts_rows withAccounts]. rewrite !map_app. cbn [map].
  repeat split; apply NoDup_snoc; auto.
  - apply nextRowid_fresh.
  - cbn [accounts.accountNumber]. intros Hin. apply in_map_iff in Hin.
    destruct Hin as (a & Ha & Hin).
    pose proof (find_none _ _ Hn a Hin) as Hf. cbn in Hf.
    rewrite Ha, String.eqb_refl in Hf. discriminate.
  - unfold Integrity.holding at 1. cbn [accounts.userId accounts.accountType].
    intros Hin. apply in_map_iff in Hin. destruct Hin as (a & Ha & Hin).
    pose proof (find_none _ _ Hty a Hin) as Hf. cbn in Hf.
    unfold Integrity.holding in Ha. injection Ha as Hu Ht.
    rewrite Hu, Ht, Z.eqb_refl, String.eqb_refl in Hf. discriminate.
Qed.

Lemma funded_accounts_rows (d : database) (X : Z) (a : Q) (src : fundingTypeEnum)
    (now : string) :
  accounts_rows (Ledger.funded X a src now d)
  = map (fun r => if (accounts.id r =? X)%Z
                  then accounts.withBalance (round2 (accounts.balance r + a)) r
                  else r)
        (accounts_rows d).
Proof. reflexivity. Qed.

Lemma funded_wellKeyed (d : database) (X : Z) (a : Q) (src : fundingTypeEnum)
    (now : string) :
  Integrity.wellKeyed d -> Integrity.wellKeyed (Ledger.funded X a src now d).
Proof.
  intros (Hid & Hnum & Hhold). unfold Integrity.wellKeyed.
  rewrite funded_accounts_rows, !map_map.
  repeat split.
  - erewrite map_ext; [exact Hid|]. intros r. now destruct (accounts.id r =? X)%Z.
  - erewrite map_ext; [exact Hnum|]. intros r. now destruct (accounts.id r =? X)%Z.
  - erewrite map_ext; [exact Hhold|]. intros r. now destruct (accounts.id r =? X)%Z.
Qed.

Lemma funded_allActive (d : database) (X : Z) (a : Q) (src : fundingTypeEnum)
    (now : string) :
  Integrity.allActive d -> Integrity.allActive (Ledger.funded X a src now d).
Proof.
  unfold Integrity.allActive. rewrite funded_accounts_rows.
  rewrite !Forall_forall. intros Hall r' Hin. apply in_map_iff in Hin.
  destruct Hin as (r & <- & Hin). specialize (Hall r Hin).
  now destruct (accounts.id r =? X)%Z.
Qed.

Lemma perform_keys (step : oracle * Core.operation) (d : database) :
  Integrity.wellKeyed d /\ Integrity.allActive d ->
  Integrity.wellKeyed (Core.perform step d) /\ Integrity.allActive (Core.perform step d).
Proof.
  intros [Hk Ha]. destruct step as [fl [uid ty draws ts|uid|uid now raw|uid X]];
    unfold Core.perform; cbn [fst snd].
  - destruct (createAccount_effect_keys fl d uid ty draws ts)
      as [->|(number & Hty & Hn & ->)]; [now split|]. split.
    + now apply insertAccount_wellKeyed.
    + unfold Integrity.allActive, insertAccount. cbn [accounts_rows withAccounts].
      apply Forall_app. split; [exact Ha|]. now repeat constructor.
  - now rewrite getAccounts_effect.
  - pose proof (fundAccount_call fl d uid now raw) as Hcall.
    destruct (call (Router.fundAccount uid now raw) fl d) as [[f|res] d']; cbn [snd].
    + now subst d'.
    + destruct Hcall as (input & a & acct & b & _ & _ & _ & _ & _ & -> & _).
      split; [now apply funded_wellKeyed|now apply funded_allActive].
  - pose proof (getTransactions_call fl d uid X) as Hcall.
    destruct (call (Router.getTransactions uid X) fl d) as [[f|l] d']; cbn [snd].
    + now subst d'.
    + destruct Hcall as [-> _]. now split.
Qed.

Lemma performAll_keys (steps : list (oracle * Core.operation)) :
  forall d,
    Integrity.wellKeyed d /\ Integrity.allActive d ->
    Integrity.wellKeyed (Core.performAll steps d)
    /\ Integrity.allActive (Core.performAll steps d).
Proof.
  induction steps as [|step steps IH]; intros d Hd; [exact Hd|].
  cbn. apply IH. now apply perform_keys.
Qed.

(** The only way to the not-active failure is an account that is found
    and is not active. *)
Lemma fundAccount_notActive_only (fl : oracle) (d d' : database) (uid : Z)
    (now : string) (raw : rawFundInput) :
  call (Router.fundAccount uid now raw) fl d = (inl accountNotActive, d') ->
  exists acct,
    selectAccountOfUser (rawAccountId raw) uid d = Some acct
    /\ isActive (accounts.status acct) = false.
Proof.
  unfold call, Router.fundAccount, withInput.
  destruct (Router.fundAccountSchema raw) as [issues|input] eqn:Hs; [discriminate|].
  apply objectSchema_accountId in Hs. destruct Hs as (Hid & _). rewrite <- Hid.
  unfold Router.fundAccountHandler.
  destruct (amount input) as [a|]; [|discriminate].
  destruct (Qle_bool (1 # 100) a); [|discriminate].
  unfold_run. destruct (fl 0%nat); [discriminate|].
  destruct (selectAccountOfUser (accountId input) uid d) as [acct|]; [|discriminate].
  destruct (isActive (accounts.status acct)) eqn:Hact; [|intros _; eauto].
  cbn [negb]. unfold_run.
  repeat (match goal with
          | |- context [if ?fl ?n then _ else _] => destruct (fl n)
          | |- context [match ?x with Some _ => _ | None => _ end] => destruct x
          end; unfold_run; try discriminate).
Qed.


End Keys.

(** ** One account per user and type *)

Section OnePerType.
Context `{Runtime}.

Lemma createAccount_conflict (fl : oracle) (d : database) (uid : Z) (ty : accountTypeEnum)
    (draws : list (list Byte.byte)) (ts : string) :
  selectAccountOfType uid (accountTypeName ty) d <> None ->
  fl 0%nat = false ->
  call (Router.createAccount uid ty draws ts) fl d = (inl (Integrity.duplicateType ty), d).
Proof.
  intros Hex Hfl. unfold call, Router.createAccount. unfold_run. rewrite Hfl.
  destruct (selectAccountOfType uid (accountTypeName ty) d); [reflexivity|].
  now contradiction Hex.
Qed.

Lemma find_Forall2 {A} (R : A -> A -> Prop) (p : A -> bool) (l l' : list A) :
  (forall x y, R x y -> p x = p y) ->
  Forall2 R l l' -> find p l <> None -> find p l' <> None.
Proof.
  intros Hp HF. induction HF as [|x y l l' Hxy _ IH]; cbn; [auto|].
  rewrite <- (Hp x y Hxy). destruct (p x); [discriminate|exact IH].
Qed.

Lemma selectAccountOfType_kept (d d' : database) (uid : Z) (ty : string) :
  Integrity.noBalanceLower d d' ->
  selectAccountOfType uid ty d <> None -> selectAccountOfType uid ty d' <> None.
Proof.
  intros (kept & extra & Hrows & HF) Hsel. unfold selectAccountOfType in *.
  rewrite Hrows.
  assert (Hk : find (fun a => (accounts.userId a =? uid)%Z
                              && String.eqb (accounts.accountType a) ty) kept <> None).
  { refine (find_Forall2 _ _ HF Hsel).
    intros x y [(_ & Hu & _ & Ht & _) _]. cbn. now rewrite Hu, Ht. }
  destruct (find _ kept) as [r|] eqn:E; [|now contradiction Hk].
  now rewrite (find_app_some _ _ extra E).
Qed.

(** X6.  Once createAccount has returned an account of a type to a user,
    every later createAccount of that type by that user whose lookup is
    answered fails with CONFLICT and writes nothing, whatever operations
    ran in between. *)
Theorem createAccount_once_per_type (fl0 fl : oracle) (d0 d1 : database) (uid : Z)
    (ty : accountTypeEnum) (draws0 draws : list (list Byte.byte)) (ts0 ts : string)
    (acct : accounts.row) (between : list (oracle * Core.operation)) :
  call (Router.createAccount uid ty draws0 ts0) fl0 d0 = (inr (Some acct), d1) ->
  fl 0%nat = false ->
  call (Router.createAccount uid ty draws ts) fl (Core.performAll between d1)
  = (inl (Integrity.duplicateType ty), Core.performAll between d1)
  /\ kindsOf (Integrity.duplicateType ty) = [DuplicateAccountType].
Proof.
  intros Hcall Hfl. split; [|reflexivity].
  apply createAccount_conflict; [|exact Hfl].
  eapply selectAccountOfType_kept; [apply performAll_noBalanceLower|].
  pose proof (createAccount_outcome fl0 d0 uid ty draws0 ts0) as Ho.
  rewrite Hcall in Ho. destruct Ho as (b & _ & Hty & Hn & -> & _).
  unfold selectAccountOfType, insertAccount. cbn [accounts_rows withAccounts].
  rewrite (find_app_none _ _ _ Hty). cbn.
  now rewrite Z.eqb_refl, String.eqb_refl.
Qed.

End OnePerType.

(** ** Listing accounts *)

Section ListingAccounts.

(** X8.  getAccounts returns the rows of the accounts table whose user
    is the caller, all of them and no others, in table order, and writes
    nothing, whether it returns or fails. *)
Theorem getAccounts_own_accounts (fl : oracle) (d : database) (uid : Z) :
  (forall l d',
      call (Router.getAccounts uid) fl d = (inr l, d') ->
      d' = d
      /\ l = selectAccountsOfUser uid d
      /\ (forall a, In a l <-> In a (accounts_rows d) /\ accounts.userId a = uid))
  /\ (forall f d', call (Router.getAccounts uid) fl d = (inl f, d') -> d' = d)
  /\ (fl 0%nat = false ->
      call (Router.getAccounts uid) fl d = (inr (selectAccountsOfUser uid d), d)).
Proof.
  unfold call, Router.getAccounts. unfold_run. destruct (fl 0%nat); cbn [report db].
  - split; [intros l d' Hc; discriminate|].
    split; [intros f d' Hc; congruence|discriminate].
  - split; [|split; [intros f d' Hc; congruence|reflexivity]].
    intros l d' Hc. injection Hc as <- <-. split; [reflexivity|]. split; [reflexivity|].
    intros a. unfold selectAccountsOfUser. rewrite filter_In.
    now rewrite Z.eqb_eq.
Qed.

Lemma filter_snoc {A} (p : A -> bool) (l : list A) (x : A) :
  filter p (l ++ [x]) = filter p l ++ (if p x then [x] else []).
Proof. rewrite filter_app. reflexivity. Qed.

(** X7.  The account createAccount returns belongs to the caller, has
    the requested type, balance 0 and status active, and an id and a number
    that no account had; it is appended to the accounts table, so that
    getAccounts lists it last for the caller and lists for every other user
    what it listed before. *)
Theorem createAccount_then_getAccounts (fl : oracle) (d d' : database) (uid : Z)
    (ty : accountTypeEnum) (draws : list (list Byte.byte)) (ts : string)
    (acct : accounts.row) :
  call (Router.createAccount uid ty draws ts) fl d = (inr (Some acct), d') ->
  (accounts.userId acct = uid
   /\ accounts.accountType acct = accountTypeName ty
   /\ accounts.balance acct = 0
   /\ accounts.status acct = Some "active"
   /\ ~ In (accounts.id acct) (map accounts.id (accounts_rows d))
   /\ ~ In (accounts.accountNumber acct) (map accounts.accountNumber (accounts_rows d)))
  /\ accounts_rows d' = accounts_rows d ++ [acct]
  /\ call (Router.getAccounts uid) noFaults d'
     = (inr (selectAccountsOfUser uid d ++ [acct]), d')
  /\ (forall other, other <> uid ->
        call (Router.getAccounts other) noFaults d'
        = (inr (selectAccountsOfUser other d), d')).
Proof.
  intros Hcall. pose proof (createAccount_outcome fl d uid ty draws ts) as Ho.
  rewrite Hcall in Ho. destruct Ho as (b & _ & Hty & Hn & -> & ->).
  split; [|split; [reflexivity|split]].
  - repeat split.
    + apply nextRowid_fresh.
    + cbn [accounts.accountNumber Core.openedAccount]. intros Hin.
      apply in_map_iff in Hin. destruct Hin as (a & Ha & Hin).
      pose proof (find_none _ _ Hn a Hin) as Hf. cbn in Hf.
      rewrite Ha, String.eqb_refl in Hf. discriminate.
  - unfold call, Router.getAccounts. unfold_run. cbv beta iota delta [noFaults].
    cbn [report db]. unfold selectAccountsOfUser, insertAccount.
    cbn [accounts_rows withAccounts]. rewrite filter_snoc.
    cbn [accounts.userId]. now rewrite Z.eqb_refl.
  - intros other Hne. unfold call, Router.getAccounts. unfold_run.
    cbv beta iota delta [noFaults]. cbn [report db].
    unfold selectAccountsOfUser, insertAccount.
    cbn [accounts_rows withAccounts]. rewrite filter_snoc.
    cbn [accounts.userId].
    destruct (uid =? other)%Z eqn:E; [apply Z.eqb_eq in E; congruence|].
    now rewrite app_nil_r.
Qed.

End ListingAccounts.

(** ** Refused fundings *)

Section Refusals.
Context `{Runtime}.

(** X9.  A valid funding request for an account of the caller that is
    not active (any status but the string active, or none) fails with
    BAD_REQUEST, Account is not active, and writes nothing. *)
Theorem fundAccount_inactive_account (fl : oracle) (d : database) (uid : Z)
    (now : string) (raw : rawFundInput) (input : fundInput) (a : Q)
    (acct : accounts.row) :
  Router.fundAccountSchema raw = inr input ->
  amount input = Finite a -> (1 # 100) <= a ->
  fl 0%nat = false ->
  selectAccountOfUser (rawAccountId raw) uid d = Some acct ->
  isActive (accounts.status acct) = false ->
  call (Router.fundAccount uid now raw) fl d = (inl accountNotActive, d)
  /\ kindsOf accountNotActive = [AccountNotActive].
Proof.
  intros Hs Ha Hle Hfl Hsel Hact. split; [|reflexivity].
  unfold call, Router.fundAccount, withInput. rewrite Hs.
  apply objectSchema_accountId in Hs. destruct Hs as (Hid & _).
  unfold Router.fundAccountHandler. rewrite Ha.
  apply Qle_bool_iff in Hle. rewrite Hle. cbn [negb]. unfold_run.
  rewrite Hfl, Hid, Hsel, Hact. reflexivity.
Qed.

(** The refinement of the schema holds for card funding, and for bank
    funding with a routing number that the nine-digit pattern matches. *)
Lemma routingRefinement_spec (src : fundingSourceT) :
  routingRefinement src = true
  <-> type src = card
      \/ exists r, routingNumber src = Some r /\ matches routingPattern r.
Proof.
  unfold routingRefinement. destruct (type src); split.
  - now left.
  - reflexivity.
  - destruct (routingNumber src) as [r|]; [|discriminate].
    intros Hr. right. exists r. split; [reflexivity|]. now apply routingTest_matches.
  - intros [Hc|(r & -> & Hr)]; [discriminate|]. now apply routingTest_matches.
Qed.

(** X10.  A bank funding request without a routing number, or with one
    that the nine-digit pattern does not match, never reaches the handler:
    the call fails with the issues of the schema and writes nothing,
    whatever the account and the caller; the routing issue is reported alone
    when the amount is valid and after the amount issue when the amount has
    the wrong format. *)
Theorem bank_funding_requires_routing (fl : oracle) (d : database) (uid : Z)
    (now : string) (raw : rawFundInput) :
  type (rawFundingSource raw) = bank ->
  (forall r, routingNumber (rawFundingSource raw) = Some r -> ~ matches routingPattern r) ->
  (exists issues,
      call (Router.fundAccount uid now raw) fl d = (inl (ZodError issues), d))
  /\ (forall x, Router.amountSchema (rawAmount raw) = Valid x ->
        call (Router.fundAccount uid now raw) fl d = (inl (ZodError [routingIssue]), d))
  /\ (Router.amountSchema (rawAmount raw) = Dirty [Router.amountFormatIssue] ->
        call (Router.fundAccount uid now raw) fl d
        = (inl (ZodError [Router.amountFormatIssue; routingIssue]), d))
  /\ kindsOf (ZodError [routingIssue]) = [InvalidFundingSource].
Proof.
  intros Hbank Hr.
  assert (Href : routingRefinement (rawFundingSource raw) = false).
  { destruct (routingRefinement (rawFundingSource raw)) eqn:E; [|reflexivity].
    apply routingRefinement_spec in E. destruct E as [E|(r & E & Hm)].
    - congruence.
    - now contradiction (Hr r E). }
  unfold call, Router.fundAccount, withInput, Router.fundAccountSchema, objectSchema,
    routingIssues.
  rewrite Href. repeat split.
  - destruct (Router.amountSchema (rawAmount raw)); eexists; reflexivity.
  - intros x ->. reflexivity.
  - intros ->. reflexivity.
Qed.

End Refusals.

(** ** Funding, then listing *)

Section FundThenList.
Context `{Runtime}.

Lemma selectTransactionsOf_funded (X : Z) (a : Q) (src : fundingTypeEnum) (now : string)
    (d : database) :
  selectTransactionsOf X (Ledger.funded X a src now d)
  = selectTransactionsOf X d ++ [Ledger.ledgerRow X a src now now d].
Proof.
  unfold selectTransactionsOf, Ledger.funded, addToBalance, insertTransaction.
  cbn [transactions_rows withAccounts withTransactions]. rewrite filter_app.
  cbn [filter transactions.accountId]. now rewrite Z.eqb_refl.
Qed.

Lemma selectAccountOfUser_funded (X uid : Z) (a : Q) (src : fundingTypeEnum)
    (now : string) (d : database) :
  selectAccountOfUser X uid (Ledger.funded X a src now d)
  = option_map (fun r => if (accounts.id r =? X)%Z
                         then accounts.withBalance (round2 (accounts.balance r + a)) r
                         else r)
               (selectAccountOfUser X uid d).
Proof.
  unfold selectAccountOfUser. rewrite funded_accounts_rows.
  apply find_map_update. intros r.
  destruct (accounts.id r =? X)%Z eqn:E; cbn; now rewrite E.
Qed.

(** X11.  After a successful fundAccount, getTransactions for the same
    account returns what it returned before followed by one more entry: the
    ledger row of the funding, with the normalized amount, labelled with the
    type of the account (account ids unique). *)
Theorem fundAccount_then_getTransactions (fl : oracle) (d d' : database) (uid : Z)
    (now : string) (raw : rawFundInput) (res : fundResult) :
  NoDup (map accounts.id (accounts_rows d)) ->
  call (Router.fundAccount uid now raw) fl d = (inr res, d') ->
  exists a acct listed,
    Router.amountSchema (rawAmount raw) = Valid (Finite a)
    /\ selectAccountOfUser (rawAccountId raw) uid d = Some acct
    /\ call (Router.getTransactions uid (rawAccountId raw)) noFaults d = (inr listed, d)
    /\ call (Router.getTransactions uid (rawAccountId raw)) noFaults d'
       = (inr (listed
               ++ [Core.enrichWith (Some (accounts.accountType acct))
                     (Ledger.ledgerRow (rawAccountId raw) a
                        (type (rawFundingSource raw)) now now d)]),
          d').
Proof.
  intros Hnd Hcall. pose proof (fundAccount_call fl d uid now raw) as Hc.
  rewrite Hcall in Hc.
  destruct Hc as (input & a & acct & b & Hs & Ha & _ & Hacct & _ & -> & _).
  apply objectSchema_accountId in Hs. destruct Hs as (Hid & Hsrc & Hv & _).
  rewrite Hid, Hsrc in *. rewrite Ha in Hv.
  exists a, acct. eexists. split; [exact Hv|]. split; [exact Hacct|].
  assert (Hby : selectAccountById (rawAccountId raw) d = Some acct)
    by (eapply selectAccountById_owner; eauto).
  split.
  - rewrite (@getTransactions_noFaults d uid (rawAccountId raw) acct Hacct). reflexivity.
  - pose proof (selectAccountOfUser_funded (rawAccountId raw) uid a
                  (type (rawFundingSource raw)) now d) as Hsel'.
    rewrite Hacct in Hsel'. cbn [option_map] in Hsel'.
    rewrite (@getTransactions_noFaults _ uid (rawAccountId raw) _ Hsel').
    rewrite selectTransactionsOf_funded, map_app. cbn [map].
    unfold Ledger.funded at 1 2.
    rewrite selectAccountById_addToBalance.
    change (selectAccountById (rawAccountId raw) (insertTransaction _ _ _ _ _ _ _ d))
      with (selectAccountById (rawAccountId raw) d).
    rewrite Hby. cbn [option_map].
    assert (Hty : forall r : accounts.row,
               accounts.accountType
                 (if (accounts.id r =? rawAccountId raw)%Z
                  then accounts.withBalance (round2 (accounts.balance r + a)) r
                  else r) = accounts.accountType r).
    { intros r. now destruct (accounts.id r =? rawAccountId raw)%Z. }
    rewrite Hty. reflexivity.
Qed.

End FundThenList.

(** ** The non-transactional copy, run alone *)

Section TwoStepAlone.

Lemma setBalance_ids (b : Q) (X : Z) (d : database) :
  map accounts.id (accounts_rows (setBalance b X d)) = map accounts.id (accounts_rows d).
Proof.
  unfold setBalance. cbn. rewrite map_map. apply map_ext. intros r.
  now destruct (accounts.id r =? X)%Z.
Qed.

Lemma two_step_written_consistent (d : database) (X uid : Z) (q : Q)
    (src : fundingTypeEnum) (now ts : string) (acct : accounts.row) :
  Core.consistent d ->
  selectAccountOfUser X uid d = Some acct ->
  Core.consistent
    (setBalance (toFixed2 (toFixed2 (accounts.balance acct) + toFixed2 q)) X
       (insertTransaction X "deposit" (toFixed2 q) (Ledger.fundingDescription src)
          "completed" now ts d)).
Proof.
  intros (Hbal & Hamt & Hfk) Hsel.
  pose proof (selectAccountOfUser_in _ _ _ Hsel) as HX.
  apply find_some in Hsel. destruct Hsel as [Hin Hp].
  apply andb_prop in Hp. destruct Hp as [Hp _]. apply Z.eqb_eq in Hp.
  destruct (ledgerSum_hundredths X Hamt) as [z Hz].
  pose proof (Hbal acct Hin) as Hacct. rewrite Hp, Hz in Hacct.
  unfold Core.consistent. repeat split.
  - unfold Core.balanced, setBalance, insertTransaction.
    cbn [accounts_rows transactions_rows withAccounts withTransactions].
    intros r' Hr'. apply in_map_iff in Hr'. destruct Hr' as (r & <- & Hr).
    rewrite ledgerSum_app.
    cbn [transactions.accountId transactions.status transactions.amount].
    change (String.eqb "completed" "completed") with true. rewrite andb_true_r.
    specialize (Hbal r Hr).
    destruct (accounts.id r =? X)%Z eqn:E.
    + cbn [accounts.balance accounts.id accounts.withBalance].
      apply Z.eqb_eq in E. rewrite Z.eqb_sym, E, Z.eqb_refl.
      rewrite (toFixed2_exact Hacct).
      change (toFixed2 ((z # 100) + toFixed2 q)) with (round2 ((z # 100) + toFixed2 q)).
      rewrite (@round2_sum (z # 100) (toFixed2 q) z (nearestHundredth q));
        [|reflexivity|reflexivity].
      rewrite Hz. unfold toFixed2. symmetry. apply hundredths_plus.
    + rewrite Z.eqb_sym, E. rewrite Hbal. ring.
  - unfold setBalance, insertTransaction.
    cbn [transactions_rows withAccounts withTransactions].
    apply Forall_app. split; [exact Hamt|]. constructor; [|constructor].
    apply toFixed2_twoDecimals.
  - rewrite setBalance_ids. unfold insertTransaction.
    cbn [transactions_rows accounts_rows withAccounts withTransactions].
    apply Forall_app. split; [exact Hfk|]. constructor; [exact HX|constructor].
Qed.

Lemma selectBalance_setBalance (X : Z) (b : Q) (d : database) :
  selectBalance X (setBalance b X d) = option_map (fun _ => b) (selectBalance X d).
Proof.
  unfold selectBalance, selectAccountById, setBalance. cbn [accounts_rows withAccounts].
  rewrite find_map_update.
  - destruct (find _ (accounts_rows d)) as [r|] eqn:E; [|reflexivity]. cbn.
    apply find_some in E. destruct E as [_ E]. now rewrite E.
  - intros r. destruct (accounts.id r =? X)%Z eqn:E; cbn; now rewrite E.
Qed.


End TwoStepAlone.

(** ** Closed instances *)


Lemma createAccount_once_per_type_witness :
  let ts := "2026-01-02 09:30:00" in
  let d1 := insertAccount Examples.alice "1000000000" "checking" 0 "active" ts
              Examples.fresh in
  let between :=
    [ (noFaults, Core.FundAccount Examples.alice Samples.tenAM
                   (Examples.request 1 "12.50" Examples.cardSource));
      (noFaults, Core.ListAccounts Examples.alice) ] in
  call (Router.createAccount Examples.alice checking [Examples.oneBytes]
          "2026-01-03 09:30:00")
       noFaults (Core.performAll between d1)
  = (inl (Integrity.duplicateType checking), Core.performAll between d1)
  /\ kindsOf (Integrity.duplicateType checking) = [DuplicateAccountType].
Proof.
  apply (@createAccount_once_per_type exampleRuntime noFaults noFaults Examples.fresh
           (insertAccount Examples.alice "1000000000" "checking" 0 "active"
              "2026-01-02 09:30:00" Examples.fresh)
           Examples.alice checking [Examples.zeroBytes] [Examples.oneBytes]
           "2026-01-02 09:30:00" "2026-01-03 09:30:00"
           (Core.openedAccount Examples.alice checking "1000000000"
              "2026-01-02 09:30:00" Examples.fresh)).
  - vm_compute. reflexivity.
  - reflexivity.
Defined.

Lemma createAccount_then_getAccounts_witness :
  let ts := "2026-01-02 09:30:00" in
  let acct := Core.openedAccount Examples.alice savings "1000000001" ts Examples.opened in
  let d' := insertAccount Examples.alice "1000000001" "savings" 0 "active" ts
              Examples.opened in
  (accounts.userId acct = Examples.alice
   /\ accounts.accountType acct = accountTypeName savings
   /\ accounts.balance acct = 0
   /\ accounts.status acct = Some "active"
   /\ ~ In (accounts.id acct) (map accounts.id (accounts_rows Examples.opened))
   /\ ~ In (accounts.accountNumber acct)
          (map accounts.accountNumber (accounts_rows Examples.opened)))
  /\ accounts_rows d' = accounts_rows Examples.opened ++ [acct]
  /\ call (Router.getAccounts Examples.alice) noFaults d'
     = (inr (selectAccountsOfUser Examples.alice Examples.opened ++ [acct]), d')
  /\ (forall other, other <> Examples.alice ->
        call (Router.getAccounts other) noFaults d'
        = (inr (selectAccountsOfUser other Examples.opened), d')).
Proof.
  apply (@createAccount_then_getAccounts noFaults Examples.opened _ Examples.alice savings
           [Examples.zeroBytes; Examples.oneBytes] "2026-01-02 09:30:00" _).
  vm_compute. reflexivity.
Defined.

Lemma fundAccount_inactive_account_witness :
  call (Router.fundAccount Examples.alice Samples.tenAM
          (Examples.request 1 "5" Examples.cardSource))
       noFaults Samples.frozen
  = (inl accountNotActive, Samples.frozen)
  /\ kindsOf accountNotActive = [AccountNotActive].
Proof.
  apply (@fundAccount_inactive_account exampleRuntime noFaults Samples.frozen
           Examples.alice Samples.tenAM (Examples.request 1 "5" Examples.cardSource)
           {| accountId := 1; amount := Finite (500 # 100);
              fundingSource := Examples.cardSource |}
           (500 # 100) Samples.frozenChecking).
  - vm_compute. reflexivity.
  - reflexivity.
  - unfold Qle. cbn. lia.
  - reflexivity.
  - reflexivity.
  - reflexivity.
Defined.

Lemma bank_funding_requires_routing_witness :
  let raw := Examples.request 1 "12.50" Examples.bankWithoutRouting in
  (exists issues,
      call (Router.fundAccount Examples.alice Samples.tenAM raw) noFaults Examples.opened
      = (inl (ZodError issues), Examples.opened))
  /\ (forall x, Router.amountSchema (rawAmount raw) = Valid x ->
        call (Router.fundAccount Examples.alice Samples.tenAM raw) noFaults Examples.opened
        = (inl (ZodError [routingIssue]), Examples.opened))
  /\ (Router.amountSchema (rawAmount raw) = Dirty [Router.amountFormatIssue] ->
        call (Router.fundAccount Examples.alice Samples.tenAM raw) noFaults Examples.opened
        = (inl (ZodError [Router.amountFormatIssue; routingIssue]), Examples.opened))
  /\ kindsOf (ZodError [routingIssue]) = [InvalidFundingSource].
Proof.
  apply (@bank_funding_requires_routing exampleRuntime noFaults Examples.opened
           Examples.alice Samples.tenAM
           (Examples.request 1 "12.50" Examples.bankWithoutRouting)).
  - reflexivity.
  - intros r Hr. discriminate Hr.
Defined.

Lemma fundAccount_then_getTransactions_witness :
  let d := Examples.deposited "2026-01-02T09:00:00.000Z" in
  let raw := Examples.request 1 "12.50" Examples.cardSource in
  exists a acct listed,
    Router.amountSchema (rawAmount raw) = Valid (Finite a)
    /\ selectAccountOfUser (rawAccountId raw) Examples.alice d = Some acct
    /\ call (Router.getTransactions Examples.alice (rawAccountId raw)) noFaults d
       = (inr listed, d)
    /\ call (Router.getTransactions Examples.alice (rawAccountId raw)) noFaults
            (Ledger.funded 1 (1250 # 100) card Samples.tenAM d)
       = (inr (listed
               ++ [Core.enrichWith (Some (accounts.accountType acct))
                     (Ledger.ledgerRow (rawAccountId raw) a
                        (type (rawFundingSource raw)) Samples.tenAM Samples.tenAM d)]),
          Ledger.funded 1 (1250 # 100) card Samples.tenAM d).
Proof.
  apply (@fundAccount_then_getTransactions exampleRuntime noFaults
           (Examples.deposited "2026-01-02T09:00:00.000Z")
           (Ledger.funded 1 (1250 # 100) card Samples.tenAM
              (Examples.deposited "2026-01-02T09:00:00.000Z"))
           Examples.alice Samples.tenAM
           (Examples.request 1 "12.50" Examples.cardSource)
           {| transaction :=
                Some (Ledger.ledgerRow 1 (1250 # 100) card Samples.tenAM Samples.tenAM
                        (Examples.deposited "2026-01-02T09:00:00.000Z"));
              newBalance := 1750 # 100 |}).
  - cbn. repeat constructor; cbn; intuition discriminate.
  - vm_compute. reflexivity.
Defined.


Lemma fundAccount_returns_witness :
  exists res d',
    call (Router.fundAccount Examples.alice Samples.tenAM
            (Examples.request 1 "12.50" Examples.cardSource))
         noFaults (Examples.deposited "2026-01-02T09:00:00.000Z") = (inr res, d')
    /\ selectBalance 1 d' = Some (newBalance res)
    /\ ((forall t, In t (transactions_rows (Examples.deposited "2026-01-02T09:00:00.000Z")) ->
                   transactions.accountId t = 1%Z ->
                   textLt (transactions.createdAt t) (Some Samples.tenAM) = true) ->
        exists row, transaction res = Some row
                    /\ transactions_rows d'
                       = transactions_rows (Examples.deposited "2026-01-02T09:00:00.000Z")
                         ++ [row]).
Proof.
  eexists. eexists. split; [vm_compute; reflexivity|].
  exact (@fundAccount_returns exampleRuntime noFaults
           (Examples.deposited "2026-01-02T09:00:00.000Z") _
           Examples.alice Samples.tenAM
           (Examples.request 1 "12.50" Examples.cardSource) _ eq_refl).
Defined.

(* ================================================================== *)
(** * Part IV: sessions, sign-in and the scripts *)
(* ================================================================== *)


(** ** Splitting and joining *)

Section Splitting.
Import Text.

Lemma append_nil_r (s : string) : (s ++ "")%string = s.
Proof. induction s as [|c s IH]; cbn; [reflexivity|now rewrite IH]. Qed.

Lemma append_assoc (a b c : string) : ((a ++ b) ++ c)%string = (a ++ b ++ c)%string.
Proof. induction a as [|x a IH]; cbn; [reflexivity|now rewrite IH]. Qed.

Lemma prefix_nil (s : string) : String.prefix "" s = true.
Proof. now destruct s. Qed.

Lemma prefix_cons (a b : ascii) (p s : string) :
  String.prefix (String a p) (String b s) = Ascii.eqb a b && String.prefix p s.
Proof.
  cbn [String.prefix]. destruct (ascii_dec a b) as [->|Hne].
  - now rewrite Ascii.eqb_refl.
  - apply Ascii.eqb_neq in Hne. now rewrite Hne.
Qed.

Lemma prefix_refl_app (p rest : string) : String.prefix p (p ++ rest) = true.
Proof.
  induction p as [|c p IH]; cbn; [apply prefix_nil|].
  destruct (ascii_dec c c) as [_|Hne]; [exact IH|now contradiction Hne].
Qed.

Lemma mentions_app (c : ascii) (a b : string) :
  mentions c (a ++ b) = mentions c a || mentions c b.
Proof.
  induction a as [|x a IH]; cbn; [reflexivity|]. now rewrite IH, orb_assoc.
Qed.

(** Passing over the rest of a separator. *)
Lemma splitFrom_skip (sep : string) (over : string) :
  forall cur rest,
    splitFrom sep (String.length over) cur (over ++ rest) = splitFrom sep 0 cur rest.
Proof.
  induction over as [|c over IH]; intros cur rest; cbn; [reflexivity|apply IH].
Qed.

(** A piece that does not mention the first character of the separator is
    cut off whole, at the end of the text or at the separator after it. *)
Lemma splitFrom_piece (a : ascii) (tl : string) (p : string) :
  mentions a p = false ->
  forall cur,
    splitFrom (String a tl) 0 cur p = [(cur ++ p)%string]
    /\ forall rest,
         splitFrom (String a tl) 0 cur (p ++ String a tl ++ rest)
         = (cur ++ p)%string :: splitFrom (String a tl) 0 "" rest.
Proof.
  induction p as [|c p IH]; intros Hp cur.
  - split; [cbn; now rewrite append_nil_r|]. intros rest.
    change ("" ++ String a tl ++ rest)%string with (String a (tl ++ rest)).
    cbn [splitFrom]. change (String a (tl ++ rest)) with (String a tl ++ rest)%string.
    rewrite prefix_refl_app. rewrite append_nil_r.
    cbn [String.length]. rewrite Nat.sub_succ, Nat.sub_0_r.
    now rewrite splitFrom_skip.
  - cbn in Hp. apply orb_false_elim in Hp. destruct Hp as [Hc Hp].
    assert (Hpre : forall rest', String.prefix (String a tl) (String c rest') = false).
    { intros rest'. cbn. destruct (ascii_dec a c) as [->|_]; [|reflexivity].
      now rewrite Ascii.eqb_refl in Hc. }
    destruct (IH Hp (cur ++ String c "")%string) as [IH1 IH2].
    split.
    + cbn [splitFrom]. rewrite Hpre, IH1, append_assoc. reflexivity.
    + intros rest.
      change (String c p ++ String a tl ++ rest)%string
        with (String c (p ++ String a tl ++ rest)).
      cbn [splitFrom]. rewrite Hpre, IH2, append_assoc. reflexivity.
Qed.

Lemma join_cons (sep x : string) (l : list string) :
  l <> [] -> join sep (x :: l) = (x ++ sep ++ join sep l)%string.
Proof. destruct l; [congruence|reflexivity]. Qed.

Lemma splitFrom_nonempty (sep : string) (s : string) :
  forall skip cur, splitFrom sep skip cur s <> [].
Proof.
  induction s as [|c s IH]; intros skip cur; cbn [splitFrom]; [discriminate|].
  destruct skip; [|apply IH]. destruct (String.prefix sep (String c s)); [discriminate|].
  apply IH.
Qed.

(** Joining the pieces cut at a one-character separator gives the text
    back. *)
Lemma join_split_char (a : ascii) (s : string) :
  forall cur,
    join (String a "") (splitFrom (String a "") 0 cur s) = (cur ++ s)%string.
Proof.
  induction s as [|c s IH]; intros cur; [cbn; now rewrite append_nil_r|].
  cbn [splitFrom]. cbn [String.prefix].
  destruct (ascii_dec a c) as [->|Hne].
  - rewrite prefix_nil. cbn [String.length Nat.sub].
    rewrite join_cons; [|apply splitFrom_nonempty].
    rewrite IH. reflexivity.
  - rewrite IH, append_assoc. reflexivity.
Qed.

End Splitting.

(** ** Reading the cookie header *)

Section CookieHeader.
Import Text Cookies.

Lemma pair_truthy (kv : string * string) : truthy (pair kv) = true.
Proof. destruct kv as [[|c k] v]; reflexivity. Qed.

Lemma pair_no_semicolon (kv : string * string) :
  wellFormed kv -> mentions ";" (pair kv) = false.
Proof.
  intros (Hk & _ & Hv). unfold pair. rewrite !mentions_app, Hk, Hv. reflexivity.
Qed.

(** An element written as name, equals sign, value is read back as that
    name and that value. *)
Lemma entry_pair (kv : string * string) :
  mentions "=" (fst kv) = false -> entry (pair kv) = kv.
Proof.
  intros Hk. destruct kv as [k v]. unfold entry, pair, split. cbn [fst snd] in *.
  destruct (@splitFrom_piece "="%char "" k Hk "") as [_ Hcut].
  rewrite (Hcut v). cbn [append].
  change (splitFrom "=" 0 "" v) with (splitFrom (String "=" "") 0 "" v).
  now rewrite join_split_char.
Qed.

Lemma split_header (pairs : list (string * string)) :
  Forall wellFormed pairs -> pairs <> [] ->
  split "; " (header pairs) = map pair pairs.
Proof.
  induction pairs as [|kv pairs IH]; intros Hwf Hne; [congruence|].
  inversion Hwf as [|? ? Hkv Hrest]; subst.
  pose proof (pair_no_semicolon Hkv) as Hp.
  destruct (@splitFrom_piece ";"%char " " (pair kv) Hp "") as [Hend Hcut].
  destruct pairs as [|kv' pairs].
  - unfold header, split. cbn [map join String.concat]. exact Hend.
  - unfold header. cbn [map]. rewrite join_cons; [|discriminate].
    unfold split. rewrite Hcut. cbn [append]. f_equal.
    apply IH; [exact Hrest|discriminate].
Qed.

Lemma filter_truthy_pairs (pairs : list (string * string)) :
  filter truthy (map pair pairs) = map pair pairs.
Proof.
  induction pairs as [|kv pairs IH]; [reflexivity|].
  cbn [map filter]. now rewrite pair_truthy, IH.
Qed.

Lemma entries_header (pairs : list (string * string)) :
  Forall wellFormed pairs -> entries (header pairs) = pairs.
Proof.
  intros Hwf. unfold entries. destruct pairs as [|kv pairs]; [reflexivity|].
  rewrite split_header; [|exact Hwf|discriminate].
  rewrite filter_truthy_pairs, map_map.
  rewrite <- (map_id (kv :: pairs)) at 2. apply map_ext_in.
  intros x Hin. apply entry_pair. rewrite Forall_forall in Hwf.
  now destruct (Hwf x Hin) as (_ & Hk & _).
Qed.

Lemma fromEntries_app (key : string) (l1 l2 : list (string * string)) :
  fromEntries key (l1 ++ l2)
  = match fromEntries key l2 with
    | Some v => Some v
    | None => fromEntries key l1
    end.
Proof.
  unfold fromEntries. rewrite fold_left_app.
  generalize (fold_left (fun found kv => if String.eqb (fst kv) key then Some (snd kv)
                                          else found) l1 None).
  induction l2 as [|kv l2 IH]; intros acc; cbn [fold_left].
  - reflexivity.
  - rewrite IH. destruct (String.eqb (fst kv) key).
    + rewrite (IH (Some (snd kv))). now destruct (fold_left _ l2 None).
    + rewrite (IH None). reflexivity.
Qed.

Lemma fromEntries_absent (key : string) (l : list (string * string)) :
  Forall (fun kv => fst kv <> key) l -> fromEntries key l = None.
Proof.
  induction l as [|kv l IH] using rev_ind; intros Hl; [reflexivity|].
  apply Forall_app in Hl. destruct Hl as [Hl Hkv]. inversion Hkv; subst.
  rewrite fromEntries_app. cbn.
  destruct (String.eqb_spec (fst kv) key); [contradiction|]. now apply IH.
Qed.

(** A piece that starts with a name free of the equals sign and that
    sign starts with another such name and the sign only if the names are
    the same. *)
Lemma startsWith_name (name k v : string) :
  mentions "=" name = false -> mentions "=" k = false ->
  startsWith (name ++ "=") (k ++ "=" ++ v) = true -> k = name.
Proof.
  unfold startsWith. revert k. induction name as [|y name IH]; intros k Hn Hk Hp.
  - destruct k as [|x k]; [reflexivity|].
    change (prefix ("" ++ "=") (String x k ++ "=" ++ v))
      with (prefix (String "=" "") (String x (k ++ "=" ++ v))) in Hp.
    rewrite prefix_cons in Hp. cbn [mentions] in Hk.
    apply orb_false_elim in Hk. destruct Hk as [Hx _].
    rewrite Ascii.eqb_sym, Hx in Hp. discriminate.
  - cbn [mentions] in Hn. apply orb_false_elim in Hn. destruct Hn as [Hy Hn].
    destruct k as [|x k].
    + change (prefix (String y name ++ "=") ("" ++ "=" ++ v))
        with (prefix (String y (name ++ "=")) (String "=" v)) in Hp.
      rewrite prefix_cons, Hy in Hp. discriminate.
    + change (prefix (String y name ++ "=") (String x k ++ "=" ++ v))
        with (prefix (String y (name ++ "=")) (String x (k ++ "=" ++ v))) in Hp.
      rewrite prefix_cons in Hp. apply andb_prop in Hp. destruct Hp as [Hyx Hp].
      apply Ascii.eqb_eq in Hyx. subst x.
      cbn [mentions] in Hk. apply orb_false_elim in Hk. destruct Hk as [_ Hk].
      f_equal. now apply IH.
Qed.

Lemma find_session_pair (before after : list (string * string)) (tok : string) :
  Forall wellFormed before ->
  Forall (fun kv => fst kv <> "session") before ->
  find (startsWith "session=") (map pair (before ++ ("session", tok) :: after))
  = Some (pair ("session", tok)).
Proof.
  induction before as [|kv before IH]; intros Hwf Hno.
  { cbn [app map find]. unfold startsWith.
    change (pair ("session", tok)) with ("session=" ++ tok)%string.
    now rewrite prefix_refl_app. }
  inversion Hwf as [|? ? (_ & Hk & _) Hwf']; subst.
  inversion Hno as [|? ? Hne Hno']; subst.
  cbn [app map find].
  destruct (startsWith "session=" (pair kv)) eqn:E; [|now apply IH].
  destruct kv as [k v]. apply (startsWith_name "session" k v) in E; auto.
  now contradiction Hne.
Qed.

Lemma sessionOf_header (before after : list (string * string)) (tok : string) :
  Forall wellFormed (before ++ ("session", tok) :: after) ->
  Forall (fun kv => fst kv <> "session") after ->
  sessionOf (header (before ++ ("session", tok) :: after)) = Some tok.
Proof.
  intros Hwf Hafter. unfold sessionOf. rewrite (entries_header Hwf).
  rewrite fromEntries_app.
  change (("session", tok) :: after) with ([("session", tok)] ++ after).
  rewrite fromEntries_app, (fromEntries_absent Hafter). reflexivity.
Qed.

Lemma logoutSessionOf_header (before after : list (string * string)) (tok : string) :
  Forall wellFormed (before ++ ("session", tok) :: after) ->
  Forall (fun kv => fst kv <> "session") before ->
  mentions "=" tok = false ->
  logoutSessionOf (header (before ++ ("session", tok) :: after)) = Some tok.
Proof.
  intros Hwf Hbefore Htok. unfold logoutSessionOf.
  rewrite split_header; [|exact Hwf|now destruct before].
  apply Forall_app in Hwf. destruct Hwf as [Hwfb _].
  rewrite (find_session_pair after tok Hwfb Hbefore).
  unfold pair, split. cbn [fst snd].
  destruct (@splitFrom_piece "="%char "" "session" eq_refl "") as [_ Hcut].
  rewrite (Hcut tok). cbn [append nth_error].
  destruct (@splitFrom_piece "="%char "" tok Htok "") as [Hend _].
  change (splitFrom "=" 0 "" tok) with (splitFrom (String "=" "") 0 "" tok).
  now rewrite Hend.
Qed.

(** X13.  A cookie header written from names and values (no semicolon in
    either, no equals sign in a name) is read back by createContext as
    exactly those names and values; the session token it takes is the value
    of the last session cookie, whatever equals signs that value holds.
    logout reads the first session cookie instead and cuts its value at the
    first equals sign: the two agree when there is one session cookie and
    its value holds no equals sign. *)
Theorem cookie_header_read_back (pairs : list (string * string)) :
  Forall wellFormed pairs ->
  entries (header pairs) = pairs
  /\ sessionOf (header pairs) = fromEntries "session" pairs
  /\ (forall before tok after,
         pairs = before ++ ("session", tok) :: after ->
         Forall (fun kv => fst kv <> "session") after ->
         sessionOf (header pairs) = Some tok)
  /\ (forall before tok after,
         pairs = before ++ ("session", tok) :: after ->
         Forall (fun kv => fst kv <> "session") before ->
         mentions "=" tok = false ->
         logoutSessionOf (header pairs) = Some tok).
Proof.
  intros Hwf. pose proof (entries_header Hwf) as He.
  split; [exact He|]. split; [unfold sessionOf; now rewrite He|]. split.
  - intros before tok after -> Hafter. now apply sessionOf_header.
  - intros before tok after -> Hbefore Htok. now apply logoutSessionOf_header.
Qed.

End CookieHeader.

(** ** The request context *)

Section RequestContext.
Import Text Identity.
Context `{Platform}.

Lemma lessEq_false (x y : option Z) :
  lessEq x y = false <-> forall a b, x = Some a -> y = Some b -> (b < a)%Z.
Proof.
  destruct x as [a|], y as [b|]; cbn; split; try discriminate; try reflexivity.
  - intros Hle a' b' Ha Hb. injection Ha as <-. injection Hb as <-.
    apply Z.leb_gt in Hle. exact Hle.
  - intros Hlt. apply Z.leb_gt. now apply Hlt.
Qed.

Lemma selectSessionByToken_some (tok : string) (s : store) (r : sessions.row) :
  selectSessionByToken tok s = Some r ->
  In r (sessions_table s) /\ sessions.token r = tok.
Proof.
  intros Hf. apply find_some in Hf. destruct Hf as [Hin Heq].
  split; [exact Hin|]. now apply String.eqb_eq.
Qed.

Lemma selectSessionByToken_deleted (tok : string) (s : store) :
  selectSessionByToken tok (deleteSessionsByToken tok s) = None.
Proof.
  unfold selectSessionByToken, deleteSessionsByToken. cbn [sessions_table withSessions].
  apply find_all_false. intros r Hin. apply filter_In in Hin.
  destruct Hin as [_ Hne]. now apply negb_true_iff in Hne.
Qed.

(** What createContext amounts to: the request is anonymous and the store
    untouched; or the session of the token is within the safety window and
    all sessions of that token are deleted; or the user the token names is
    looked up. *)
Lemma createContext_cases (safety : option Z) (now : Z) (r : request) (s : store) :
  createContext safety now r s = (anonymous r, s)
  \/ exists tok uid session,
       Cookies.sessionOf (cookieHeader r) = Some tok
       /\ truthy tok = true
       /\ jwt_verify tok now = Some uid
       /\ selectSessionByToken tok s = Some session
       /\ let expiresInMs :=
            option_map (fun e => e - now)%Z (Date_getTime (sessions.expiresAt session)) in
          (lessEq expiresInMs safety = true
           /\ createContext safety now r s = (anonymous r, deleteSessionsByToken tok s))
          \/ (lessEq expiresInMs safety = false
              /\ createContext safety now r s
                 = ({| user := selectUserById uid s; req := r |}, s)).
Proof.
  unfold createContext.
  destruct (Cookies.sessionOf (cookieHeader r)) as [tok|]; [|now left].
  destruct (truthy tok) eqn:Ht; [|now left]. cbn [negb].
  destruct (jwt_verify tok now) as [uid|] eqn:Hv; [|now left].
  destruct (selectSessionByToken tok s) as [session|] eqn:Hs; [|now left].
  right. exists tok, uid, session. repeat split; auto. cbn zeta.
  destruct (lessEq _ safety); [left|right]; split; reflexivity.
Qed.

(** X14.  A context with a user is evidence of a session: the request
    carried a token that verifies for that user, a session with that token
    is on file and is not within the safety window of its expiry (as far as
    its expiry can be read as a time and the window is a number), the user
    is a row of the users table, and nothing was written. *)
Theorem createContext_sound (safety : option Z) (now : Z) (r : request) (s s' : store)
    (ctx : context) (u : usersTable.row) :
  createContext safety now r s = (ctx, s') ->
  user ctx = Some u ->
  s' = s
  /\ In u (users_table s)
  /\ exists tok session,
       Cookies.sessionOf (cookieHeader r) = Some tok
       /\ jwt_verify tok now = Some (usersTable.id u)
       /\ In session (sessions_table s)
       /\ sessions.token session = tok
       /\ forall e sf,
            Date_getTime (sessions.expiresAt session) = Some e ->
            safety = Some sf -> (sf < e - now)%Z.
Proof.
  intros Hc Hu.
  destruct (createContext_cases safety now r s)
    as [Ha|(tok & uid & session & Htok & _ & Hv & Hs & [[_ Ha]|[Hle Ha]])];
    rewrite Ha in Hc; injection Hc as <- <-; cbn [user anonymous] in Hu;
    try discriminate.
  apply find_some in Hu. destruct Hu as [Hin Hid]. apply Z.eqb_eq in Hid.
  split; [reflexivity|]. split; [exact Hin|].
  destruct (selectSessionByToken_some _ _ Hs) as [Hsin Hstok].
  exists tok, session. rewrite Hid. repeat split; auto.
  intros e sf He Hsf. rewrite He in Hle. cbn [option_map] in Hle.
  exact (proj1 (lessEq_false _ _) Hle _ _ eq_refl Hsf).
Qed.


End RequestContext.

(** ** Requests without a session *)

Section Unauthenticated.
Import Text Identity.
Context `{Runtime} `{Platform}.

(** X16.  A request that carries no session token, or one that no
    session on file has, gets an anonymous context and writes nothing; with
    such a context every procedure of the account router fails with
    UNAUTHORIZED before its input is looked at, whatever the oracle, and the
    accounts and the ledger stay as they are. *)
Theorem anonymous_request_refused (safety : option Z) (now : Z) (r : request)
    (s : store) :
  (forall tok, Cookies.sessionOf (cookieHeader r) = Some tok ->
               selectSessionByToken tok s = None) ->
  createContext safety now r s = (anonymous r, s)
  /\ (forall fl d ty draws ts,
         call (Procedures.createAccount (anonymous r) ty draws ts) fl d
         = (inl unauthorized, d))
  /\ (forall fl d, call (Procedures.getAccounts (anonymous r)) fl d = (inl unauthorized, d))
  /\ (forall fl d nowIso raw,
         call (Procedures.fundAccount (anonymous r) nowIso raw) fl d
         = (inl unauthorized, d))
  /\ (forall fl d X,
         call (Procedures.getTransactions (anonymous r) X) fl d = (inl unauthorized, d))
  /\ kindsOf unauthorized = [Unauthorized].
Proof.
  intros Hno. split; [|repeat split].
  destruct (createContext_cases safety now r s)
    as [Ha|(tok & uid & session & Htok & _ & _ & Hs & _)]; [exact Ha|].
  rewrite (Hno tok Htok) in Hs. discriminate.
Qed.

End Unauthenticated.

(** ** Signing in *)

Section SigningIn.
Import Text Identity.
Context `{Platform}.

Lemma openSession_cases (u : usersTable.row) (now : Z) (expiresAt : string) (s : store) :
  let tok := jwt_sign (usersTable.id u) now in
  (selectSessionByToken tok s <> None
   /\ openSession u now expiresAt s = (inl tokenNotUnique, s))
  \/ (selectSessionByToken tok s = None
      /\ openSession u now expiresAt s
         = (inr {| signedInUser := withoutPassword u; token := tok;
                   setCookie := sessionCookie tok |},
            withSessions
              (sessions_table s ++
               [ {| sessions.id := nextRowid (map sessions.id (sessions_table s));
                    sessions.userId := usersTable.id u;
                    sessions.token := tok;
                    sessions.expiresAt := expiresAt |} ])
              s)).
Proof.
  cbn zeta. unfold openSession, insertSession.
  destruct (selectSessionByToken (jwt_sign (usersTable.id u) now) s) eqn:E.
  - left. split; [discriminate|reflexivity].
  - right. split; reflexivity.
Qed.

(** X17.  login answers an unknown email and a wrong password alike:
    the same UNAUTHORIZED failure with the same message, and nothing
    written. *)
Theorem login_refusals_alike (now1 now2 : Z) (exp1 exp2 : string)
    (unknown wrong : loginInput) (s : store) (u : usersTable.row) :
  selectUserByEmail (loginEmail unknown) s = None ->
  selectUserByEmail (loginEmail wrong) s = Some u ->
  bcrypt_compare (loginPassword wrong) (usersTable.password u) = false ->
  login now1 exp1 unknown s = (inl invalidCredentials, s)
  /\ login now2 exp2 wrong s = (inl invalidCredentials, s)
  /\ kindsOf invalidCredentials = [Unauthorized].
Proof.
  intros Hu Hw Hc. unfold login. rewrite Hu, Hw, Hc. repeat split.
Qed.

(** The session a sign-in appends. *)
Lemma login_cases (now : Z) (expiresAt : string) (input : loginInput) (s : store) :
  match login now expiresAt input s with
  | (inr res, s') =>
      exists u,
        selectUserByEmail (loginEmail input) s = Some u
        /\ bcrypt_compare (loginPassword input) (usersTable.password u) = true
        /\ selectSessionByToken (jwt_sign (usersTable.id u) now) s = None
        /\ res = {| signedInUser := withoutPassword u;
                    token := jwt_sign (usersTable.id u) now;
                    setCookie := sessionCookie (jwt_sign (usersTable.id u) now) |}
        /\ s' = withSessions
                  (sessions_table s ++
                   [ {| sessions.id := nextRowid (map sessions.id (sessions_table s));
                        sessions.userId := usersTable.id u;
                        sessions.token := jwt_sign (usersTable.id u) now;
                        sessions.expiresAt := expiresAt |} ])
                  s
  | (inl f, s') => s' = s
  end.
Proof.
  unfold login.
  destruct (selectUserByEmail (loginEmail input) s) as [u|] eqn:Hu; [|reflexivity].
  destruct (bcrypt_compare (loginPassword input) (usersTable.password u)) eqn:Hc;
    [|reflexivity].
  cbn [negb].
  destruct (openSession_cases u now expiresAt s) as [[_ ->]|[Hn ->]]; [reflexivity|].
  exists u. repeat split; auto.
Qed.

(** X18.  A successful login writes one row and no more: the users stay
    as they are, every session that was on file stays, and one session is
    appended, for the user found by the email, with the token that is
    returned and set as the cookie; that token was on no session before.  A
    failed login writes nothing. *)
Theorem login_appends_one_session (now : Z) (expiresAt : string) (input : loginInput)
    (s : store) :
  (forall res s',
      login now expiresAt input s = (inr res, s') ->
      users_table s' = users_table s
      /\ selectSessionByToken (token res) s = None
      /\ setCookie res = sessionCookie (token res)
      /\ exists u row,
           selectUserByEmail (loginEmail input) s = Some u
           /\ signedInUser res = withoutPassword u
           /\ sessions_table s' = sessions_table s ++ [row]
           /\ sessions.userId row = usersTable.id u
           /\ sessions.token row = token res
           /\ sessions.expiresAt row = expiresAt
           /\ ~ In (sessions.id row) (map sessions.id (sessions_table s)))
  /\ (forall f s', login now expiresAt input s = (inl f, s') -> s' = s).
Proof.
  pose proof (login_cases now expiresAt input s) as Hl. split.
  - intros res s' Heq. rewrite Heq in Hl.
    destruct Hl as (u & Hu & _ & Hn & -> & ->). cbn [token setCookie signedInUser].
    repeat split; auto. exists u. eexists. repeat split; eauto.
    cbn [sessions.id]. apply nextRowid_fresh.
  - intros f s' Heq. now rewrite Heq in Hl.
Qed.

(** X19.  Two logins of one user at the same clock reading: the second
    is refused by the UNIQUE constraint on the token, fails with
    INTERNAL_SERVER_ERROR and writes nothing. *)
Theorem login_twice_same_instant (now : Z) (exp1 exp2 : string) (input : loginInput)
    (s s1 : store) (res : signedIn) :
  login now exp1 input s = (inr res, s1) ->
  login now exp2 input s1 = (inl tokenNotUnique, s1)
  /\ kindsOf tokenNotUnique = [InternalError].
Proof.
  intros Hl. split; [|reflexivity].
  pose proof (login_cases now exp1 input s) as Hc. rewrite Hl in Hc.
  destruct Hc as (u & Hu & Hcmp & Hn & -> & ->).
  unfold login, selectUserByEmail in *. cbn [users_table withSessions].
  rewrite Hu, Hcmp. cbn [negb].
  unfold openSession, insertSession, selectSessionByToken in *.
  cbn [sessions_table withSessions].
  rewrite (find_app_none _ _ _ Hn). cbn [find sessions.token].
  now rewrite String.eqb_refl.
Qed.

End SigningIn.

(** ** From sign-in to sign-out *)

Section SessionLife.
Import Text Identity.
Context `{Platform}.

Lemma selectUserById_unique (s : store) (u : usersTable.row) :
  NoDup (map usersTable.id (users_table s)) ->
  In u (users_table s) ->
  selectUserById (usersTable.id u) s = Some u.
Proof.
  intros Hnd Hin. unfold selectUserById.
  destruct (find _ (users_table s)) as [v|] eqn:E.
  - apply find_some in E. destruct E as [Hv Hid]. apply Z.eqb_eq in Hid.
    f_equal. exact (NoDup_map_eq usersTable.id _ _ _ Hnd Hv Hin Hid).
  - pose proof (find_none _ _ E u Hin) as Hf. cbn in Hf.
    now rewrite Z.eqb_refl in Hf.
Qed.

(** X20.  The token a login returns signs the user in: a later request
    that carries it as its session cookie gets a context with that user and
    writes nothing, as long as the token verifies and the clock is more than
    the safety window before the expiry the login wrote (user ids
    unique). *)
Theorem login_then_request (now : Z) (expiresAt : string) (input : loginInput)
    (s s1 : store) (res : signedIn) (safety : option Z) (now' e sf : Z) (r : request) :
  NoDup (map usersTable.id (users_table s)) ->
  login now expiresAt input s = (inr res, s1) ->
  Cookies.sessionOf (cookieHeader r) = Some (token res) ->
  truthy (token res) = true ->
  jwt_verify (token res) now' = Some (returnedId (signedInUser res)) ->
  Date_getTime expiresAt = Some e ->
  safety = Some sf ->
  (sf < e - now')%Z ->
  exists u,
    selectUserByEmail (loginEmail input) s = Some u
    /\ signedInUser res = withoutPassword u
    /\ createContext safety now' r s1 = ({| user := Some u; req := r |}, s1).
Proof.
  intros Hnd Hl Hcookie Ht Hv He Hsf Hlt.
  pose proof (login_cases now expiresAt input s) as Hc. rewrite Hl in Hc.
  destruct Hc as (u & Hu & _ & Hn & -> & ->). cbn [token signedInUser] in *.
  exists u. split; [exact Hu|]. split; [reflexivity|].
  unfold createContext. rewrite Hcookie, Ht, Hv. cbn [negb].
  unfold selectSessionByToken in *. cbn [sessions_table withSessions].
  rewrite (find_app_none _ _ _ Hn). cbn [find sessions.token].
  rewrite String.eqb_refl. cbn [sessions.expiresAt]. rewrite He, Hsf.
  cbn [option_map lessEq]. apply Z.leb_gt in Hlt. rewrite Hlt.
  cbn [withoutPassword returnedId].
  apply find_some in Hu. destruct Hu as [Hin _].
  change (selectUserById (usersTable.id u) (withSessions _ s))
    with (selectUserById (usersTable.id u) s).
  now rewrite (selectUserById_unique s u Hnd Hin).
Qed.

(** X21.  logout for a signed-in request deletes every session with the
    token it reads and nothing else, and reports success; when that token is
    the one the context was created from, the same request is anonymous from
    then on, at any time and under any window.  logout for an anonymous
    request writes nothing and reports that no session was active. *)
Theorem logout_ends_session (safety : option Z) (now : Z) (r : request) (s s1 : store)
    (ctx : context) (tok : string) :
  createContext safety now r s = (ctx, s1) ->
  user ctx <> None ->
  Cookies.sessionOf (cookieHeader r) = Some tok ->
  logoutToken r = Some tok ->
  let s2 := deleteSessionsByToken tok s in
  logout ctx s1
  = ({| success := true; message := "Logged out successfully";
        clearCookie := clearedCookie |}, s2)
  /\ users_table s2 = users_table s
  /\ (forall x, In x (sessions_table s2)
                <-> In x (sessions_table s) /\ sessions.token x <> tok)
  /\ (forall safety' now', createContext safety' now' r s2 = (anonymous r, s2))
  /\ (forall s0,
         logout (anonymous r) s0
         = ({| success := true; message := "No active session";
               clearCookie := clearedCookie |}, s0)).
Proof.
  intros Hc Hu Htok Hlo. cbn zeta.
  destruct (createContext_cases safety now r s)
    as [Ha|(tok' & uid & session & Htok' & Ht & Hv & Hs & [[_ Ha]|[Hle Ha]])];
    rewrite Ha in Hc; injection Hc as <- <-; cbn [user anonymous] in Hu;
    try (now contradiction Hu).
  rewrite Htok in Htok'. injection Htok' as <-.
  split; [|split; [reflexivity|split; [|split]]].
  - unfold logout. cbn [user req]. rewrite Hlo, Ht.
    destruct (selectUserById uid s); [reflexivity|now contradiction Hu].
  - intros x. unfold deleteSessionsByToken. cbn [sessions_table withSessions].
    rewrite filter_In, negb_true_iff, String.eqb_neq. reflexivity.
  - intros safety' now'. unfold createContext. rewrite Htok, Ht. cbn [negb].
    destruct (jwt_verify tok now'); [|reflexivity].
    now rewrite selectSessionByToken_deleted.
  - reflexivity.
Qed.

(** For a fetch request whose cookie header is written from well-formed
    names and values with one session cookie, its value free of equals
    signs, createContext and logout read the same token. *)
Lemma fetch_tokens_agree (before after : list (string * string)) (tok : string) :
  let pairs := before ++ ("session", tok) :: after in
  let r := {| headersCookie := None;
              headersGet := Some (Some (Cookies.header pairs));
              cookies := None |} in
  Forall Cookies.wellFormed pairs ->
  Forall (fun kv => fst kv <> "session") before ->
  Forall (fun kv => fst kv <> "session") after ->
  mentions "=" tok = false ->
  Cookies.sessionOf (cookieHeader r) = Some tok /\ logoutToken r = Some tok.
Proof.
  cbn zeta. intros Hwf Hb Ha Htok.
  assert (Htr : truthy (Cookies.header (before ++ ("session", tok) :: after)) = true).
  { unfold Cookies.header. destruct before as [|kv before]; cbn [app map].
    - destruct after; cbn; reflexivity.
    - destruct (map Cookies.pair (before ++ ("session", tok) :: after)) eqn:E.
      + destruct before; discriminate.
      + rewrite join_cons; [|discriminate].
        pose proof (pair_truthy kv) as Hp. destruct (Cookies.pair kv); [discriminate|].
        reflexivity. }
  unfold cookieHeader, logoutToken, orElse.
  cbn [headersCookie headersGet cookies]. rewrite Htr. split.
  - now apply sessionOf_header.
  - now apply logoutSessionOf_header.
Qed.

End SessionLife.

(** ** Signing up *)

Section SigningUp.
Import Text Identity.
Context `{Platform}.

(** The row signup inserts for an input. *)
Lemma signup_cases (salt : string) (now : Z) (expiresAt : string) (input : signupInput)
    (s : store) :
  let u := {| usersTable.id := nextRowid (map usersTable.id (users_table s));
              usersTable.email := email input;
              usersTable.password := bcrypt_hash (password input) salt;
              usersTable.ssnHash := Some (ssnLookupHash (ssn input));
              usersTable.ssnLast4 := Some (ssnLast4 (ssn input));
              usersTable.details := rest input |} in
  let s1 := withUsers (users_table s ++ [u]) s in
  (selectUserByEmail (email input) s <> None
   /\ signup salt now expiresAt input s = (inl emailTaken, s))
  \/ (selectUserByEmail (email input) s = None
      /\ selectUserBySsnHash (ssnLookupHash (ssn input)) s <> None
      /\ signup salt now expiresAt input s = (inl ssnTaken, s))
  \/ (selectUserByEmail (email input) s = None
      /\ selectUserBySsnHash (ssnLookupHash (ssn input)) s = None
      /\ signup salt now expiresAt input s = openSession u now expiresAt s1).
Proof.
  cbn zeta. unfold signup.
  destruct (selectUserByEmail (email input) s) eqn:He.
  { left. split; [discriminate|reflexivity]. }
  destruct (selectUserBySsnHash (ssnLookupHash (ssn input)) s) eqn:Hs.
  { right. left. repeat split. discriminate. }
  right. right. split; [reflexivity|]. split; [reflexivity|].
  unfold insertUser. rewrite He.
  unfold selectUserByEmail at 1. cbn [users_table withUsers].
  unfold selectUserByEmail in He. rewrite (find_app_none _ _ _ He).
  cbn [find usersTable.email]. now rewrite String.eqb_refl.
Qed.

(** X22.  signup refuses an email that is on file, and then an SSN whose
    lookup hash is on file, each with CONFLICT and nothing written.  When it
    returns, neither was on file, one user row is appended (with the hash of
    the password, the SSN hash and last four digits, and a fresh id) and one
    session for that user, with the returned token.  The only other failure
    is the refusal of the session insert by the UNIQUE constraint on the
    token: then the user row is on file although the call failed. *)
Theorem signup_outcomes (salt : string) (now : Z) (expiresAt : string)
    (input : signupInput) (s : store) :
  (selectUserByEmail (email input) s <> None ->
   signup salt now expiresAt input s = (inl emailTaken, s))
  /\ (selectUserByEmail (email input) s = None ->
      selectUserBySsnHash (ssnLookupHash (ssn input)) s <> None ->
      signup salt now expiresAt input s = (inl ssnTaken, s))
  /\ (forall res s',
         signup salt now expiresAt input s = (inr res, s') ->
         selectUserByEmail (email input) s = None
         /\ selectUserBySsnHash (ssnLookupHash (ssn input)) s = None
         /\ exists u row,
              users_table s' = users_table s ++ [u]
              /\ sessions_table s' = sessions_table s ++ [row]
              /\ usersTable.email u = email input
              /\ usersTable.password u = bcrypt_hash (password input) salt
              /\ usersTable.ssnHash u = Some (ssnLookupHash (ssn input))
              /\ usersTable.ssnLast4 u = Some (ssnLast4 (ssn input))
              /\ usersTable.details u = rest input
              /\ ~ In (usersTable.id u) (map usersTable.id (users_table s))
              /\ signedInUser res = withoutPassword u
              /\ sessions.userId row = usersTable.id u
              /\ sessions.token row = token res
              /\ sessions.expiresAt row = expiresAt
              /\ selectSessionByToken (token res) s = None)
  /\ (forall f s',
         signup salt now expiresAt input s = (inl f, s') ->
         s' = s
         \/ (f = tokenNotUnique
             /\ sessions_table s' = sessions_table s
             /\ exists u, users_table s' = users_table s ++ [u]
                          /\ usersTable.email u = email input)).
Proof.
  pose proof (signup_cases salt now expiresAt input s) as Hc. cbn zeta in Hc.
  split; [|split; [|split]].
  - intros He. destruct Hc as [[_ Hc]|[(Hn & _)|(Hn & _)]]; [exact Hc| |];
      now contradiction He.
  - intros He Hs. destruct Hc as [[Hn _]|[(_ & _ & Hc)|(_ & Hn & _)]];
      [now contradiction Hn|exact Hc|now contradiction Hs].
  - intros res s' Heq.
    destruct Hc as [[_ Hc]|[(_ & _ & Hc)|(He & Hs & Hc)]];
      rewrite Hc in Heq; try discriminate.
    match type of Heq with openSession ?u _ _ ?s1 = _ =>
      destruct (openSession_cases u now expiresAt s1) as [[_ Ho]|[Hn Ho]] end;
      rewrite Ho in Heq; [discriminate|]. injection Heq as <- <-.
    split; [exact He|]. split; [exact Hs|].
    eexists. eexists. cbn [users_table sessions_table withSessions withUsers
                           signedInUser token].
    repeat split; try reflexivity.
    + cbn [usersTable.id]. apply nextRowid_fresh.
    + exact Hn.
  - intros f s' Heq.
    destruct Hc as [[_ Hc]|[(_ & _ & Hc)|(He & Hs & Hc)]];
      rewrite Hc in Heq.
    + injection Heq as <- <-. now left.
    + injection Heq as <- <-. now left.
    + match type of Heq with openSession ?u _ _ ?s1 = _ =>
        destruct (openSession_cases u now expiresAt s1) as [[_ Ho]|[Hn Ho]] end;
        rewrite Ho in Heq; [|discriminate]. injection Heq as <- <-.
      right. split; [reflexivity|]. split; [reflexivity|].
      eexists. split; reflexivity.
Qed.

(** X23.  After a signup, a login with the same email and password
    returns the user the signup created, provided bcrypt accepts the
    password against the hash it made of it and the new token is on no
    session yet. *)
Theorem signup_then_login (salt : string) (now now2 : Z) (exp exp2 : string)
    (input : signupInput) (s s1 : store) (res : signedIn) :
  signup salt now exp input s = (inr res, s1) ->
  bcrypt_compare (password input) (bcrypt_hash (password input) salt) = true ->
  selectSessionByToken (jwt_sign (returnedId (signedInUser res)) now2) s1 = None ->
  exists res2 s2,
    login now2 exp2 {| loginEmail := email input; loginPassword := password input |} s1
    = (inr res2, s2)
    /\ signedInUser res2 = signedInUser res
    /\ users_table s2 = users_table s1
    /\ length (sessions_table s2) = S (length (sessions_table s1)).
Proof.
  intros Hs Hcmp Hfresh.
  pose proof (signup_cases salt now exp input s) as Hc. cbn zeta in Hc.
  destruct Hc as [[_ Hc]|[(_ & _ & Hc)|(He & Hh & Hc)]];
    rewrite Hc in Hs; try discriminate.
  match type of Hs with openSession ?u _ _ ?s1 = _ =>
    destruct (openSession_cases u now exp s1) as [[_ Ho]|[Hn Ho]] end;
    rewrite Ho in Hs; [discriminate|]. injection Hs as <- <-.
  cbn [signedInUser withoutPassword returnedId usersTable.id] in Hfresh.
  unfold login. cbn [loginEmail loginPassword].
  unfold selectUserByEmail at 1. cbn [users_table withSessions withUsers].
  unfold selectUserByEmail in He. rewrite (find_app_none _ _ _ He).
  cbn [find usersTable.email]. rewrite String.eqb_refl.
  cbn [usersTable.password]. rewrite Hcmp. cbn [negb].
  unfold openSession, insertSession. cbn [usersTable.id]. rewrite Hfresh.
  eexists. eexists. split; [reflexivity|].
  cbn [signedInUser users_table sessions_table withSessions withUsers].
  repeat split. rewrite length_app. cbn. lia.
Qed.

End SigningUp.

(** ** What the auth router keeps true of the store *)

Section StoreInvariant.
Import Text Identity.
Context `{Platform}.

Lemma lowerChar_idem (c : ascii) : lowerChar (lowerChar c) = lowerChar c.
Proof. destruct c as [[] [] [] [] [] [] [] []]; reflexivity. Qed.

Lemma toLowerCase_idem (s : string) : toLowerCase (toLowerCase s) = toLowerCase s.
Proof.
  unfold toLowerCase. induction s as [|c s IH]; [reflexivity|].
  cbn. now rewrite lowerChar_idem, IH.
Qed.

Lemma NoDup_map_filter {Row Key} (key : Row -> Key) (keep : Row -> bool)
    (rows : list Row) :
  NoDup (map key rows) -> NoDup (map key (filter keep rows)).
Proof.
  induction rows as [|r rows IH]; cbn; [auto|]. intros Hnd. inversion Hnd; subst.
  destruct (keep r); [|auto]. cbn. constructor; [|auto].
  intros Hin. apply in_map_iff in Hin. destruct Hin as (r' & Hkey & Hin).
  apply filter_In in Hin. destruct Hin as [Hin _].
  match goal with Hnot : ~ In _ _ |- _ => apply Hnot end.
  rewrite <- Hkey. now apply in_map.
Qed.

Lemma sound_deleted (tok : string) (s : store) :
  Visits.sound s -> Visits.sound (deleteSessionsByToken tok s).
Proof.
  intros (Hid & Hem & Hssn & Hlow & Hsid & Htok & Hfk).
  unfold Visits.sound, deleteSessionsByToken, Visits.ssnHashes.
  cbn [users_table sessions_table withSessions].
  repeat split; auto using NoDup_map_filter.
  rewrite Forall_forall in *. intros r Hin. apply filter_In in Hin.
  now apply Hfk.
Qed.

Lemma selectSessionByToken_fresh (tok : string) (s : store) :
  selectSessionByToken tok s = None -> ~ In tok (map sessions.token (sessions_table s)).
Proof.
  intros Hn Hin. apply in_map_iff in Hin. destruct Hin as (r & Hr & Hin).
  pose proof (find_none _ _ Hn r Hin) as Hf. cbn in Hf.
  rewrite Hr, String.eqb_refl in Hf. discriminate.
Qed.

Lemma selectUserByEmail_fresh (e : string) (s : store) :
  selectUserByEmail e s = None -> ~ In e (map usersTable.email (users_table s)).
Proof.
  intros Hn Hin. apply in_map_iff in Hin. destruct Hin as (u & Hu & Hin).
  pose proof (find_none _ _ Hn u Hin) as Hf. cbn in Hf.
  rewrite Hu, String.eqb_refl in Hf. discriminate.
Qed.

Lemma selectUserBySsnHash_fresh (h : string) (s : store) :
  selectUserBySsnHash h s = None -> ~ In h (Visits.ssnHashes s).
Proof.
  intros Hn Hin. unfold Visits.ssnHashes in Hin. apply in_flat_map in Hin.
  destruct Hin as (u & Hin & Hu).
  pose proof (find_none _ _ Hn u Hin) as Hf. cbn in Hf.
  destruct (usersTable.ssnHash u) as [h'|]; [|destruct Hu].
  destruct Hu as [->|[]]. now rewrite String.eqb_refl in Hf.
Qed.

Lemma sound_openSession (u : usersTable.row) (now : Z) (expiresAt : string) (s : store) :
  Visits.sound s -> In (usersTable.id u) (map usersTable.id (users_table s)) ->
  Visits.sound (snd (openSession u now expiresAt s)).
Proof.
  intros Hs Hu. destruct (openSession_cases u now expiresAt s) as [[_ ->]|[Hn ->]];
    [exact Hs|]. cbn [snd].
  destruct Hs as (Hid & Hem & Hssn & Hlow & Hsid & Htok & Hfk).
  unfold Visits.sound, Visits.ssnHashes.
  cbn [users_table sessions_table withSessions]. rewrite !map_app. cbn [map].
  repeat split; auto.
  - apply NoDup_snoc; [exact Hsid|apply nextRowid_fresh].
  - apply NoDup_snoc; [exact Htok|]. now apply selectSessionByToken_fresh.
  - apply Forall_app. split; [exact Hfk|]. now repeat constructor.
Qed.

Lemma sound_signup (salt : string) (now : Z) (expiresAt : string) (input : signupInput)
    (s : store) :
  Visits.sound s -> toLowerCase (email input) = email input ->
  Visits.sound (snd (signup salt now expiresAt input s)).
Proof.
  intros Hs Hlower.
  pose proof (signup_cases salt now expiresAt input s) as Hc. cbn zeta in Hc.
  destruct Hc as [[_ ->]|[(_ & _ & ->)|(He & Hh & ->)]]; try exact Hs.
  apply sound_openSession.
  - destruct Hs as (Hid & Hem & Hssn & Hlow & Hsid & Htok & Hfk).
    unfold Visits.sound, Visits.ssnHashes.
    cbn [users_table sessions_table withUsers]. rewrite !map_app, flat_map_app.
    cbn [map flat_map usersTable.id usersTable.email usersTable.ssnHash app].
    repeat split; auto.
    + apply NoDup_snoc; [exact Hid|apply nextRowid_fresh].
    + apply NoDup_snoc; [exact Hem|]. now apply selectUserByEmail_fresh.
    + apply NoDup_snoc; [exact Hssn|]. now apply selectUserBySsnHash_fresh.
    + apply Forall_app. split; [exact Hlow|]. now repeat constructor.
    + rewrite Forall_forall in *. intros r Hin. apply in_or_app. left. now apply Hfk.
  - cbn [users_table withUsers]. rewrite map_app. apply in_or_app. right. now left.
Qed.

Lemma sound_login (now : Z) (expiresAt : string) (input : loginInput) (s : store) :
  Visits.sound s -> Visits.sound (snd (login now expiresAt input s)).
Proof.
  intros Hs. unfold login.
  destruct (selectUserByEmail (loginEmail input) s) as [u|] eqn:Hu; [|exact Hs].
  destruct (negb _); [exact Hs|].
  apply sound_openSession; [exact Hs|].
  apply find_some in Hu. destruct Hu as [Hin _]. now apply in_map.
Qed.

Lemma sound_createContext (safety : option Z) (now : Z) (r : request) (s : store) :
  Visits.sound s -> Visits.sound (snd (createContext safety now r s)).
Proof.
  intros Hs.
  destruct (createContext_cases safety now r s)
    as [->|(tok & uid & session & _ & _ & _ & _ & [[_ ->]|[_ ->]])]; cbn [snd]; auto.
  now apply sound_deleted.
Qed.

Lemma sound_logout (ctx : context) (s : store) :
  Visits.sound s -> Visits.sound (snd (logout ctx s)).
Proof.
  intros Hs. unfold logout. destruct (user ctx); [|exact Hs]. cbn [snd].
  destruct (logoutToken (req ctx)) as [tok|]; [|exact Hs].
  destruct (truthy tok); [|exact Hs]. now apply sound_deleted.
Qed.

Lemma signupSchema_email (now : Z) (raw : signupRequest) (input : signupInput) :
  signupSchema now raw = Some input -> email input = toLowerCase (rawEmail raw).
Proof.
  unfold signupSchema. destruct (_ && _); [|discriminate].
  intros Heq. injection Heq as <-. reflexivity.
Qed.

Lemma sound_perform (v : Visits.visit) (s : store) :
  Visits.sound s -> Visits.sound (Visits.perform v s).
Proof.
  intros Hs. unfold Visits.perform.
  pose proof (sound_createContext (Visits.safetyMs v) (Visits.nowMs v) (Visits.from v) Hs)
    as Hc.
  destruct (createContext _ _ _ s) as [ctx s1]. cbn [snd] in Hc.
  destruct (Visits.calls v) as [salt exp raw|exp raw| |].
  - destruct (signupSchema (Visits.nowMs v) raw) as [input|] eqn:E; [|exact Hc].
    apply sound_signup; [exact Hc|].
    rewrite (signupSchema_email _ _ E). apply toLowerCase_idem.
  - destruct (loginSchema raw); [|exact Hc]. now apply sound_login.
  - now apply sound_logout.
  - exact Hc.
Qed.


(** X25.  signup files the email in lower case and login looks the email
    up as typed: after a signup with an email that holds an upper-case
    letter, a login with the email and password exactly as given to signup
    fails with the invalid-credentials failure and writes nothing. *)
Theorem login_is_case_sensitive (salt : string) (now now2 : Z) (exp exp2 : string)
    (raw : signupRequest) (input : signupInput) (s s1 : store) (res : signedIn) :
  Visits.sound s ->
  signupSchema now raw = Some input ->
  signup salt now exp input s = (inr res, s1) ->
  toLowerCase (rawEmail raw) <> rawEmail raw ->
  returnedEmail (signedInUser res) = toLowerCase (rawEmail raw)
  /\ login now2 exp2 {| loginEmail := rawEmail raw; loginPassword := rawPassword raw |} s1
     = (inl invalidCredentials, s1).
Proof.
  intros Hs Hschema Hsign Hcase.
  pose proof (signupSchema_email _ _ Hschema) as Hemail.
  pose proof (sound_signup salt now exp input Hs) as Hs1.
  rewrite Hsign in Hs1. cbn [snd] in Hs1.
  specialize (Hs1 ltac:(rewrite Hemail; apply toLowerCase_idem)).
  split.
  - pose proof (signup_cases salt now exp input s) as Hc. cbn zeta in Hc.
    destruct Hc as [[_ Hc]|[(_ & _ & Hc)|(_ & _ & Hc)]];
      rewrite Hc in Hsign; try discriminate.
    match type of Hsign with openSession ?u _ _ ?s1 = _ =>
      destruct (openSession_cases u now exp s1) as [[_ Ho]|[_ Ho]] end;
      rewrite Ho in Hsign; [discriminate|]. injection Hsign as <- _.
    cbn. exact Hemail.
  - unfold login. cbn [loginEmail loginPassword].
    destruct (selectUserByEmail (rawEmail raw) s1) as [u|] eqn:Hu; [|reflexivity].
    apply find_some in Hu. destruct Hu as [Hin Heq]. apply String.eqb_eq in Heq.
    destruct Hs1 as (_ & _ & _ & Hlow & _). rewrite Forall_forall in Hlow.
    specialize (Hlow u Hin). rewrite Heq in Hlow. now contradiction Hcase.
Qed.

End StoreInvariant.

(** ** The session scripts *)

Section SessionScripts.
Import Text Identity Scripts.

Lemma ltb_asym (a b : string) : String.ltb a b = true -> String.ltb b a = false.
Proof.
  unfold String.ltb. rewrite (String.compare_antisym a b).
  destruct (String.compare b a); cbn; congruence.
Qed.

Lemma insertByExpiry_perm (x : sessions.row) (l : list sessions.row) :
  Permutation (insertByExpiry x l) (x :: l).
Proof.
  induction l as [|y l IH]; cbn; [reflexivity|].
  destruct (String.ltb _ _); [|reflexivity].
  rewrite IH. apply perm_swap.
Qed.

Lemma orderByExpiry_perm (l : list sessions.row) : Permutation (orderByExpiry l) l.
Proof.
  induction l as [|x l IH]; cbn; [reflexivity|].
  rewrite insertByExpiry_perm. now constructor.
Qed.

Lemma insertByExpiry_sorted (x : sessions.row) (l : list sessions.row) :
  Sorted notAfter l -> Sorted notAfter (insertByExpiry x l).
Proof.
  induction l as [|y l IH]; intros Hs; cbn; [repeat constructor|].
  inversion Hs as [|? ? Hl Hhd]; subst.
  destruct (String.ltb (sessions.expiresAt y) (sessions.expiresAt x)) eqn:E.
  - constructor; [now apply IH|].
    destruct l as [|z l]; cbn.
    + constructor. unfold notAfter. now apply ltb_asym.
    + destruct (String.ltb (sessions.expiresAt z) (sessions.expiresAt x)).
      * constructor. now inversion Hhd.
      * constructor. unfold notAfter. now apply ltb_asym.
  - constructor; [exact Hs|]. constructor. exact E.
Qed.

Lemma orderByExpiry_sorted (l : list sessions.row) : Sorted notAfter (orderByExpiry l).
Proof.
  induction l as [|x l IH]; cbn; [constructor|]. now apply insertByExpiry_sorted.
Qed.

Lemma ascii_compare_lt_trans (a b c : ascii) :
  Ascii.compare a b = Lt -> Ascii.compare b c = Lt -> Ascii.compare a c = Lt.
Proof.
  unfold Ascii.compare. rewrite !N.compare_lt_iff. lia.
Qed.

Lemma compare_lt_trans (a : string) :
  forall b c, String.compare a b = Lt -> String.compare b c = Lt ->
              String.compare a c = Lt.
Proof.
  induction a as [|x a IH]; intros [|y b] [|z c]; cbn; try congruence.
  destruct (Ascii.compare x y) eqn:Exy; try discriminate;
    destruct (Ascii.compare y z) eqn:Eyz; try discriminate; intros Hab Hbc.
  - apply Ascii.compare_eq_iff in Exy, Eyz. subst.
    replace (Ascii.compare z z) with Eq; [now apply (IH b c)|].
    symmetry. unfold Ascii.compare. apply N.compare_refl.
  - apply Ascii.compare_eq_iff in Exy. subst. now rewrite Eyz.
  - apply Ascii.compare_eq_iff in Eyz. subst. now rewrite Exy.
  - now rewrite (ascii_compare_lt_trans _ _ _ Exy Eyz).
Qed.

Lemma ltb_trans (a b c : string) :
  String.ltb a b = true -> String.ltb b c = true -> String.ltb a c = true.
Proof.
  unfold String.ltb.
  destruct (String.compare a b) eqn:Eab; try discriminate.
  destruct (String.compare b c) eqn:Ebc; try discriminate.
  now rewrite (compare_lt_trans _ _ _ Eab Ebc).
Qed.

Lemma notAfter_trans (a b c : sessions.row) :
  notAfter a b -> notAfter b c -> notAfter a c.
Proof.
  unfold notAfter. intros Hab Hbc.
  destruct (String.ltb (sessions.expiresAt c) (sessions.expiresAt a)) eqn:Eca;
    [|reflexivity].
  (* c < a, and a <= b: then c < b, against b <= c *)
  exfalso. unfold String.ltb in Hab.
  destruct (String.compare (sessions.expiresAt b) (sessions.expiresAt a)) eqn:Eba;
    try discriminate.
  - apply String.compare_eq_iff in Eba. rewrite Eba in Hbc. congruence.
  - assert (Hlt : String.ltb (sessions.expiresAt a) (sessions.expiresAt b) = true).
    { unfold String.ltb. rewrite String.compare_antisym, Eba. reflexivity. }
    rewrite (ltb_trans _ _ _ Eca Hlt) in Hbc. discriminate.
Qed.

Lemma orderByExpiry_strongly (l : list sessions.row) :
  StronglySorted notAfter (orderByExpiry l).
Proof.
  apply Sorted_StronglySorted; [|apply orderByExpiry_sorted].
  intros a b c. apply notAfter_trans.
Qed.

Lemma insertByExpiry_first (x : sessions.row) (l : list sessions.row) :
  Forall (notAfter x) l -> insertByExpiry x l = x :: l.
Proof.
  destruct l as [|y l]; [reflexivity|]. intros Hall. inversion Hall as [|? ? Hy _]; subst.
  cbn. unfold notAfter in Hy. now rewrite Hy.
Qed.

Lemma filter_insertByExpiry (p : sessions.row -> bool) (x : sessions.row)
    (l : list sessions.row) :
  StronglySorted notAfter l ->
  filter p (insertByExpiry x l)
  = if p x then insertByExpiry x (filter p l) else filter p l.
Proof.
  induction l as [|y l IH]; intros Hs; cbn.
  - now destruct (p x).
  - apply StronglySorted_inv in Hs. destruct Hs as [Hs Hy].
    destruct (String.ltb (sessions.expiresAt y) (sessions.expiresAt x)) eqn:E; cbn.
    + rewrite (IH Hs). destruct (p y), (p x); cbn; try rewrite E; reflexivity.
    + destruct (p x) eqn:Ex; [|reflexivity].
      assert (Hall : Forall (notAfter x) (filter p (y :: l))).
      { apply Forall_forall. intros z Hz. apply filter_In in Hz. destruct Hz as [Hz _].
        destruct Hz as [<-|Hz]; [exact E|].
        rewrite Forall_forall in Hy. exact (notAfter_trans E (Hy z Hz)). }
      cbn [filter] in Hall. now rewrite (insertByExpiry_first Hall).
Qed.

(** Selecting and ordering commute. *)
Lemma filter_orderByExpiry (p : sessions.row -> bool) (l : list sessions.row) :
  filter p (orderByExpiry l) = orderByExpiry (filter p l).
Proof.
  induction l as [|x l IH]; [reflexivity|].
  change (orderByExpiry (x :: l)) with (insertByExpiry x (orderByExpiry l)).
  rewrite (filter_insertByExpiry p x (orderByExpiry_strongly l)), IH.
  cbn [filter]. now destruct (p x).
Qed.

Lemma filter_every (l : list sessions.row) : filter every l = l.
Proof. induction l as [|x l IH]; cbn; [reflexivity|now rewrite IH]. Qed.

Lemma filter_length_split {A} (p : A -> bool) (l : list A) :
  (length (filter p l) + length (filter (fun x => negb (p x)) l) = length l)%nat.
Proof.
  induction l as [|x l IH]; cbn; [reflexivity|]. destruct (p x); cbn; lia.
Qed.

Lemma filter_none {A} (p : A -> bool) (l : list A) :
  length (filter p l) = 0%nat -> filter (fun x => negb (p x)) l = l.
Proof.
  induction l as [|x l IH]; cbn; [reflexivity|].
  destruct (p x); cbn; [discriminate|]. intros Hl. now rewrite IH.
Qed.

Lemma filter_filter_negb {A} (p : A -> bool) (l : list A) :
  filter p (filter (fun x => negb (p x)) l) = [].
Proof.
  induction l as [|x l IH]; cbn; [reflexivity|].
  destruct (p x) eqn:E; cbn; [exact IH|]. now rewrite E.
Qed.

Lemma filter_map_comm {A B} (f : A -> B) (q : B -> bool) (l : list A) :
  filter q (map f l) = map f (filter (fun x => q (f x)) l).
Proof.
  induction l as [|x l IH]; cbn; [reflexivity|].
  destruct (q (f x)); cbn; now rewrite IH.
Qed.

(** What [clearExpired] leaves. *)
Lemma clearExpired_store (now : string) (s : store) :
  snd (clearExpired now s) = deleteWhere (expiresBefore now) s
  /\ fst (clearExpired now s) = length (filter (expiresBefore now) (sessions_table s)).
Proof.
  unfold clearExpired.
  destruct (length (filter (expiresBefore now) (sessions_table s)) =? 0)%nat eqn:E.
  - apply Nat.eqb_eq in E. cbn [fst snd]. split; [|now rewrite E].
    unfold deleteWhere. rewrite (filter_none _ _ E). now destruct s.
  - split; reflexivity.
Qed.

(** X26.  clearExpired deletes the sessions whose expiry text sorts
    before the clock reading and no others, keeps the users and the order of
    the remaining sessions, and returns the number of sessions it deleted; a
    second run at the same reading finds nothing to delete.  The listing
    after it is the listing before it without the deleted sessions, and a
    listing is ordered by expiry. *)
Theorem clearExpired_clears (now : string) (s : store) :
  let n := fst (clearExpired now s) in
  let s' := snd (clearExpired now s) in
  users_table s' = users_table s
  /\ sessions_table s'
     = filter (fun r => negb (expiresBefore now r)) (sessions_table s)
  /\ (n + length (sessions_table s') = length (sessions_table s))%nat
  /\ (forall r, In r (sessions_table s') ->
                String.ltb (sessions.expiresAt r) now = false)
  /\ clearExpired now s' = (0%nat, s')
  /\ listSessions s'
     = filter (fun l => negb (expiresBefore now (session l))) (listSessions s)
  /\ Sorted notAfter (map session (listSessions s)).
Proof.
  cbn zeta. destruct (clearExpired_store now s) as [-> ->].
  unfold deleteWhere. cbn [users_table sessions_table withSessions].
  split; [reflexivity|]. split; [reflexivity|]. split; [apply filter_length_split|].
  split; [|split; [|split]].
  - intros r Hin. apply filter_In in Hin. destruct Hin as [_ Hr].
    now apply negb_true_iff in Hr.
  - unfold clearExpired. cbn [sessions_table withSessions].
    now rewrite filter_filter_negb.
  - unfold listSessions, listWhere. cbn [sessions_table withSessions].
    rewrite !filter_every, filter_map_comm. cbn [session joinUser].
    rewrite filter_orderByExpiry. reflexivity.
  - unfold listSessions, listWhere. rewrite map_map. cbn [session joinUser].
    rewrite map_id, filter_every. apply orderByExpiry_sorted.
Qed.

End SessionScripts.

(** ** Clearing sessions by criteria *)

Section ClearSessions.
Import Text Identity Scripts.

(** The deletion goes by the condition of the listing, or does not
    happen because no criterion was given. *)
Lemma criteria_agree (o : options) (s : store) :
  (listCriteria o s = NoSuchUser /\ deleteCriteria o s = Some NoSuchUser)
  \/ exists p,
       listCriteria o s = Where p
       /\ (deleteCriteria o s = Some (Where p)
           \/ (deleteCriteria o s = None
               /\ given (email o) = None /\ given (before o) = None
               /\ given (after o) = None /\ all o = false)).
Proof.
  unfold listCriteria, deleteCriteria.
  destruct (given (email o)) as [e|].
  { destruct (selectUserByEmail e s) as [u|]; [right|left]; eauto. }
  destruct (given (before o)) as [t|]; [right; eauto|].
  destruct (given (after o)) as [t|]; [right; eauto|].
  destruct (all o); right; exists every; auto 10.
Qed.

Lemma listWhere_sessions (p : sessions.row -> bool) (s : store) :
  map session (listWhere p s) = orderByExpiry (filter p (sessions_table s)).
Proof.
  unfold listWhere. rewrite map_map. cbn [session joinUser]. apply map_id.
Qed.

(** X27.  clear-sessions.js deletes what it lists: for every argument
    list the run ends without an error and leaves the users alone; what it
    found is ordered by expiry; when it reports a number of deleted
    sessions, the run was not a dry one, the number is the number of
    sessions it listed, the sessions it listed are the sessions its criterion
    selects and exactly those are gone from the table; when it reports
    none, the store is untouched, which is the case on every dry run and
    whenever no criterion is given. *)
Theorem clearSessions_deletes_what_it_lists (args : list string) (s : store) :
  let o := parseArgs args noOptions in
  exists rep s',
    clearSessions args s = (inr rep, s')
    /\ found rep = listMatching o s
    /\ users_table s' = users_table s
    /\ Sorted notAfter (map session (found rep))
    /\ match deleted rep with
       | Some n =>
           dry o = false
           /\ n = length (found rep)
           /\ exists p,
                listCriteria o s = Where p
                /\ Permutation (map session (found rep)) (filter p (sessions_table s))
                /\ sessions_table s' = filter (fun r => negb (p r)) (sessions_table s)
       | None => s' = s
       end
    /\ (dry o = true -> deleted rep = None)
    /\ (given (email o) = None -> given (before o) = None ->
        given (after o) = None -> all o = false -> deleted rep = None).
Proof.
  cbn zeta. unfold clearSessions. generalize (parseArgs args noOptions). intros o.
  unfold run, listMatching.
  destruct (criteria_agree o s) as [[Hl Hd]|(p & Hl & Hd)]; rewrite Hl.
  { eexists. eexists. split; [reflexivity|]. cbn [found deleted map].
    repeat split; auto; constructor. }
  assert (Hsorted : Sorted notAfter (map session (listWhere p s))).
  { rewrite listWhere_sessions. apply orderByExpiry_sorted. }
  destruct (listWhere p s) as [|row rows] eqn:Hrows.
  { eexists. eexists. split; [reflexivity|]. cbn [found deleted map].
    repeat split; auto. }
  destruct (dry o) eqn:Hdry.
  { eexists. eexists. split; [reflexivity|]. cbn [found deleted].
    repeat split; auto. }
  destruct Hd as [Hd|(Hd & He & Hb & Ha & Hall)]; rewrite Hd.
  - eexists. eexists. split; [reflexivity|]. cbn [found deleted].
    assert (Hperm : Permutation (map session (row :: rows))
                                (filter p (sessions_table s))).
    { rewrite <- Hrows, listWhere_sessions. apply orderByExpiry_perm. }
    repeat split; auto; try discriminate.
    + rewrite <- (Permutation_length Hperm). now rewrite length_map.
    + exists p. repeat split; auto.
    + intros He Hb Ha Hall. exfalso. revert Hd. unfold deleteCriteria.
      rewrite He, Hb, Ha, Hall. discriminate.
  - eexists. eexists. split; [reflexivity|]. cbn [found deleted].
    repeat split; auto.
Qed.

End ClearSessions.

(** ** The transaction benchmark *)

Section Benchmark.
Import Scripts.

Lemma insertLoop_rows (accountId : Z) (clock : nat -> string) (n : nat) :
  forall i d,
    users_rows (insertLoop accountId clock i n d) = users_rows d
    /\ accounts_rows (insertLoop accountId clock i n d) = accounts_rows d
    /\ sessions_rows (insertLoop accountId clock i n d) = sessions_rows d
    /\ exists added,
         transactions_rows (insertLoop accountId clock i n d)
         = transactions_rows d ++ added
         /\ length added = n
         /\ Forall (fun t => transactions.accountId t = accountId) added.
Proof.
  induction n as [|n IH]; intros i d; cbn [insertLoop].
  - repeat split. exists []. now rewrite app_nil_r.
  - destruct (IH (S i) (insertPerfDeposit accountId i (clock i) d))
      as (Hu & Ha & Hs & added & Ht & Hlen & Hall).
    rewrite Hu, Ha, Hs, Ht. repeat split.
    unfold insertPerfDeposit. cbn [transactions_rows withTransactions].
    eexists. rewrite <- app_assoc. split; [reflexivity|]. split.
    + cbn. now rewrite Hlen.
    + constructor; [reflexivity|exact Hall].
Qed.

Lemma filter_all_false {A} (p : A -> bool) (l : list A) :
  Forall (fun x => p x = false) l -> filter p l = [].
Proof.
  induction 1 as [|x l Hx _ IH]; cbn; [reflexivity|]. now rewrite Hx.
Qed.

Lemma filter_all_true {A} (p : A -> bool) (l : list A) :
  Forall (fun x => p x = true) l -> filter p l = l.
Proof.
  induction 1 as [|x l Hx _ IH]; cbn; [reflexivity|]. now rewrite Hx, IH.
Qed.


End Benchmark.

(** ** The helpers of the funding script *)

Section FundingScript.
Import Text Identity Scripts.

(** The decimal digits of a number with [k + 1] digits. *)
Lemma toString_digits (k : nat) (n : N) :
  (10 ^ N.of_nat k <= n < 10 ^ N.of_nat (S k))%N \/ (k = 0%nat /\ n = 0%N) ->
  String.length (Router.toString n) = S k
  /\ Spec.numeric (Router.toString n)
  /\ Spec.decimalValue (Router.toString n) = n.
Proof.
  intros Hn. unfold Router.toString, Spec.decimalValue.
  assert (Hfuel : (k < S (N.to_nat (N.log2 n)))%nat).
  { destruct Hn as [[Hlo _]|[-> _]]; [|lia].
    assert (Hpos : (0 < 10 ^ N.of_nat k)%N) by (apply N.neq_0_lt_0, N.pow_nonzero; lia).
    assert (Hle : (2 ^ N.of_nat k <= n)%N).
    { eapply N.le_trans; [|exact Hlo]. apply N.pow_le_mono_l. lia. }
    apply N.log2_le_pow2 in Hle; [|lia].
    clear - Hle. revert Hle. generalize (N.log2 n). intros m Hm. lia. }
  destruct (@digitsOf_spec k (S (N.to_nat (N.log2 n))) n "" 0%N Hn Hfuel)
    as (Hlen & Hnum & Hval).
  rewrite Hlen, Hval. cbn [String.length Spec.decimalValueFrom].
  split; [lia|]. split; [now apply Hnum|]. lia.
Qed.

Lemma length_repeatChar (c : ascii) (n : nat) : String.length (repeatChar c n) = n.
Proof. induction n as [|n IH]; cbn; [reflexivity|now rewrite IH]. Qed.

Lemma length_append (a b : string) :
  String.length (a ++ b) = (String.length a + String.length b)%nat.
Proof. induction a as [|c a IH]; cbn; [reflexivity|now rewrite IH]. Qed.

Lemma padStart_zero (n : nat) (s : string) :
  (String.length s <= n)%nat ->
  String.length (padStart n "0" s) = n
  /\ (Spec.numeric s -> Spec.numeric (padStart n "0" s))
  /\ Spec.decimalValue (padStart n "0" s) = Spec.decimalValue s.
Proof.
  intros Hlen. unfold padStart. rewrite length_append, length_repeatChar.
  split; [lia|]. generalize (n - String.length s)%nat. intros m. split.
  - intros Hs. induction m as [|m IH]; cbn; [exact Hs|]. split; [lia|exact IH].
  - unfold Spec.decimalValue. induction m as [|m IH]; cbn; [reflexivity|exact IH].
Qed.

Lemma scriptAccountNumber_spec (r : N) :
  (r < 1000000000)%N ->
  String.length (scriptAccountNumber r) = 10%nat
  /\ Spec.numeric (scriptAccountNumber r)
  /\ Spec.decimalValue (scriptAccountNumber r) = r.
Proof.
  intros Hr.
  assert (Hk : exists k, (k <= 8)%nat
                         /\ ((10 ^ N.of_nat k <= r < 10 ^ N.of_nat (S k))%N
                             \/ (k = 0%nat /\ r = 0%N))).
  { destruct (N.eq_dec r 0) as [->|Hnz]; [exists 0%nat; split; [lia|now right]|].
    destruct (N.lt_ge_cases r 10); [exists 0%nat; split; [lia|left; cbn; lia]|].
    destruct (N.lt_ge_cases r 100); [exists 1%nat; split; [lia|left; cbn; lia]|].
    destruct (N.lt_ge_cases r 1000); [exists 2%nat; split; [lia|left; cbn; lia]|].
    destruct (N.lt_ge_cases r 10000); [exists 3%nat; split; [lia|left; cbn; lia]|].
    destruct (N.lt_ge_cases r 100000); [exists 4%nat; split; [lia|left; cbn; lia]|].
    destruct (N.lt_ge_cases r 1000000); [exists 5%nat; split; [lia|left; cbn; lia]|].
    destruct (N.lt_ge_cases r 10000000); [exists 6%nat; split; [lia|left; cbn; lia]|].
    destruct (N.lt_ge_cases r 100000000); [exists 7%nat; split; [lia|left; cbn; lia]|].
    exists 8%nat. split; [lia|left; cbn; lia]. }
  destruct Hk as (k & Hk8 & Hk).
  destruct (toString_digits Hk) as (Hlen & Hnum & Hval).
  unfold scriptAccountNumber.
  destruct (@padStart_zero 10 (Router.toString r)) as (Hl & Hn & Hv); [lia|].
  rewrite Hl, Hv, Hval. auto.
Qed.


Lemma deleteWhere_ofUser_none (userId : Z) (s : store) :
  filter (ofUser userId) (sessions_table (deleteWhere (ofUser userId) s)) = [].
Proof.
  unfold deleteWhere. cbn [sessions_table withSessions]. apply filter_filter_negb.
Qed.

(** X30.  ensureSession leaves the user with one session, the one it
    inserts: the sessions of the other users and the users stay as they
    are; and ensureUser is idempotent: it returns a user with the email and,
    called again, returns the same user and writes nothing. *)
Theorem ensureSession_one_session (userId : Z) (tok expiresAt : string) (s s' : store) :
  ensureSession userId tok expiresAt s = Some s' ->
  users_table s' = users_table s
  /\ (exists row,
        filter (ofUser userId) (sessions_table s') = [row]
        /\ sessions.token row = tok /\ sessions.expiresAt row = expiresAt)
  /\ filter (fun r => negb (ofUser userId r)) (sessions_table s')
     = filter (fun r => negb (ofUser userId r)) (sessions_table s)
  /\ (forall email s0,
        exists u s1,
          ensureUser email s0 = (Some u, s1)
          /\ usersTable.email u = email
          /\ ensureUser email s1 = (Some u, s1)).
Proof.
  unfold ensureSession, insertSession. intros Hins.
  destruct (selectSessionByToken tok (deleteWhere (ofUser userId) s)); [discriminate|].
  injection Hins as <-. cbn [users_table sessions_table withSessions deleteWhere].
  split; [reflexivity|]. split; [|split].
  - eexists. rewrite filter_app.
    change (filter (fun r => negb (ofUser userId r)) (sessions_table s))
      with (sessions_table (deleteWhere (ofUser userId) s)).
    rewrite deleteWhere_ofUser_none. cbn [app filter]. unfold ofUser at 1.
    cbn [sessions.userId]. rewrite Z.eqb_refl. repeat split.
  - rewrite filter_app. cbn [filter]. unfold ofUser.
    cbn [sessions.userId]. rewrite Z.eqb_refl. cbn [negb]. rewrite app_nil_r.
    apply filter_all_true. apply Forall_forall. intros r Hr.
    apply filter_In in Hr. now destruct Hr.
  - intros email s0. unfold ensureUser.
    destruct (selectUserByEmail email s0) as [u|] eqn:Hsel.
    + exists u, s0. split; [reflexivity|].
      pose proof (find_some _ _ Hsel) as [_ He]. apply String.eqb_eq in He.
      split; [exact He|]. now rewrite Hsel.
    + cbn zeta. unfold selectUserById. cbn [users_table withUsers].
      rewrite find_app_none.
      2:{ apply find_all_false. intros a Ha. apply Z.eqb_neq. intros Heq.
          apply (nextRowid_fresh (map usersTable.id (users_table s0))).
          rewrite <- Heq. now apply in_map. }
      cbn [find usersTable.id]. rewrite Z.eqb_refl.
      eexists. eexists. split; [reflexivity|]. cbn [usersTable.email].
      split; [reflexivity|].
      unfold selectUserByEmail in *. cbn [users_table withUsers].
      rewrite (find_app_none _ _ _ Hsel). cbn [find usersTable.email].
      now rewrite String.eqb_refl.
Qed.

End FundingScript.

(** ** Closed instances *)

Lemma cookie_header_read_back_witness :
  let pairs := [("theme", "dark"); ("session", "jwt.7.0"); ("lang", "en")] in
  Cookies.entries (Cookies.header pairs) = pairs
  /\ Cookies.sessionOf (Cookies.header pairs) = Cookies.fromEntries "session" pairs
  /\ (forall before tok after,
         pairs = before ++ ("session", tok) :: after ->
         Forall (fun kv => fst kv <> "session") after ->
         Cookies.sessionOf (Cookies.header pairs) = Some tok)
  /\ (forall before tok after,
         pairs = before ++ ("session", tok) :: after ->
         Forall (fun kv => fst kv <> "session") before ->
         Text.mentions "=" tok = false ->
         Cookies.logoutSessionOf (Cookies.header pairs) = Some tok).
Proof.
  apply (@cookie_header_read_back
           [("theme", "dark"); ("session", "jwt.7.0"); ("lang", "en")]).
  repeat constructor.
Defined.

Lemma createContext_sound_witness :
  let r := Demo.fetchRequest ("theme=dark; session=" ++ Demo.sign 7 Demo.tenAM) in
  Demo.members = Demo.members
  /\ In Demo.carol (Identity.users_table Demo.members)
  /\ exists tok session,
       Cookies.sessionOf (Identity.cookieHeader r) = Some tok
       /\ Demo.verify tok (Demo.tenAM + 60000) = Some (usersTable.id Demo.carol)
       /\ In session (Identity.sessions_table Demo.members)
       /\ sessions.token session = tok
       /\ forall e sf,
            Demo.getTime (sessions.expiresAt session) = Some e ->
            Identity.defaultSafetyMs = Some sf -> (sf < e - (Demo.tenAM + 60000))%Z.
Proof.
  apply (@createContext_sound Demo.platform Identity.defaultSafetyMs
           (Demo.tenAM + 60000)
           (Demo.fetchRequest ("theme=dark; session=" ++ Demo.sign 7 Demo.tenAM))
           Demo.members Demo.members
           {| Identity.user := Some Demo.carol;
              Identity.req :=
                Demo.fetchRequest ("theme=dark; session=" ++ Demo.sign 7 Demo.tenAM) |}
           Demo.carol).
  - vm_compute. reflexivity.
  - reflexivity.
Defined.


Lemma anonymous_request_refused_witness :
  let r := Demo.fetchRequest "theme=dark" in
  @Identity.createContext Demo.platform Identity.defaultSafetyMs Demo.tenAM r Demo.members
  = (Identity.anonymous r, Demo.members)
  /\ (forall fl d ty draws ts,
         call (Procedures.createAccount (Identity.anonymous r) ty draws ts) fl d
         = (inl Identity.unauthorized, d))
  /\ (forall fl d,
         call (Procedures.getAccounts (Identity.anonymous r)) fl d
         = (inl Identity.unauthorized, d))
  /\ (forall fl d nowIso raw,
         call (Procedures.fundAccount (Identity.anonymous r) nowIso raw) fl d
         = (inl Identity.unauthorized, d))
  /\ (forall fl d X,
         call (Procedures.getTransactions (Identity.anonymous r) X) fl d
         = (inl Identity.unauthorized, d))
  /\ kindsOf Identity.unauthorized = [Unauthorized].
Proof.
  apply (@anonymous_request_refused exampleRuntime Demo.platform
           Identity.defaultSafetyMs Demo.tenAM (Demo.fetchRequest "theme=dark")
           Demo.members).
  intros tok Htok. vm_compute in Htok. discriminate Htok.
Defined.

Lemma login_refusals_alike_witness :
  let unknown := {| Identity.loginEmail := "nobody@example.com";
                    Identity.loginPassword := "Secret#123" |} in
  let wrong := {| Identity.loginEmail := "carol@example.com";
                  Identity.loginPassword := "secret#123" |} in
  @Identity.login Demo.platform Demo.tenAM "2026-01-09T10:00:00.000Z" unknown Demo.members
  = (inl Identity.invalidCredentials, Demo.members)
  /\ @Identity.login Demo.platform Demo.tenAM "2026-01-09T10:00:00.000Z" wrong Demo.members
     = (inl Identity.invalidCredentials, Demo.members)
  /\ kindsOf Identity.invalidCredentials = [Unauthorized].
Proof.
  apply (@login_refusals_alike Demo.platform Demo.tenAM Demo.tenAM
           "2026-01-09T10:00:00.000Z" "2026-01-09T10:00:00.000Z"
           {| Identity.loginEmail := "nobody@example.com";
              Identity.loginPassword := "Secret#123" |}
           {| Identity.loginEmail := "carol@example.com";
              Identity.loginPassword := "secret#123" |}
           Demo.members Demo.carol).
  - reflexivity.
  - reflexivity.
  - vm_compute. reflexivity.
Defined.

Lemma login_twice_same_instant_witness :
  let input := {| Identity.loginEmail := "carol@example.com";
                  Identity.loginPassword := "Secret#123" |} in
  let first := @Identity.login Demo.platform (Demo.tenAM + 1000)
                 "2026-01-09T10:00:01.000Z" input Demo.members in
  @Identity.login Demo.platform (Demo.tenAM + 1000) "2026-01-09T10:00:01.000Z" input
    (snd first)
  = (inl Identity.tokenNotUnique, snd first)
  /\ kindsOf Identity.tokenNotUnique = [InternalError].
Proof.
  eapply (@login_twice_same_instant Demo.platform (Demo.tenAM + 1000)
            "2026-01-09T10:00:01.000Z" "2026-01-09T10:00:01.000Z"
            {| Identity.loginEmail := "carol@example.com";
               Identity.loginPassword := "Secret#123" |}
            Demo.members).
  vm_compute. reflexivity.
Defined.

Lemma login_then_request_witness :
  let input := {| Identity.loginEmail := "carol@example.com";
                  Identity.loginPassword := "Secret#123" |} in
  let first := @Identity.login Demo.platform (Demo.tenAM + 1000)
                 "2026-01-09T10:00:00.000Z" input Demo.members in
  let r := Demo.fetchRequest ("session=" ++ Demo.sign 7 (Demo.tenAM + 1000)) in
  exists u,
    Identity.selectUserByEmail "carol@example.com" Demo.members = Some u
    /\ Identity.withoutPassword Demo.carol = Identity.withoutPassword u
    /\ @Identity.createContext Demo.platform Identity.defaultSafetyMs
         (Demo.tenAM + 5000) r (snd first)
       = ({| Identity.user := Some u; Identity.req := r |}, snd first).
Proof.
  eapply (@login_then_request Demo.platform (Demo.tenAM + 1000)
            "2026-01-09T10:00:00.000Z"
            {| Identity.loginEmail := "carol@example.com";
               Identity.loginPassword := "Secret#123" |}
            Demo.members _
            {| Identity.signedInUser := Identity.withoutPassword Demo.carol;
               Identity.token := Demo.sign 7 (Demo.tenAM + 1000);
               Identity.setCookie :=
                 Identity.sessionCookie (Demo.sign 7 (Demo.tenAM + 1000)) |}
            Identity.defaultSafetyMs (Demo.tenAM + 5000) 1767952800000 30000
            (Demo.fetchRequest ("session=" ++ Demo.sign 7 (Demo.tenAM + 1000)))).
  - repeat constructor. intros [].
  - vm_compute. reflexivity.
  - vm_compute. reflexivity.
  - vm_compute. reflexivity.
  - vm_compute. reflexivity.
  - reflexivity.
  - reflexivity.
  - vm_compute. reflexivity.
Defined.

Lemma logout_ends_session_witness :
  let tok := Demo.sign 7 Demo.tenAM in
  let r := Demo.fetchRequest ("session=" ++ tok) in
  let s2 := Identity.deleteSessionsByToken tok Demo.members in
  Identity.logout {| Identity.user := Some Demo.carol; Identity.req := r |} Demo.members
  = ({| Identity.success := true; Identity.message := "Logged out successfully";
        Identity.clearCookie := Identity.clearedCookie |}, s2)
  /\ Identity.users_table s2 = Identity.users_table Demo.members
  /\ (forall x, In x (Identity.sessions_table s2)
                <-> In x (Identity.sessions_table Demo.members)
                    /\ sessions.token x <> tok)
  /\ (forall safety' now',
         @Identity.createContext Demo.platform safety' now' r s2
         = (Identity.anonymous r, s2))
  /\ (forall s0,
         Identity.logout (Identity.anonymous r) s0
         = ({| Identity.success := true; Identity.message := "No active session";
               Identity.clearCookie := Identity.clearedCookie |}, s0)).
Proof.
  apply (@logout_ends_session Demo.platform Identity.defaultSafetyMs Demo.tenAM
           (Demo.fetchRequest ("session=" ++ Demo.sign 7 Demo.tenAM))
           Demo.members Demo.members
           {| Identity.user := Some Demo.carol;
              Identity.req := Demo.fetchRequest ("session=" ++ Demo.sign 7 Demo.tenAM) |}
           (Demo.sign 7 Demo.tenAM)).
  - vm_compute. reflexivity.
  - discriminate.
  - vm_compute. reflexivity.
  - vm_compute. reflexivity.
Defined.

Lemma signup_then_login_witness :
  let input := {| Identity.email := "dave@example.com"; Identity.password := "Passw0rd!";
                  Identity.ssn := "987654321";
                  Identity.rest := Identity.rawDetails Demo.dave |} in
  let first := @Identity.signup Demo.platform "salt2" Demo.tenAM
                 "2026-01-09T10:00:00.000Z" input Demo.nobody in
  exists res2 s2,
    @Identity.login Demo.platform (Demo.tenAM + 1000) "2026-01-09T10:00:01.000Z"
      {| Identity.loginEmail := "dave@example.com";
         Identity.loginPassword := "Passw0rd!" |}
      (snd first)
    = (inr res2, s2)
    /\ Identity.returnedEmail (Identity.signedInUser res2) = "dave@example.com"
    /\ Identity.users_table s2 = Identity.users_table (snd first)
    /\ length (Identity.sessions_table s2) = 2%nat.
Proof.
  destruct (@signup_then_login Demo.platform "salt2" Demo.tenAM (Demo.tenAM + 1000)
              "2026-01-09T10:00:00.000Z" "2026-01-09T10:00:01.000Z"
              {| Identity.email := "dave@example.com"; Identity.password := "Passw0rd!";
                 Identity.ssn := "987654321";
                 Identity.rest := Identity.rawDetails Demo.dave |}
              Demo.nobody
              (snd (@Identity.signup Demo.platform "salt2" Demo.tenAM
                      "2026-01-09T10:00:00.000Z"
                      {| Identity.email := "dave@example.com";
                         Identity.password := "Passw0rd!";
                         Identity.ssn := "987654321";
                         Identity.rest := Identity.rawDetails Demo.dave |}
                      Demo.nobody))
              {| Identity.signedInUser :=
                   {| Identity.returnedId := 1;
                      Identity.returnedEmail := "dave@example.com";
                      Identity.returnedSsnHash := Some "h:987654321";
                      Identity.returnedSsnLast4 := Some "4321";
                      Identity.returnedDetails := Identity.rawDetails Demo.dave |};
                 Identity.token := Demo.sign 1 Demo.tenAM;
                 Identity.setCookie := Identity.sessionCookie (Demo.sign 1 Demo.tenAM) |})
    as (res2 & s2 & Hl & Hu & Hus & Hlen).
  - vm_compute. reflexivity.
  - vm_compute. reflexivity.
  - vm_compute. reflexivity.
  - exists res2, s2. split; [exact Hl|]. split; [now rewrite Hu|].
    split; [exact Hus|exact Hlen].
Defined.


Lemma login_is_case_sensitive_witness :
  let input := {| Identity.email := "dave@example.com"; Identity.password := "Passw0rd!";
                  Identity.ssn := "987654321";
                  Identity.rest :=
                    {| usersTable.firstName := "Dave"; usersTable.lastName := "Smith";
                       usersTable.phoneNumber := "+15557654321";
                       usersTable.dateOfBirth := "1985-05-05";
                       usersTable.address := "2 Oak Ave"; usersTable.city := "Portland";
                       usersTable.state := "OR"; usersTable.zipCode := "97201" |} |} in
  let first := @Identity.signup Demo.platform "salt2" Demo.tenAM
                 "2026-01-09T10:00:00.000Z" input Demo.members in
  "dave@example.com" = Text.toLowerCase "Dave@Example.com"
  /\ @Identity.login Demo.platform (Demo.tenAM + 1000) "2026-01-09T10:00:01.000Z"
       {| Identity.loginEmail := "Dave@Example.com";
          Identity.loginPassword := "Passw0rd!" |}
       (snd first)
     = (inl Identity.invalidCredentials, snd first).
Proof.
  eapply (@login_is_case_sensitive Demo.platform "salt2" Demo.tenAM (Demo.tenAM + 1000)
            "2026-01-09T10:00:00.000Z" "2026-01-09T10:00:01.000Z" Demo.dave _
            Demo.members _
            {| Identity.signedInUser :=
                 {| Identity.returnedId := 8;
                    Identity.returnedEmail := "dave@example.com";
                    Identity.returnedSsnHash := Some "h:987654321";
                    Identity.returnedSsnLast4 := Some "4321";
                    Identity.returnedDetails :=
                      {| usersTable.firstName := "Dave"; usersTable.lastName := "Smith";
                         usersTable.phoneNumber := "+15557654321";
                         usersTable.dateOfBirth := "1985-05-05";
                         usersTable.address := "2 Oak Ave";
                         usersTable.city := "Portland";
                         usersTable.state := "OR"; usersTable.zipCode := "97201" |} |};
               Identity.token := Demo.sign 8 Demo.tenAM;
               Identity.setCookie := Identity.sessionCookie (Demo.sign 8 Demo.tenAM) |}).
  - unfold Visits.sound. cbn.
    repeat split; repeat constructor; cbn; intuition discriminate.
  - vm_compute. reflexivity.
  - vm_compute. reflexivity.
  - vm_compute. discriminate.
Defined.



Lemma ensureSession_one_session_witness :
  let s' := Identity.insertSession 7 "script-token" "2026-01-03T10:00:00.000Z"
              (Scripts.deleteWhere (Scripts.ofUser 7) Demo.members) in
  exists s1,
    s' = Some s1
    /\ Identity.users_table s1 = Identity.users_table Demo.members
    /\ (exists row,
          filter (Scripts.ofUser 7) (Identity.sessions_table s1) = [row]
          /\ sessions.token row = "script-token"
          /\ sessions.expiresAt row = "2026-01-03T10:00:00.000Z").
Proof.
  eexists. split; [vm_compute; reflexivity|].
  destruct (@ensureSession_one_session 7 "script-token" "2026-01-03T10:00:00.000Z"
              Demo.members _ eq_refl) as (Hu & Hrow & _).
  split; [exact Hu|exact Hrow].
Defined.
